(** * LysioDB [Calculations]: a shallow embedding of [src/LysioDB/calculations.py]

    The Python class drives Polars data frames.  The embedding keeps the
    shape of the code: a data frame is a list of rows, a Polars [null] is
    [None], a Float64 is an [f64] (exact rational arithmetic on the finite
    values, with the IEEE special values [inf], [-inf] and [NaN] kept apart;
    the iterative solver has the rounding of Float64 on top, as a
    parameter), and a Python exception is the [Raise] branch of [result]. *)

From Stdlib Require Import QArith Qabs ZArith List String Bool Lia Lqa Permutation.
Import ListNotations.
Local Open Scope Q_scope.

(** ** Float64 values *)

Module F64.

Inductive f64 : Type :=
| Fin (q : Q)
| PInf
| NInf
| NaN.

(** Finite results are kept in lowest terms, so that equal floats are equal
    terms. *)
Definition fin (q : Q) : f64 := Fin (Qred q).

Definition inf_of_sign (c : comparison) : f64 :=
  match c with
  | Gt => PInf
  | Lt => NInf
  | Eq => NaN
  end.

Definition fneg (a : f64) : f64 :=
  match a with
  | Fin x => fin (- x)
  | PInf => NInf
  | NInf => PInf
  | NaN => NaN
  end.

Definition fadd (a b : f64) : f64 :=
  match a, b with
  | NaN, _ => NaN
  | _, NaN => NaN
  | Fin x, Fin y => fin (x + y)
  | PInf, NInf => NaN
  | NInf, PInf => NaN
  | PInf, _ => PInf
  | _, PInf => PInf
  | NInf, _ => NInf
  | _, NInf => NInf
  end.

Definition fsub (a b : f64) : f64 := fadd a (fneg b).

Definition fmul (a b : f64) : f64 :=
  match a, b with
  | NaN, _ => NaN
  | _, NaN => NaN
  | Fin x, Fin y => fin (x * y)
  | Fin x, PInf => inf_of_sign (x ?= 0)
  | PInf, Fin x => inf_of_sign (x ?= 0)
  | Fin x, NInf => inf_of_sign (0 ?= x)
  | NInf, Fin x => inf_of_sign (0 ?= x)
  | PInf, PInf => PInf
  | NInf, NInf => PInf
  | PInf, NInf => NInf
  | NInf, PInf => NInf
  end.

(** IEEE division: [x / 0] is an infinity for [x <> 0] and [NaN] for
    [0 / 0]; the sign of a zero is not tracked (a zero is [+0]). *)
Definition fdiv (a b : f64) : f64 :=
  match a, b with
  | NaN, _ => NaN
  | _, NaN => NaN
  | Fin x, Fin y => if Qeq_bool y 0 then inf_of_sign (x ?= 0) else fin (x / y)
  | Fin _, _ => Fin 0
  | PInf, Fin y => if Qle_bool 0 y then PInf else NInf
  | NInf, Fin y => if Qle_bool 0 y then NInf else PInf
  | _, _ => NaN
  end.

Definition fabs (a : f64) : f64 :=
  match a with
  | Fin x => fin (Qabs x)
  | PInf => PInf
  | NInf => PInf
  | NaN => NaN
  end.

(** Python's [a < b] on floats: false as soon as one side is [NaN]. *)
Definition flt (a b : f64) : bool :=
  match a, b with
  | NaN, _ => false
  | _, NaN => false
  | Fin x, Fin y => negb (Qle_bool y x)
  | Fin _, PInf => true
  | Fin _, NInf => false
  | PInf, _ => false
  | NInf, NInf => false
  | NInf, _ => true
  end.

Definition is_nan (a : f64) : bool :=
  match a with
  | NaN => true
  | _ => false
  end.

(** [Expr.fill_nan v] *)
Definition fill_nan (v : f64) (a : f64) : f64 := if is_nan a then v else a.

(** [Expr.fill_null v] *)
Definition fill_null {A : Type} (v : A) (a : option A) : A :=
  match a with
  | Some x => x
  | None => v
  end.

(** [Expr.sum] over a Float64 column without nulls. *)
Definition fsum (l : list f64) : f64 := fold_right fadd (Fin 0) l.

(** [Series.max] skips [NaN] (the poisoning variant is [nan_max]); an empty
    series has no maximum. *)
Definition fmax2 (a b : f64) : f64 :=
  match a, b with
  | NaN, _ => b
  | _, NaN => a
  | _, _ => if flt a b then b else a
  end.

Definition fmax (l : list f64) : option f64 :=
  match l with
  | [] => None
  | x :: t => Some (fold_left fmax2 t x)
  end.


End F64.
Export F64.

(** ** Python exceptions *)

(** [InvalidOperationError] is what a strict [cast] raises on a value it
    cannot convert (a [ComputeError] in older versions of the library),
    [DuplicateError] what a frame raises on two columns of one name, and
    [ValueError] what [float] raises on a string that holds no number. *)
Inductive exn : Type :=
| TypeError
| ShapeError
| UnboundLocalError
| ColumnNotFoundError
| InvalidOperationError
| DuplicateError
| ValueError.

Inductive result (A : Type) : Type :=
| Ok (a : A)
| Raise (e : exn).
Arguments Ok {A} a.
Arguments Raise {A} e.

Definition bind {A B : Type} (r : result A) (k : A -> result B) : result B :=
  match r with
  | Ok a => k a
  | Raise e => Raise e
  end.

Notation "x <- c ;; k" := (bind c (fun x => k))
  (at level 61, c at next level, right associativity).

(** A loop, or an expression on a column, that stops at the first
    exception. *)
Fixpoint traverse {A B : Type} (f : A -> result B) (l : list A) : result (list B) :=
  match l with
  | [] => Ok []
  | x :: t => y <- f x ;; ys <- traverse f t ;; Ok (y :: ys)
  end.

(** ** Sums of rationals *)

(** [sum] of an expression over the rows of a frame; the expression has the
    value 0 where Polars would skip a null. *)
Definition sumQ {A : Type} (f : A -> Q) (l : list A) : Q :=
  fold_right (fun x acc => f x + acc) 0 l.

(** ** Columns and keys *)

(** A string column cell; [None] is a Polars null. *)
Definition key : Type := option string.

Definition key_eqb (a b : key) : bool :=
  match a, b with
  | Some x, Some y => String.eqb x y
  | None, None => true
  | _, _ => false
  end.

Section Distinct.
Context {A : Type} (eqb : A -> A -> bool).

(** The distinct values of a column, in order of first appearance. *)
Fixpoint distinct (l : list A) : list A :=
  match l with
  | [] => []
  | x :: t => x :: filter (fun y => negb (eqb x y)) (distinct t)
  end.

End Distinct.

(** ** [weights_test]: the Polars IPF solver (lines 16-109) *)

Module IPF.

(** One row of [target_df]: its cells in the target columns, and its
    [population], a Float64. *)
Definition target_row : Type := (list key * Q)%type.

(** One row of the survey: its cells in the [<col>_mapped] columns. *)
Definition survey_row : Type := list key.

Definition column (j : nat) (rows : list (list key)) : list key :=
  map (fun r => nth j r None) rows.

(** *** The arithmetic of the solver

    A weight is multiplied by a factor in every sweep, up to a thousand
    times over, so the rounding of Float64 is not left out here: [round q]
    is the Float64 that an operation returns when its exact result is [q].
    A result may be off in its last bit, may underflow to zero and may
    overflow to an infinity. *)

(** [a <= b] on floats: false as soon as one side is [NaN]. *)
Definition fle (a b : f64) : bool :=
  match a, b with
  | NaN, _ => false
  | _, NaN => false
  | Fin x, Fin y => Qle_bool x y
  | NInf, _ => true
  | _, PInf => true
  | _, _ => false
  end.

(** What is used of a rounding: it keeps the order of the exact results,
    it keeps the integers that Float64 holds, and in the range of the
    normal numbers it gives a finite result, off by less than a factor
    of 2. *)
Record rounding (round : Q -> f64) : Prop := {
  round_monotone : forall p q, p <= q -> fle (round p) (round q) = true;
  round_integer : forall z, (Z.abs z <= 2 ^ 53)%Z ->
                            round (inject_Z z) = Fin (inject_Z z);
  round_normal : forall q, 1 # (2 ^ 1022) <= q -> q <= inject_Z (2 ^ 1023) ->
                           exists q', round q = Fin q' /\ q * (1 # 2) <= q' /\ q' <= q * 2
}.

(** The rounding of a result that Float64 holds exactly, as on the small
    integers of the examples. *)
Definition exact (q : Q) : f64 := Fin q.

(** A float that is not below zero: zero, positive or [inf]. *)
Definition nonneg (a : f64) : Prop :=
  match a with
  | Fin x => 0 <= x
  | PInf => True
  | _ => False
  end.


Section Arithmetic.

Variable round : Q -> f64.

Definition rounded (a : f64) : f64 :=
  match a with
  | Fin q => round q
  | _ => a
  end.

Definition add (a b : f64) : f64 := rounded (fadd a b).
Definition sub (a b : f64) : f64 := rounded (fsub a b).
Definition mul (a b : f64) : f64 := rounded (fmul a b).
Definition div (a b : f64) : f64 := rounded (fdiv a b).

(** [Expr.sum] over a Float64 column without nulls, each addition rounded;
    the order in which the library adds is its own, here the column is
    added up from its end. *)
Definition sum (l : list f64) : f64 := fold_right add (Fin 0) l.

(** [group_by(k).agg(pl.col(v).sum())] with the groups in order of first
    appearance.  Polars promises no order for the groups of a [group_by]
    (no [maintain_order] is passed): the frame the code goes on with is
    [group_order] of this one. *)
Definition group_sum (ks : list key) (vs : list f64) : list (key * f64) :=
  map (fun k =>
         (k, sum (map snd (filter (fun kv => key_eqb k (fst kv)) (combine ks vs)))))
      (distinct key_eqb ks).

(** The [factor] column of [adj_df]: [(target / weight).fill_nan(1.0)]. *)
Definition factor (target total : f64) : f64 := fill_nan (Fin 1) (div target total).

(** [tolerance = 1e-6], the Float64 of the literal. *)
Definition tolerance : f64 := round (1 # 1000000).

End Arithmetic.

(** [LazyFrame.drop_nans()]: the only float column is the sum. *)
Definition drop_nans (l : list (key * f64)) : list (key * f64) :=
  filter (fun kv => negb (is_nan (snd kv))) l.

(** The left join on [<col>_mapped]: a null key matches nothing, and the
    keys of [adj_df] are the distinct keys of a [group_by]. *)
Definition join_factor (k : key) (adj : list (key * f64)) : option f64 :=
  match k with
  | None => None
  | Some _ => option_map snd (find (fun kf => key_eqb k (fst kf)) adj)
  end.

Definition max_iterations : nat := 1000.

Record outcome : Type := {
  weight : list f64;
  converged : bool;
  iterations : nat
}.

Section Solver.

Variable round : Q -> f64.

(** The order in which a [group_by] hands out its groups. *)
Variable group_order : list (key * f64) -> list (key * f64).

Variable target_df : list target_row.
Variable survey_df : list survey_row.
(** [zip(df_columns, target_columns)], as column positions. *)
Variable dims : list (nat * nat).

(** [target_marginals[col]["population"]] (lines 40-47). *)
Definition target_marginals (target_col : nat) : list f64 :=
  map snd (group_order
             (group_sum round (column target_col (map fst target_df))
                        (map (fun r => Fin (snd r)) target_df))).

(** [adj_df] (lines 66-77): the three lists become the columns of one frame,
    row by row; the constructor raises when their lengths differ.  Neither
    [target] nor [weight] holds a null, so [fill_null(1.0)] has nothing to
    fill. *)
Definition adj_df (cur : list (key * f64)) (target : list f64)
  : result (list (key * f64)) :=
  if Nat.eqb (List.length cur) (List.length target) then
    Ok (map (fun ct => (fst (fst ct), factor round (snd ct) (snd (fst ct))))
            (combine cur target))
  else Raise ShapeError.

(** One pass of the inner loop (lines 57-93). *)
Definition sweep (d : nat * nat) (w : list f64) : result (list f64) :=
  let col := column (fst d) survey_df in
  let current_marginals := drop_nans (group_order (group_sum round col w)) in
  adj <- adj_df current_marginals (target_marginals (snd d)) ;;
  Ok (map (fun kw => mul round (snd kw) (fill_null (Fin 1) (join_factor (fst kw) adj)))
          (combine col w)).

Fixpoint sweeps (ds : list (nat * nat)) (w : list f64) : result (list f64) :=
  match ds with
  | [] => Ok w
  | d :: ds' => w' <- sweep d w ;; sweeps ds' w'
  end.

(** [(weight_df["weight"] - prev_weights).abs().max()]; comparing the [None]
    of an empty series with a float is a [TypeError]. *)
Definition weight_diff (w prev : list f64) : result f64 :=
  match fmax (map (fun p => fabs (sub round (fst p) (snd p))) (combine w prev)) with
  | Some d => Ok d
  | None => Raise TypeError
  end.

(** The [for iteration in range(max_iterations)] loop; [n] iterations are
    left, [it] have been done. *)
Fixpoint ipf_loop (n it : nat) (w : list f64) : result outcome :=
  match n with
  | O => Ok {| weight := w; converged := false; iterations := it |}
  | S n' =>
      w' <- sweeps dims w ;;
      d <- weight_diff w' w ;;
      if flt d (tolerance round)
      then Ok {| weight := w'; converged := true; iterations := S it |}
      else ipf_loop n' (S it) w'
  end.

Definition weights_test : result outcome :=
  ipf_loop max_iterations 0 (map (fun _ => Fin 1) survey_df).

End Solver.

(** The factor as the specification words it, for comparison with [sweep]:
    the target of the row's own category over the current total of that
    same category, whatever the order of the two tables; 1.0 where a side
    is missing. *)
Definition keyed_factor (round : Q -> f64) (targets totals : list (key * f64))
           (k : key) : f64 :=
  match join_factor k targets, join_factor k totals with
  | Some t, Some s => factor round t s
  | _, _ => Fin 1
  end.

End IPF.


(** ** [percentages]: the percentage aggregator (lines 213-808) *)

Module Percentages.

(** A respondent, as the aggregation of one answer column [col] under one
    category column sees it: the category flag, the answer in [col], and
    the weight in [config.WEIGHT_COLUMN]. *)
Record respondent : Type := {
  flag : option Z;
  answer : option Q;
  wt : option Q
}.

(** [x in nan_values_list], [x in possible_values] *)
Definition mem (x : Q) (l : list Q) : bool := existsb (Qeq_bool x) l.

(** [pl.col(col) == v]; null for a null answer, which [sum] and [when] take
    as no match. *)
Definition answer_is (v : Q) (r : respondent) : bool :=
  match answer r with
  | Some a => Qeq_bool a v
  | None => false
  end.

(** [pl.col(col).is_in(nan_values_list)] *)
Definition is_missing (nan_values_list : list Q) (r : respondent) : bool :=
  match answer r with
  | Some a => mem a nan_values_list
  | None => false
  end.

(** [~pl.col(col).is_in(nan_values_list)]; null again for a null answer. *)
Definition not_missing (nan_values_list : list Q) (r : respondent) : bool :=
  match answer r with
  | Some a => negb (mem a nan_values_list)
  | None => false
  end.

(** [<bool expr>.sum()] and [<filtered column>.count()]: the number of rows
    that satisfy [p]. *)
Definition count_where (p : respondent -> bool) (g : list respondent) : Q :=
  inject_Z (Z.of_nat (List.length (filter p g))).

(** [pl.when(p).then(pl.col(WEIGHT_COLUMN)).sum()]: null weights and rows
    that fail [p] add nothing. *)
Definition weight_where (p : respondent -> bool) (g : list respondent) : Q :=
  sumQ (fun r => fill_null 0 (wt r)) (filter p g).

(** The possible answer values of a group (lines 291-314): the keys of the
    value labels, less the missing codes; [None] when the group is skipped. *)
Definition possible_values (value_labels_info : option (list (Q * string)))
           (nan_values_list : list Q) : option (list Q) :=
  match value_labels_info with
  | None => None
  | Some [] => None
  | Some labels =>
      let keys := map fst labels in
      let values :=
        match nan_values_list with
        | [] => keys
        | _ => filter (fun v => negb (mem v nan_values_list)) keys
        end in
      match values with
      | [] => None
      | _ => Some values
      end
  end.

Section Aggregation.

Variable nan_values_list : list Q.
Variable use_weights : bool.

(** *** The aggregation expressions of one answer column (lines 318-402),
        evaluated on the rows [g] of one group *)

(** [<col>_<value>_count] *)
Definition value_count (v : Q) (g : list respondent) : f64 :=
  Fin (count_where (answer_is v) g).

(** [<col>_<value>_weighted] *)
Definition value_weighted (v : Q) (g : list respondent) : f64 :=
  fin (weight_where (answer_is v) g).

(** [<col>_nan_count]: the literal 0.0 without missing codes. *)
Definition nan_count (g : list respondent) : f64 :=
  match nan_values_list with
  | [] => Fin 0
  | _ => Fin (count_where (is_missing nan_values_list) g)
  end.

(** [<col>_nan_weighted] *)
Definition nan_weighted (g : list respondent) : f64 :=
  match nan_values_list with
  | [] => Fin 0
  | _ => fin (weight_where (is_missing nan_values_list) g)
  end.

(** [<col>_total_count] *)
Definition total_count (g : list respondent) : f64 :=
  Fin (count_where (not_missing nan_values_list) g).

(** [<col>_total_weighted_count] *)
Definition total_weighted_count (g : list respondent) : f64 :=
  fin (weight_where (not_missing nan_values_list) g).

(** *** The percentage expressions (lines 432-515) *)

(** [<col>_<value>_percentage].  Both operands are non-null, so
    [fill_null(0)] fills nothing; only the unweighted path has
    [fill_nan(0)]. *)
Definition value_percentage (v : Q) (g : list respondent) : f64 :=
  if use_weights
  then fdiv (value_weighted v g) (total_weighted_count g)
  else fill_nan (Fin 0) (fdiv (value_count v g) (total_count g)).

(** [<col>_nan_percentage] *)
Definition nan_percentage (g : list respondent) : f64 :=
  if use_weights
  then fill_nan (Fin 0)
         (fdiv (nan_weighted g) (fadd (total_count g) (nan_weighted g)))
  else fill_nan (Fin 0)
         (fdiv (nan_count g) (fadd (total_count g) (nan_count g))).

(** The denominator and the missing quantity of the path taken, as the
    value percentages use them. *)
Definition denominator (g : list respondent) : f64 :=
  if use_weights then total_weighted_count g else total_count g.

Definition missing (g : list respondent) : f64 :=
  if use_weights then nan_weighted g else nan_count g.

(** *** One category column (lines 412-429, 687-692) *)

Definition flag_eqb (a b : option Z) : bool :=
  match a, b with
  | Some x, Some y => Z.eqb x y
  | None, None => true
  | _, _ => false
  end.

(** [df_group.group_by(pl.col(category_col))]: one group of rows per
    distinct flag value, here in order of first appearance. *)
Definition group_by_flag (df : list respondent)
  : list (option Z * list respondent) :=
  map (fun f => (f, filter (fun r => flag_eqb f (flag r)) df))
      (distinct flag_eqb (map flag df)).

(** The order in which the [group_by] hands out its groups. *)
Variable group_order :
  list (option Z * list respondent) -> list (option Z * list respondent).

(** [grouped_agg_df]: the groups with a non-null flag.  Every one of them
    is then labelled [category_col] (lines 426-429). *)
Definition grouped_agg_df (df : list respondent) : list (list respondent) :=
  map snd (filter (fun fg => match fst fg with Some _ => true | None => false end)
                  (group_order (group_by_flag df))).

(** The cell of the pivoted table for a metric of [col] under the category:
    [aggregate_function="first"] keeps the first of the rows that carry the
    category's label.  [None] when no row does. *)
Definition reported (metric : list respondent -> f64) (df : list respondent)
  : option f64 :=
  option_map metric (hd_error (grouped_agg_df df)).

(** The rows of the category proper, as the sibling aggregators take them
    ([pl.col(category_column) == 1], lines 1216, 1626, 1804). *)
Definition members (df : list respondent) : list respondent :=
  filter (fun r => flag_eqb (Some 1%Z) (flag r)) df.

End Aggregation.

(** *** Vocabulary of the statements *)

(** A sum of rationals over a list of answer values. *)
Fixpoint qsum (f : Q -> Q) (l : list Q) : Q :=
  match l with
  | [] => 0
  | v :: t => f v + qsum f t
  end.

(** The mass of the rows that satisfy [p]: their number for the measure 1,
    their weight for the weight column. *)
Fixpoint mass (mu : respondent -> Q) (p : respondent -> bool)
         (g : list respondent) : Q :=
  match g with
  | [] => 0
  | r :: t => (if p r then mu r else 0) + mass mu p t
  end.

(** Answer values that are pairwise different, as the keys of a dict are. *)
Fixpoint distinct_values (l : list Q) : Prop :=
  match l with
  | [] => True
  | v :: t => mem v t = false /\ distinct_values t
  end.

Definition answer_in (l : list Q) (r : respondent) : bool :=
  match answer r with
  | Some a => mem a l
  | None => false
  end.

(** The measure of a row: its weight in the weighted path, 1 otherwise. *)
Definition measure (use_weights : bool) (r : respondent) : Q :=
  if use_weights then fill_null 0 (wt r) else 1.

(** The value percentages of a column over the possible values, and their
    sum with the missing percentage. *)
Definition value_percentages (nan_values_list : list Q) (use_weights : bool)
           (values : list Q) (g : list respondent) : list f64 :=
  map (fun v => value_percentage nan_values_list use_weights v g) values.

Definition percentage_total (nan_values_list : list Q) (use_weights : bool)
           (values : list Q) (g : list respondent) : f64 :=
  fadd (fsum (value_percentages nan_values_list use_weights values g))
       (nan_percentage nan_values_list use_weights g).

End Percentages.

(** ** [_calculate_ranking_metrics]: the ranking aggregator (lines 810-1088) *)

Module Ranking.

(** A respondent as the body of the category loop sees it: the flag in
    [category_col], the weight, and the cells of the ranking columns
    present, in the order of [ranking_cols_present]. *)
Record respondent : Type := {
  flag : option Z;
  wt : option Q;
  ranked : list (option Q)
}.

(** One row of [melted_df] after the casts of lines 911-921. *)
Record placement : Type := {
  weight : option Q;
  rank : option Z;
  ranked_item_value : option Z
}.

(** One row of [per_category_df]; the lists run over the rank values
    [1 .. max_rank]. *)
Record ranked_item : Type := {
  item : Z;
  total_rank_count : Z;
  rank_count : list Z;
  rank_weighted : list Z;
  rank_percentage : list Q;
  total_score : Q;
  total_respondents : Q
}.

(** The cast of a float to Int64 drops the fraction. *)
Definition trunc (q : Q) : Z := Z.quot (Qnum q) (Z.pos (Qden q)).

Definition fits_int64 (z : Z) : bool :=
  (- 2 ^ 63 <=? z)%Z && (z <? 2 ^ 63)%Z.

(** [cast(pl.Int64)] is strict: a float whose integer part does not fit
    raises; a null stays a null. *)
Definition cast_float (q : Q) : result Z :=
  if fits_int64 (trunc q) then Ok (trunc q) else Raise InvalidOperationError.

Definition cast_int (c : option Q) : result (option Z) :=
  match c with
  | Some q => z <- cast_float q ;; Ok (Some z)
  | None => Ok None
  end.

(** The strict cast of the end of a column name: [None] stands for a name
    that holds no integer there. *)
Definition cast_rank (k : option Z) : result Z :=
  match k with
  | Some z => Ok z
  | None => Raise InvalidOperationError
  end.

Definition mem (x : Q) (l : list Q) : bool := existsb (Qeq_bool x) l.

(** A key of [value_labels_info]: a number, or a string, given with what
    [float] reads in it ([None] when it raises). *)
Inductive label_key : Type :=
| number (v : Q)
| text (s : string) (float_ : option Q).

(** [val not in nan_values_list] (line 842): the key itself is looked up,
    and a string is none of the numbers of the list. *)
Definition not_in_nan_values (nan_values_list : list Q) (val : label_key) : bool :=
  match val with
  | number v => negb (mem v nan_values_list)
  | text _ _ => true
  end.

(** [float(val)] *)
Definition float (val : label_key) : result Q :=
  match val with
  | number v => Ok v
  | text _ (Some v) => Ok v
  | text _ None => Raise ValueError
  end.

(** [possible_values] (lines 828-854); [None] when the question is
    skipped. *)
Definition possible_values (value_labels_info : option (list (label_key * string)))
           (nan_values_list : list Q) : result (option (list Q)) :=
  match value_labels_info with
  | None => Ok None
  | Some [] => Ok None
  | Some labels =>
      values <- traverse float
                  (filter (not_in_nan_values nan_values_list) (map fst labels)) ;;
      match values with
      | [] => Ok None
      | _ => Ok (Some values)
      end
  end.

Section Category.

Variable nan_values_list : list Q.
Variable possible : list Q.
Variable use_weights : bool.
(** The rank each ranking column stands for: what the cast to Int64 reads
    in the column name after [base_question + "M"]. *)
Variable ranks : list (option Z).

(** [df_category_filtered] (lines 871-873): the rows whose flag is not
    null. *)
Definition category_rows (df : list respondent) : list respondent :=
  filter (fun r => match flag r with Some _ => true | None => false end) df.

(** [total_respondents_count] (lines 881-886) *)
Definition total_respondents_count (rows : list respondent) : Q :=
  if use_weights
  then sumQ (fun r => fill_null 0 (wt r)) rows
  else inject_Z (Z.of_nat (List.length rows)).

(** [melt] and the casts that follow (lines 901-921): one row per ranking
    column and respondent, column by column; the rank is read in the name of
    the column and the item in its cell, both with a strict cast. *)
Definition melt_column (rows : list respondent) (j : nat) (k : option Z)
  : result (list placement) :=
  traverse (fun r =>
              rank_ <- cast_rank k ;;
              ranked_item_value_ <- cast_int (nth j (ranked r) None) ;;
              Ok {| weight := wt r; rank := Some rank_;
                    ranked_item_value := ranked_item_value_ |})
           rows.

Fixpoint melt_from (rows : list respondent) (j : nat) (ks : list (option Z))
  : result (list placement) :=
  match ks with
  | [] => Ok []
  | k :: ks' =>
      column <- melt_column rows j k ;;
      rest <- melt_from rows (S j) ks' ;;
      Ok (column ++ rest)
  end.

Definition melt (rows : list respondent) : result (list placement) :=
  melt_from rows 0 ranks.

(** The three filters of lines 923-931. *)
Definition rank_is_positive (p : placement) : bool :=
  match rank p with
  | Some k => (0 <? k)%Z
  | None => false
  end.

Definition item_not_missing (p : placement) : bool :=
  match ranked_item_value p with
  | Some i => negb (mem (inject_Z i) nan_values_list)
  | None => false
  end.

Definition item_possible (p : placement) : bool :=
  match ranked_item_value p with
  | Some i => mem (inject_Z i) possible
  | None => false
  end.

Definition filtered (m : list placement) : list placement :=
  filter item_possible (filter item_not_missing (filter rank_is_positive m)).

Definition melted_df (rows : list respondent) : result (list placement) :=
  m <- melt rows ;; Ok (filtered m).

(** [rank_score] and [weighted_rank_score] (lines 939-948), as [sum] takes
    them: a null adds nothing. *)
Definition rank_score (p : placement) : Q :=
  match rank p with
  | Some k => 1 / inject_Z k
  | None => 0
  end.

Definition weighted_rank_score (p : placement) : Q :=
  match weight p with
  | Some w => rank_score p * w
  | None => 0
  end.

Definition has_rank (k : Z) (p : placement) : bool :=
  match rank p with
  | Some k' => Z.eqb k' k
  | None => false
  end.

Definition has_item (i : Z) (p : placement) : bool :=
  match ranked_item_value p with
  | Some i' => Z.eqb i' i
  | None => false
  end.

Definition max_rank : nat := List.length ranks.

(** [range(1, max_rank + 1)] *)
Definition rank_values : list Z := map Z.of_nat (seq 1 max_rank).

(** [rank_<k>_weighted] (lines 969-976): the weights at a rank, summed and
    cast to Int64, strictly. *)
Definition rank_weighted_sums (g : list placement) : result (list Z) :=
  traverse (fun k => cast_float (sumQ (fun p => fill_null 0 (weight p))
                                      (filter (has_rank k) g)))
           rank_values.

(** The aggregation of the group of one ranked item (lines 952-978), its
    percentages (lines 984-1011) and the selection of lines 1025-1076. *)
Definition aggregate (total : Q) (i : Z) (g : list placement) : result ranked_item :=
  let counts :=
    map (fun k => Z.of_nat (List.length (filter (has_rank k) g))) rank_values in
  weighted <- (if use_weights then rank_weighted_sums g else Ok []) ;;
  Ok {| item := i;
        total_rank_count := Z.of_nat (List.length g);
        rank_count := counts;
        rank_weighted := weighted;
        rank_percentage :=
          if Qlt_le_dec 0 total
          then map (fun c => inject_Z c / total) (if use_weights then weighted else counts)
          else map (fun _ => 0) rank_values;
        total_score :=
          sumQ (if use_weights then weighted_rank_score else rank_score) g;
        total_respondents := total |}.

(** Insertion into a list sorted by increasing item. *)
Fixpoint insert (i : Z) (l : list Z) : list Z :=
  match l with
  | [] => [i]
  | j :: t => if (i <=? j)%Z then i :: l else j :: insert i t
  end.

Definition sort (l : list Z) : list Z := fold_right insert [] l.

Definition item_values (m : list placement) : list Z :=
  flat_map (fun p => match ranked_item_value p with
                     | Some i => [i]
                     | None => []
                     end) m.

(** The body of the category loop (lines 871-1084): [None] when the
    category is skipped, else the rows of [per_category_df], one per ranked
    item that occurs in [melted_df], sorted by item.  A cast that fails
    ends the call. *)
Definition per_category_df (df : list respondent)
  : result (option (list ranked_item)) :=
  let rows := category_rows df in
  match rows with
  | [] => Ok None
  | _ =>
      let total := total_respondents_count rows in
      if Qeq_bool total 0 then Ok None
      else
        m <- melted_df rows ;;
        match m with
        | [] => Ok None
        | _ =>
            out <- traverse (fun i => aggregate total i (filter (has_item i) m))
                            (sort (distinct Z.eqb (item_values m))) ;;
            Ok (Some out)
        end
  end.

(** The rows of the category proper, as the sibling aggregators take them
    ([pl.col(category_column) == 1], lines 1216, 1626, 1804). *)
Definition members (df : list respondent) : list respondent :=
  filter (fun r => match flag r with
                   | Some f => Z.eqb f 1
                   | None => false
                   end) df.

(** The row of a ranked item in the output, if it has one. *)
Definition row_of (i : Z) (out : list ranked_item) : option ranked_item :=
  find (fun r => Z.eqb (item r) i) out.

End Category.

(** *** Vocabulary of the statements *)

(** The item a respondent has in ranking column [j], as an integer. *)
Definition item_at (r : respondent) (j : nat) : option Z :=
  option_map trunc (nth j (ranked r) None).

(** The row of [melted_df] for a respondent and a ranking column. *)
Definition place (r : respondent) (j : nat) (k : option Z) : placement :=
  {| weight := wt r; rank := k; ranked_item_value := item_at r j |}.

(** The rows of the melted frame once its casts have gone through, and
    those the three filters keep. *)
Fixpoint placements_from (rows : list respondent) (j : nat) (ks : list (option Z))
  : list placement :=
  match ks with
  | [] => []
  | k :: ks' => map (fun r => place r j k) rows ++ placements_from rows (S j) ks'
  end.

Definition placements (ranks : list (option Z)) (rows : list respondent)
  : list placement :=
  placements_from rows 0 ranks.

Definition kept (nan_values_list possible : list Q) (ranks : list (option Z))
           (rows : list respondent) : list placement :=
  filtered nan_values_list possible (placements ranks rows).

(** The ranks at which a respondent places item [i]: the ranks of the
    ranking columns whose cell holds [i]. *)
Fixpoint placed_from (i : Z) (j : nat) (ks : list (option Z)) (r : respondent)
  : list (option Z) :=
  match ks with
  | [] => []
  | k :: ks' =>
      match item_at r j with
      | Some i' => if Z.eqb i' i then k :: placed_from i (S j) ks' r
                   else placed_from i (S j) ks' r
      | None => placed_from i (S j) ks' r
      end
  end.

Definition placed (ranks : list (option Z)) (i : Z) (r : respondent)
  : list (option Z) :=
  placed_from i 0 ranks r.

(** What one respondent adds to a sum over [melt], column by column. *)
Fixpoint col_sum (F : placement -> Q) (j : nat) (ks : list (option Z))
         (r : respondent) : Q :=
  match ks with
  | [] => 0
  | k :: ks' => F (place r j k) + col_sum F (S j) ks' r
  end.

(** The score summed into [total_score]. *)
Definition score (use_weights : bool) : placement -> Q :=
  if use_weights then weighted_rank_score else rank_score.

(** The measure of a respondent: the weight in the weighted path. *)
Definition mu (use_weights : bool) (r : respondent) : Q :=
  if use_weights then fill_null 0 (wt r) else 1.

(** What a respondent adds to the score of an item placed at rank [k]. *)
Definition placed_score (use_weights : bool) (r : respondent) (k : option Z) : Q :=
  match k with
  | Some k' => if (0 <? k')%Z then 1 / inject_Z k' * mu use_weights r else 0
  | None => 0
  end.

End Ranking.

(** ** The data of the index and ENI aggregators *)

Module Frame.

(** A numeric cell; [None] is a Polars null. *)
Definition cell : Type := option Q.

(** A row gives a cell to every column it names; a column it does not name
    reads as null.  The first binding of a name is the current one. *)
Definition row : Type := list (string * cell).

Record frame : Type := {
  columns : list string;
  rows : list row
}.

Definition get (c : string) (r : row) : cell :=
  match find (fun kv => String.eqb c (fst kv)) r with
  | Some kv => snd kv
  | None => None
  end.

Definition has_column (c : string) (df : frame) : bool :=
  existsb (String.eqb c) (columns df).

(** [config]: [NAN_VALUES] maps a missing code to what [replace] puts in
    its place. *)
Record config : Type := {
  WEIGHT_COLUMN : option string;
  NAN_VALUES : list (Q * cell);
  area_map : list (string * list string);
  MINIMUM_COUNT : Z
}.

Record database : Type := {
  df : frame;
  cfg : config;
  variable_value_labels : list (string * list (Q * string));
  categories : list string
}.

Definition mem (x : Q) (l : list Q) : bool := existsb (Qeq_bool x) l.

(** [nan_values_list]: the keys of [NAN_VALUES]. *)
Definition nan_values_list (c : config) : list Q := map fst (NAN_VALUES c).

(** A row of [df_clean]: the cells after [replace], and next to them the
    Boolean cells of the [<col>_was_nan_value_code] columns. *)
Record clean_row : Type := {
  cells : row;
  was_nan_value_code : list (string * option bool)
}.

(** The columns that get a flag and a replacement (lines 1113-1133,
    1754-1774): those with value labels of which one is a missing code. *)
Definition coded_columns (db : database) : list string :=
  filter (fun col =>
            match find (fun kv => String.eqb col (fst kv)) (variable_value_labels db) with
            | Some kv => existsb (fun v => mem v (nan_values_list (cfg db)))
                                 (map fst (snd kv))
            | None => false
            end)
         (columns (df db)).

(** [pl.col(col).is_in(nan_values_list)] *)
Definition is_nan_code (c : config) (v : cell) : option bool :=
  option_map (fun x => mem x (nan_values_list c)) v.

(** [pl.col(col).replace(nan_values_config)] *)
Definition replace (c : config) (v : cell) : cell :=
  match v with
  | Some x =>
      match find (fun kv => Qeq_bool x (fst kv)) (NAN_VALUES c) with
      | Some kv => snd kv
      | None => Some x
      end
  | None => None
  end.

Definition clean (db : database) (r : row) : clean_row :=
  match nan_values_list (cfg db) with
  | [] => {| cells := r; was_nan_value_code := [] |}
  | _ =>
      {| cells := map (fun col => (col, replace (cfg db) (get col r)))
                      (coded_columns db) ++ r;
         was_nan_value_code :=
           map (fun col => (col, is_nan_code (cfg db) (get col r)))
               (coded_columns db) |}
  end.

Definition df_clean (db : database) : list clean_row :=
  map (clean db) (rows (df db)).

(** [df_clean.filter(pl.col(category_column) == 1)] *)
Definition is_member (category_column : string) (r : clean_row) : bool :=
  match get category_column (cells r) with
  | Some f => Qeq_bool f 1
  | None => false
  end.

(** [nan_counts] (lines 1220-1242, 1808-1830): per flagged column, the
    number of [true] flags among the rows of the category. *)
Definition nan_count (col : string) (rs : list clean_row) : option Z :=
  match rs with
  | [] => None
  | r :: _ =>
      if existsb (fun kv => String.eqb col (fst kv)) (was_nan_value_code r)
      then Some (Z.of_nat (List.length
                   (filter (fun r' =>
                              match find (fun kv => String.eqb col (fst kv))
                                         (was_nan_value_code r') with
                              | Some (_, Some true) => true
                              | _ => false
                              end) rs)))
      else None
  end.

End Frame.

(** ** [index]: the category loop of the index aggregator (lines 1195-1425) *)

Module Index.
Import Frame.

(** One row of [final_category_df]. *)
Record index_row : Type := {
  area : string;
  question : string;
  Individual_Index : option f64;
  Area_Index : option f64
}.

Section Category.

Variable db : database.
(** The arguments [weights] and [scale] of [index]. *)
Variable weights : bool.
Variable scale : option (Q * Q).
(** The keys of [value_labels_info] of a question in [question_df]. *)
Variable value_labels_info : string -> option (list Q).

(** [all_questions] and [questions_present] (lines 1137-1140). *)
Definition all_questions : list string :=
  flat_map snd (area_map (cfg db)).

Definition questions_present : list string :=
  filter (fun q => has_column q (df db)) all_questions.

(** [area_map_list] (lines 1200-1203). *)
Definition area_map_list : list (string * string) :=
  flat_map (fun a => map (fun q => (q, fst a)) (snd a)) (area_map (cfg db)).

Definition qmin (a b : Q) : Q := if Qle_bool a b then a else b.
Definition qmax (a b : Q) : Q := if Qle_bool a b then b else a.

(** [question_meta_ranges] (lines 1281-1306): the least and the greatest
    value label of a question that is not a missing code. *)
Definition meta_range (q : string) : option (Q * Q) :=
  match value_labels_info q with
  | Some keys =>
      match filter (fun v => negb (mem v (nan_values_list (cfg db)))) keys with
      | [] => None
      | x :: t => Some (fold_left qmin t x, fold_left qmax t x)
      end
  | None => None
  end.

(** The rescaling of lines 1332-1356; a null stays a null. *)
Definition scaled (q : string) (v : cell) : cell :=
  match scale, v with
  | Some (target_min, target_max), Some x =>
      match meta_range q with
      | Some (lo, hi) =>
          if Qle_bool hi lo then Some x
          else Some ((x - lo) * ((target_max - target_min) / (hi - lo)) + target_min)
      | None => Some x
      end
  | _, _ => v
  end.

(** One row of [melted_df] for a question: weight and value. *)
Definition melted (weight_column : option string) (q : string)
           (rs : list clean_row) : list (cell * cell) :=
  map (fun r => (match weight_column with
                 | Some wc => get wc (cells r)
                 | None => None
                 end,
                 scaled q (get q (cells r))))
      rs.

(** [Count_Individual] (line 1372): [pl.count("Value")] after
    [fill_null(0)] finds no null to skip. *)
Definition Count_Individual (m : list (cell * cell)) : Z :=
  Z.of_nat (List.length (map (fun wv => fill_null 0 (snd wv)) m)).

(** [individual_index_expr] (lines 1358-1364) on the filled frame. *)
Definition individual_index_expr (m : list (cell * cell)) : f64 :=
  if weights
  then fdiv (fin (sumQ (fun wv => fill_null 0 (snd wv) * fill_null 0 (fst wv)) m))
            (fin (sumQ (fun wv => fill_null 0 (fst wv)) m))
  else fdiv (fin (sumQ (fun wv => fill_null 0 (snd wv)) m))
            (Fin (inject_Z (Z.of_nat (List.length m)))).

(** [individual_question_index_df] (lines 1366-1387) for one question. *)
Definition individual_index (weight_column : option string) (q : string)
           (rs : list clean_row) : option f64 :=
  let m := melted weight_column q rs in
  let Nan_Count := fill_null 0%Z (nan_count q rs) in
  if (Count_Individual m + Nan_Count <? MINIMUM_COUNT (cfg db))%Z
  then None
  else Some (individual_index_expr m).

(** [area_index_expr] (lines 1394-1409) over the rows of an area, nulls
    left as they are: [None] when [mean] finds no value. *)
Definition area_index (m : list (cell * cell)) : option f64 :=
  if weights
  then Some (fdiv (fin (sumQ (fun wv => match fst wv, snd wv with
                                        | Some w, Some v => v * w
                                        | _, _ => 0
                                        end) m))
                  (fin (sumQ (fun wv => fill_null 0 (fst wv)) m)))
  else match filter (fun wv => match snd wv with Some _ => true | None => false end) m with
       | [] => None
       | vs => Some (fdiv (fin (sumQ (fun wv => fill_null 0 (snd wv)) vs))
                          (Fin (inject_Z (Z.of_nat (List.length vs)))))
       end.

(** The rows of [final_category_df] (lines 1411-1423): one per question of
    [questions_present] and area that lists it. *)
Definition final_category_df (weight_column : option string)
           (rs : list clean_row) : list index_row :=
  flat_map
    (fun q =>
       map (fun qa =>
              {| area := snd qa;
                 question := q;
                 Individual_Index := individual_index weight_column q rs;
                 Area_Index :=
                   area_index
                     (flat_map (fun q' => melted weight_column q' rs)
                        (filter (fun q' =>
                                   existsb (fun qa' =>
                                              String.eqb (fst qa') q'
                                              && String.eqb (snd qa') (snd qa))
                                           area_map_list)
                                questions_present)) |})
           (filter (fun qa => String.eqb (fst qa) q) area_map_list))
    questions_present.

(** The body of the category loop (lines 1207-1425): [Ok None] when the
    category is skipped with a warning.  Without a question of the area map
    in the data, [index] returns before the loop (lines 1145-1151). *)
Definition category_index (category_column : string)
  : result (option (list index_row)) :=
  match questions_present with
  | [] => Ok None
  | _ =>
      if negb (has_column category_column (df db)) then Ok None
      else
        match filter (is_member category_column) (df_clean db) with
        | [] => Ok None
        | rs =>
            weight_column <-
              (if weights
               then match WEIGHT_COLUMN (cfg db) with
                    | Some wc => if has_column wc (df db) then Ok (Some wc)
                                 else Raise ColumnNotFoundError
                    | None => Raise UnboundLocalError
                    end
               else Ok None) ;;
            Ok (Some (final_category_df weight_column rs))
        end
  end.

(** The responses of a question in a category that are answers: neither
    null nor a missing code. *)
Definition non_missing_count (q : string) (category_column : string) : Z :=
  Z.of_nat (List.length
    (filter (fun r => match get q r with
                      | Some x => negb (mem x (nan_values_list (cfg db)))
                      | None => false
                      end)
            (filter (fun r => match get category_column r with
                              | Some f => Qeq_bool f 1
                              | None => false
                              end)
                    (rows (df db))))).

(** The responses of a question in a category that are missing codes. *)
Definition missing_count (q : string) (category_column : string) : Z :=
  Z.of_nat (List.length
    (filter (fun r => match get q r with
                      | Some x => mem x (nan_values_list (cfg db))
                      | None => false
                      end)
            (filter (fun r => match get category_column r with
                              | Some f => Qeq_bool f 1
                              | None => false
                              end)
                    (rows (df db))))).

(** The cell of the pivoted result for a question under a category. *)
Definition reported_index (category_column q : string) : result (option f64) :=
  rows_ <- category_index category_column ;;
  Ok (match rows_ with
      | Some l =>
          match find (fun r => String.eqb (question r) q) l with
          | Some r => Individual_Index r
          | None => None
          end
      | None => None
      end).

End Category.

End Index.

(** ** [eni]: the ENI classifier (lines 1731-1884) *)

Module ENI.
Import Frame.
Local Open Scope string_scope.

(** The warnings [eni] prints when it skips something. *)
Inductive diagnostic : Type :=
| NoQuestions
| CategoryColumnNotFound (category_column : string)
| CategoryEmpty (category_column : string).

(** [self.database.eni_df]: one column per class that occurs, one row per
    category. *)
Record eni_frame : Type := {
  classes : list string;
  table : list (string * list Q)
}.

(** [pl.mean_horizontal(questions_present)]: the mean of the cells that are
    not null, null when all are. *)
Definition mean_horizontal (questions : list string) (r : row) : cell :=
  match flat_map (fun q => match get q r with
                           | Some x => [x]
                           | None => []
                           end) questions with
  | [] => None
  | xs => Some (sumQ (fun x => x) xs / inject_Z (Z.of_nat (List.length xs)))
  end.

(** A [when] takes a null condition as not met. *)
Definition when (c : option bool) : bool := fill_null false c.

(** [ENI_Category] (lines 1846-1853); [is_between] includes both bounds. *)
Definition ENI_Category (Value : cell) : string :=
  if when (option_map (fun x => Qle_bool 3 x && Qle_bool x (419 # 100)) Value)
  then "2"
  else if when (option_map (fun x => Qle_bool (42 # 10) x) Value)
  then "3"
  else "1".

(** [category_count] of a class among the averages of a category. *)
Definition category_count (cls : string) (Values : list cell) : nat :=
  List.length (filter (fun v => String.eqb (ENI_Category v) cls) Values).

(** [eni_proportions_df] (lines 1854-1868) of one category: the classes
    that occur, sorted, each with [category_count / total_responses]. *)
Definition eni_proportions_df (Values : list cell) : list (string * Q) :=
  map (fun cls => (cls, inject_Z (Z.of_nat (category_count cls Values))
                        / inject_Z (Z.of_nat (List.length Values))))
      (filter (fun cls => negb (Nat.eqb (category_count cls Values) 0))
              ["1"; "2"; "3"]).

(** A cell of the pivot (lines 1875-1880): a class that does not occur in
    the category is filled with 0. *)
Definition pivot_cell (cls : string) (proportions : list (string * Q)) : Q :=
  match find (fun kv => String.eqb cls (fst kv)) proportions with
  | Some kv => snd kv
  | None => 0
  end.

Definition ENI_Proportion (cls : string) (Values : list cell) : Q :=
  pivot_cell cls (eni_proportions_df Values).

Definition pivot (final_result : list (string * list (string * Q))) : eni_frame :=
  let cols := distinct String.eqb (flat_map (fun cp => map fst (snd cp)) final_result) in
  {| classes := cols;
     table := map (fun cp => (fst cp, map (fun cls => pivot_cell cls (snd cp)) cols))
                  final_result |}.

(** *** [_eni_percentage] (lines 1886-1916) *)

(** [self.database.percentage_df], the frame an earlier [percentages] left:
    its columns, and in each row the cells of [question], [answer_value]
    and [metric_type] and the Float64 cells of the other columns.  The
    attribute is set outside [eni], so it is a parameter here. *)
Record percentage_row : Type := {
  question : option string;
  answer_value : option string;
  metric_type : option string;
  category_cells : list (string * option f64)
}.

Record percentage_frame : Type := {
  percentage_columns : list string;
  percentage_rows : list percentage_row
}.

(** A row of [eni_percentage_df]. *)
Record regrouped_row : Type := {
  regrouped_question : option string;
  grouped_answer_value : string;
  regrouped_metric_type : option string;
  category_sums : list (string * f64);
  label : string
}.

Definition is_in (s : string) (l : list string) : bool := existsb (String.eqb s) l.

(** No name occurs twice. *)
Fixpoint all_distinct (l : list string) : bool :=
  match l with
  | [] => true
  | x :: l' => negb (is_in x l') && all_distinct l'
  end.

(** [grouped_answer_expr] (lines 1889-1898) *)
Definition grouped_answer_expr (v : option string) : string :=
  if when (option_map (fun s => is_in s ["1.0"; "2.0"]) v) then "1-2"
  else if when (option_map (fun s => is_in s ["3.0"; "4.0"]) v) then "3-4"
  else if when (option_map (fun s => String.eqb s "5.0") v) then "5"
  else "Other".

(** The [label] column (lines 1905-1914). *)
Definition label_of (g : string) : string :=
  if String.eqb g "1-2" then "Motarbeidere"
  else if String.eqb g "3-4" then "Nøytrale"
  else if String.eqb g "5" then "Engasjerte"
  else "Ukjent".

(** The key of a group: question, grouped answer value, metric type. *)
Definition group_key : Type := (option string * string * option string)%type.

Definition option_string_eqb (a b : option string) : bool :=
  match a, b with
  | Some x, Some y => String.eqb x y
  | None, None => true
  | _, _ => false
  end.

Definition group_key_eqb (a b : group_key) : bool :=
  option_string_eqb (fst (fst a)) (fst (fst b))
  && String.eqb (snd (fst a)) (snd (fst b))
  && option_string_eqb (snd a) (snd b).

Definition key_of (r : percentage_row) : group_key :=
  (question r, grouped_answer_expr (answer_value r), metric_type r).

(** [sort("question", "grouped_answer_value")]: nulls first, strings in
    the order of their bytes. *)
Definition sort_le (a b : group_key) : bool :=
  match fst (fst a), fst (fst b) with
  | None, None => String.leb (snd (fst a)) (snd (fst b))
  | None, Some _ => true
  | Some _, None => false
  | Some x, Some y =>
      if String.eqb x y then String.leb (snd (fst a)) (snd (fst b))
      else String.leb x y
  end.

Fixpoint sort_insert (k : group_key) (l : list group_key) : list group_key :=
  match l with
  | [] => [k]
  | h :: t => if sort_le k h then k :: l else h :: sort_insert k t
  end.

Definition sort_keys (l : list group_key) : list group_key :=
  fold_right sort_insert [] l.

(** [pl.sum(col)] over the rows of a group: nulls are skipped. *)
Definition sum_column (col : string) (rs : list percentage_row) : f64 :=
  fsum (flat_map (fun r =>
                    match find (fun kv => String.eqb col (fst kv)) (category_cells r) with
                    | Some (_, Some v) => [v]
                    | _ => []
                    end) rs).

(** [_eni_percentage]: the rows of [percentage_df] regrouped by question,
    grouped answer value and metric type, every category column summed.
    A name that is no column of [percentage_df] raises, and so do two
    columns of one name in the result.  [group_order] is the order in
    which the [group_by] hands out its groups; the sort that follows
    leaves groups of one question and one grouped answer value in it. *)
Definition _eni_percentage (group_order : list group_key -> list group_key)
           (categories : list string) (df : percentage_frame)
  : result (list regrouped_row) :=
  if negb (forallb (fun c => is_in c (percentage_columns df))
                   (["question"; "answer_value"; "metric_type"] ++ categories))
  then Raise ColumnNotFoundError
  else if negb (all_distinct
                  (["question"; "grouped_answer_value"; "metric_type"] ++ categories))
  then Raise DuplicateError
  else
    Ok (map (fun k =>
               {| regrouped_question := fst (fst k);
                  grouped_answer_value := snd (fst k);
                  regrouped_metric_type := snd k;
                  category_sums :=
                    map (fun c => (c, sum_column c
                                        (filter (fun r => group_key_eqb k (key_of r))
                                                (percentage_rows df))))
                        categories;
                  label := label_of (snd (fst k)) |})
            (sort_keys (group_order
                          (distinct group_key_eqb
                                    (map key_of (percentage_rows df)))))).

Section Run.

Variable db : database.
Variable area : string.
Variable weights : bool.
(** [self.database.percentage_df] when [eni] is called, and the order of
    the groups of [_eni_percentage]. *)
Variable percentage_df : percentage_frame.
Variable group_order : list group_key -> list group_key.

(** [self.database.config.area_map.get(area)] *)
Definition area_questions : option (list string) :=
  option_map snd (find (fun kv => String.eqb area (fst kv)) (area_map (cfg db))).

(** Lines 1778-1780: iterating over the [None] of a missing key is a
    [TypeError]. *)
Definition questions_present : result (list string) :=
  match area_questions with
  | Some qs => Ok (filter (fun q => has_column q (df db)) qs)
  | None => Raise TypeError
  end.

(** The averages of the members of a category (lines 1802-1844). *)
Definition category_values (questions : list string) (category_column : string)
  : list cell :=
  map (fun r => mean_horizontal questions (cells r))
      (filter (is_member category_column) (df_clean db)).

(** [df_category_filtered.select(select_columns)] (lines 1838-1842).  The
    frame has lost the category column and has [Category] in its place: a
    name that is no column of it raises, and so does a name given twice. *)
Definition select_columns (questions : list string) (category_column : string)
  : result unit :=
  names <- (if weights
            then match WEIGHT_COLUMN (cfg db) with
                 | Some weight_column => Ok ("Category" :: weight_column :: questions)
                 | None => Raise UnboundLocalError
                 end
            else Ok ("Category" :: questions)) ;;
  if negb (forallb (fun c => negb (String.eqb c category_column)
                             && (String.eqb c "Category" || has_column c (df db)))
                   names)
  then Raise ColumnNotFoundError
  else if negb (all_distinct names) then Raise DuplicateError
  else Ok tt.

(** The category loop (lines 1795-1870): the warnings printed and the
    frames collected in [results_list]. *)
Fixpoint category_loop (questions : list string) (cats : list string)
  : result (list diagnostic * list (string * list (string * Q))) :=
  match cats with
  | [] => Ok ([], [])
  | category_column :: cats' =>
      if negb (has_column category_column (df db)) then
        rest <- category_loop questions cats' ;;
        Ok (CategoryColumnNotFound category_column :: fst rest, snd rest)
      else
        match filter (is_member category_column) (df_clean db) with
        | [] =>
            rest <- category_loop questions cats' ;;
            Ok (CategoryEmpty category_column :: fst rest, snd rest)
        | _ =>
            _ <- select_columns questions category_column ;;
            rest <- category_loop questions cats' ;;
            Ok (fst rest,
                (category_column,
                 eni_proportions_df (category_values questions category_column))
                  :: snd rest)
        end
  end.

(** [eni]: the value is what the method returns, an empty frame, the
    pivot it has stored in [self.database.eni_df], or nothing.  Once the
    pivot is stored, [_eni_percentage] is run and its result dropped. *)
Definition eni : result (list diagnostic * option eni_frame) :=
  questions <- questions_present ;;
  match questions with
  | [] => Ok ([NoQuestions], Some {| classes := []; table := [] |})
  | _ =>
      out <- category_loop questions (categories db) ;;
      match snd out with
      | [] => Ok (fst out, None)
      | results_list =>
          percentages <- _eni_percentage group_order (categories db) percentage_df ;;
          Ok (fst out, Some (pivot results_list))
      end
  end.

End Run.

(** The cell of [eni_df] in the row of a category and the column of a
    class, when the frame has both. *)
Definition eni_cell (frame : eni_frame) (category cls : string) : option Q :=
  match find (fun kv => String.eqb category (fst kv)) (table frame) with
  | Some kv =>
      option_map snd
        (find (fun cv => String.eqb cls (fst cv)) (combine (classes frame) (snd kv)))
  | None => None
  end.

(** The members of a category, those among them with an answer to a
    question of the area, and the number of those of a class. *)
Definition members (db : database) (category_column : string) : list clean_row :=
  filter (is_member category_column) (df_clean db).

Definition has_answer (questions : list string) (r : clean_row) : bool :=
  match mean_horizontal questions (cells r) with
  | Some _ => true
  | None => false
  end.

Definition class_count (questions : list string) (cls : string)
           (rs : list clean_row) : nat :=
  List.length
    (filter (fun r => String.eqb (ENI_Category (mean_horizontal questions (cells r))) cls)
            rs).

End ENI.

(** ** Sample inputs *)

Module Samples.

Definition cat_A : key := Some "A"%string.
Definition cat_B : key := Some "B"%string.

(** Groups handed out in order of first appearance
    ([maintain_order=True]). *)
Definition first_appearance {A : Type} (l : list A) : list A := l.

Definition respondent_out_1 : Percentages.respondent :=
  {| Percentages.flag := Some 0%Z; Percentages.answer := Some 1;
     Percentages.wt := Some 1 |}.
Definition respondent_in_2 : Percentages.respondent :=
  {| Percentages.flag := Some 1%Z; Percentages.answer := Some 2;
     Percentages.wt := Some 1 |}.
Definition respondent_answers_1 : Percentages.respondent :=
  {| Percentages.flag := Some 1%Z; Percentages.answer := Some 1;
     Percentages.wt := Some 2 |}.
Definition respondent_answers_99 : Percentages.respondent :=
  {| Percentages.flag := Some 1%Z; Percentages.answer := Some 99;
     Percentages.wt := Some 2 |}.

(** Two members of a category ranking two items out of 7, 8, 9 and 10:
    both place 7 first; nobody ranks 10. *)
Definition ranking_labels : list (Ranking.label_key * string) :=
  [(Ranking.number 7, "seven"); (Ranking.number 8, "eight");
   (Ranking.number 9, "nine"); (Ranking.number 10, "ten");
   (Ranking.number 99, "no answer")]%string.
Definition ranking_slots : list (option Z) := [Some 1%Z; Some 2%Z].
Definition ranking_df : list Ranking.respondent :=
  [ {| Ranking.flag := Some 1%Z; Ranking.wt := Some 2;
       Ranking.ranked := [Some 7; Some 8] |};
    {| Ranking.flag := Some 1%Z; Ranking.wt := Some (1 # 2);
       Ranking.ranked := [Some 7; Some 9] |} ].

(** What the weighted run reports for [ranking_df]: of the weight 2.5, item
    7 has all at rank 1, items 8 and 9 the weights 2 and 0.5 at rank 2. *)
Definition ranking_output : list Ranking.ranked_item :=
  [ {| Ranking.item := 7; Ranking.total_rank_count := 2;
       Ranking.rank_count := [2; 0]%Z; Ranking.rank_weighted := [2; 0]%Z;
       Ranking.rank_percentage := [2 / (5 # 2); 0 / (5 # 2)];
       Ranking.total_score := 1 / 1 * 2 + (1 / 1 * (1 # 2) + 0);
       Ranking.total_respondents := 5 # 2 |};
    {| Ranking.item := 8; Ranking.total_rank_count := 1;
       Ranking.rank_count := [0; 1]%Z; Ranking.rank_weighted := [0; 2]%Z;
       Ranking.rank_percentage := [0 / (5 # 2); 2 / (5 # 2)];
       Ranking.total_score := 1 / 2 * 2 + 0;
       Ranking.total_respondents := 5 # 2 |};
    {| Ranking.item := 9; Ranking.total_rank_count := 1;
       Ranking.rank_count := [0; 1]%Z; Ranking.rank_weighted := [0; 0]%Z;
       Ranking.rank_percentage := [0 / (5 # 2); 0 / (5 # 2)];
       Ranking.total_score := 1 / 2 * (1 # 2) + 0;
       Ranking.total_respondents := 5 # 2 |} ].

(** And what the unweighted run reports. *)
Definition ranking_output_unweighted : list Ranking.ranked_item :=
  [ {| Ranking.item := 7; Ranking.total_rank_count := 2;
       Ranking.rank_count := [2; 0]%Z; Ranking.rank_weighted := [];
       Ranking.rank_percentage := [2 / 2; 0 / 2];
       Ranking.total_score := 1 / 1 + (1 / 1 + 0);
       Ranking.total_respondents := 2 |};
    {| Ranking.item := 8; Ranking.total_rank_count := 1;
       Ranking.rank_count := [0; 1]%Z; Ranking.rank_weighted := [];
       Ranking.rank_percentage := [0 / 2; 1 / 2];
       Ranking.total_score := 1 / 2 + 0;
       Ranking.total_respondents := 2 |};
    {| Ranking.item := 9; Ranking.total_rank_count := 1;
       Ranking.rank_count := [0; 1]%Z; Ranking.rank_weighted := [];
       Ranking.rank_percentage := [0 / 2; 1 / 2];
       Ranking.total_score := 1 / 2 + 0;
       Ranking.total_respondents := 2 |} ].

(** Three members of category "cat" answering question "Q1" of area "Area"
    on a scale from 1 to 5, with 99 as the missing code. *)
Definition likert_labels : list (Q * string) :=
  [(1, "1"); (2, "2"); (3, "3"); (4, "4"); (5, "5"); (99, "no answer")]%string.

Definition survey_config (minimum_count : Z) : Frame.config :=
  {| Frame.WEIGHT_COLUMN := None;
     Frame.NAN_VALUES := [(99, None)];
     Frame.area_map := [("Area", ["Q1"])]%string;
     Frame.MINIMUM_COUNT := minimum_count |}.

Definition survey (minimum_count : Z) (answers : list Frame.cell) : Frame.database :=
  {| Frame.df :=
       {| Frame.columns := ["cat"; "Q1"]%string;
          Frame.rows := map (fun a => [("cat", Some 1); ("Q1", a)]%string) answers |};
     Frame.cfg := survey_config minimum_count;
     Frame.variable_value_labels := [("Q1"%string, likert_labels)];
     Frame.categories := ["cat"%string] |}.

Definition with_categories (cats : list string) (db : Frame.database)
  : Frame.database :=
  {| Frame.df := Frame.df db;
     Frame.cfg := Frame.cfg db;
     Frame.variable_value_labels := Frame.variable_value_labels db;
     Frame.categories := cats |}.

(** An area of 21 questions, and a respondent's row from 21 answers. *)
Definition wide_area : list string :=
  ["A"; "B"; "C"; "D"; "E"; "F"; "G"; "H"; "I"; "J"; "K"; "L"; "M"; "N"; "O";
   "P"; "Q"; "R"; "S"; "T"; "U"]%string.

Definition wide_row (answers : list Q) : Frame.row :=
  combine wide_area (map Some answers).

End Samples.

(** ** Further vocabulary and code *)

(** The weight column [weights_test] starts from (line 37): 1.0 for every
    respondent. *)
Definition initial_weights (survey_df : list IPF.survey_row) : list f64 :=
  map (fun _ => Fin 1) survey_df.

From Stdlib Require Import Sorted Ascii.

(** The sum of an integer column. *)
Definition zsum (l : list Z) : Z := fold_right Z.add 0%Z l.

(** The test [pl.col(category_column) == 1] of the sibling aggregators, on
    a raw row. *)
Definition raw_member (category_column : string) (r : Frame.row) : bool :=
  match Frame.get category_column r with
  | Some f => Qeq_bool f 1
  | None => false
  end.

(** A category column that is in the data and has at least one member. *)
Definition has_members (db : Frame.database) (category_column : string) : bool :=
  Frame.has_column category_column (Frame.df db)
  && match filter (Frame.is_member category_column) (Frame.df_clean db) with
     | [] => false
     | _ => true
     end.

(** The [select] of every category with members goes through: its names
    are columns, none of them the category column, and no name is given
    twice. *)
Definition selects_ok (db : Frame.database) (weights : bool)
           (questions : list string) : Prop :=
  forall category_column,
    In category_column (Frame.categories db) ->
    has_members db category_column = true ->
    ENI.select_columns db weights questions category_column = Ok tt.

(** A [percentage_df] with the key columns and the category column of the
    sample survey, and one row. *)
Definition sample_percentage_df : ENI.percentage_frame :=
  {| ENI.percentage_columns :=
       ["question"; "display_question_label"; "answer_label"; "answer_value";
        "metric_type"; "cat"]%string;
     ENI.percentage_rows :=
       [{| ENI.question := Some "Q1"%string;
           ENI.answer_value := Some "5.0"%string;
           ENI.metric_type := Some "percentage"%string;
           ENI.category_cells := [("cat"%string, Some (Fin (1 # 2)))] |}] |}.

(** The same with a column for "Q1", for a survey that takes "Q1" as a
    category too. *)
Definition sample_percentage_df_2 : ENI.percentage_frame :=
  {| ENI.percentage_columns :=
       ["question"; "display_question_label"; "answer_label"; "answer_value";
        "metric_type"; "Q1"; "cat"]%string;
     ENI.percentage_rows := ENI.percentage_rows sample_percentage_df |}.

(** ** [percentages]: from metric column names to the long form
       (lines 584-675) *)

Module MetricNames.
Local Open Scope string_scope.

(** [str.split("_")] *)
Fixpoint split (s : string) : list string :=
  match s with
  | EmptyString => [EmptyString]
  | String c s' =>
      if Ascii.eqb c "_"%char
      then EmptyString :: split s'
      else match split s' with
           | h :: t => String c h :: t
           | [] => [String c EmptyString]
           end
  end.

(** [list.join("_")] *)
Fixpoint join (l : list string) : string :=
  match l with
  | [] => EmptyString
  | [x] => x
  | x :: t => x ++ String "_"%char (join t)
  end.

(** [list.get(-1 - k)]: null when the list is too short. *)
Definition get_from_end (k : nat) (l : list string) : option string :=
  nth_error (rev l) k.

(** [str.ends_with] *)
Definition ends_with (suffix s : string) : bool :=
  String.eqb
    (String.substring (String.length s - String.length suffix)
                      (String.length suffix) s)
    suffix
  && Nat.leb (String.length suffix) (String.length s).

(** [is_in]: a null is in no list. *)
Definition is_in (x : option string) (l : list string) : bool :=
  match x with
  | Some s => existsb (String.eqb s) l
  | None => false
  end.

(** [==] against a literal: a null is equal to nothing. *)
Definition is_lit (x : option string) (lit : string) : bool :=
  match x with
  | Some s => String.eqb s lit
  | None => false
  end.

Definition metric_type_raw (aggregated_metric : string) : option string :=
  get_from_end 0 (split aggregated_metric).

Definition answer_value_raw (aggregated_metric : string) : option string :=
  get_from_end 1 (split aggregated_metric).

Definition original_column_raw (aggregated_metric : string) : string :=
  join (firstn (List.length (split aggregated_metric) - 2)
               (split aggregated_metric)).

(** The [when] chain of lines 599-627. *)
Definition metric_type (aggregated_metric : string) : option string :=
  let raw := metric_type_raw aggregated_metric in
  if is_in raw ["count"; "percentage"; "weighted"] then raw
  else if String.eqb aggregated_metric "total_denominator_denom"
  then Some "total_denominator"
  else if is_lit raw "count" && ends_with "_total_count" aggregated_metric
  then Some "total_count"
  else if is_lit raw "nan_count" then Some "nan_count"
  else if is_lit raw "nan_percentage" then Some "nan_percentage"
  else if is_lit raw "nan_weighted" then Some "nan_weighted"
  else None.

(** Lines 632-647. *)
Definition question (aggregated_metric : string) : option string :=
  if is_in (metric_type aggregated_metric)
           ["count"; "percentage"; "weighted"; "total_count"; "nan_count";
            "nan_percentage"; "nan_weighted"]
  then Some (original_column_raw aggregated_metric)
  else None.

(** Lines 648-671. *)
Definition answer_value (aggregated_metric : string) : option string :=
  if is_in (metric_type aggregated_metric) ["count"; "percentage"; "weighted"]
  then answer_value_raw aggregated_metric
  else None.

(** A string without an underscore: an answer value such as "1.0", "nan"
    or "total". *)
Fixpoint no_underscore (s : string) : bool :=
  match s with
  | EmptyString => true
  | String c s' => negb (Ascii.eqb c "_"%char) && no_underscore s'
  end.

End MetricNames.

(** ** [index]: the overall index, taken when there is no category
       (lines 1153-1193) *)

Module IndexOverall.
Import Frame.

Section Run.

Variable db : database.
Variable weights : bool.
(** [Expr.round(5)], the library's rounding of a float to five decimals. *)
Variable round5 : f64 -> f64.

(** [df_long] after [drop_nulls(subset=["Value"])]: question by question,
    the weight and the value of every row whose value is not null.  The
    weight column is taken not to be one of the questions: [select] refuses
    a column named twice. *)
Definition df_long (weight_column : option string) : list (cell * Q) :=
  flat_map
    (fun q =>
       flat_map (fun r => match get q (cells r) with
                          | Some v => [(match weight_column with
                                        | Some wc => get wc (cells r)
                                        | None => None
                                        end, v)]
                          | None => []
                          end)
                (df_clean db))
    (Index.questions_present db).

(** [overall_index_expr] (lines 1174-1179): in the weighted form a null
    weight counts as 0 above the line and as 1 below it. *)
Definition overall_index_expr (l : list (cell * Q)) : f64 :=
  if weights
  then fdiv (fin (sumQ (fun wv => snd wv * fill_null 0 (fst wv)) l))
            (fin (sumQ (fun wv => fill_null 1 (fst wv)) l))
  else fdiv (fin (sumQ (fun wv => snd wv) l))
            (Fin (inject_Z (Z.of_nat (List.length l)))).

(** The [Index] of the "Overall" row; [None] stands for the empty frame
    the method returns when it has nothing to average. *)
Definition overall_index : result (option f64) :=
  match Index.questions_present db with
  | [] => Ok None
  | _ =>
      weight_column <-
        (if weights
         then match WEIGHT_COLUMN (cfg db) with
              | Some wc => if has_column wc (df db) then Ok (Some wc)
                           else Raise ColumnNotFoundError
              | None => Raise UnboundLocalError
              end
         else Ok None) ;;
      match df_long weight_column with
      | [] => Ok None
      | l => Ok (Some (round5 (overall_index_expr l)))
      end
  end.

End Run.

End IndexOverall.

(** ** [_correlate]: the correlation aggregator, up to the lists of rows it
       collects (lines 1493-1729) *)

Module Correlate.
Import Frame.
Local Open Scope string_scope.

Record corr_row : Type := {
  Category : string;
  Area : string;
  Question : string;
  Correlation : f64
}.

(** [corr_val >= 0] on a Python float. *)
Definition ge_zero (c : f64) : bool :=
  match c with
  | Fin x => Qle_bool 0 x
  | PInf => true
  | _ => false
  end.

(** Lines 1685-1686: [if not corr_val >= 0: corr_val = 0.0]. *)
Definition clamp (c : f64) : f64 := if ge_zero c then c else Fin 0.

(** No name occurs twice. *)
Fixpoint all_distinct (l : list string) : bool :=
  match l with
  | [] => true
  | x :: l' => negb (existsb (String.eqb x) l') && all_distinct l'
  end.

Section Run.

Variable db : database.
(** [pl.corr(question, avg)] on the rows of a frame, as the library
    computes it: [None] when it gives no float (a null, or an exception,
    which the loop catches). *)
Variable pearson : list (cell * cell) -> option f64.
(** [DataFrame.corr(method="pearson")], read at the two columns, likewise. *)
Variable frame_corr : list (cell * cell) -> option f64.
(** The argument [df], its columns and its rows, and the arguments
    [correlate_area] and [questions].  The questions are taken to be
    distinct and none of them to be named "Category". *)
Variable df_columns : list string.
Variable df_arg : list clean_row.
Variable correlate_area : string.
Variable questions : list string.

Definition in_columns (c : string) : bool := existsb (String.eqb c) df_columns.

Definition in_questions (q : string) : bool := existsb (String.eqb q) questions.

(** [self.database.config.area_map[correlate_area]], when the area is a
    key. *)
Definition correlate_area_questions : option (list string) :=
  option_map snd
    (find (fun kv => String.eqb correlate_area (fst kv)) (area_map (cfg db))).

(** The pairs (area average, answer) the correlation of a question is
    taken over in a category. *)
Definition pairs (area_questions : list string) (question : string)
           (rs : list clean_row) : list (cell * cell) :=
  map (fun r => (ENI.mean_horizontal area_questions (cells r),
                 get question (cells r))) rs.

(** The body of the category loop (lines 1621-1717): the rows appended to
    [correlation_results_list] for one category.  [filtered_df] has lost
    the category column, so [select(questions)] raises when a question is
    that column or no column at all; the average of the area, and the
    correlation of each question, are taken under a [try] whose handler
    goes on to the next. *)
Definition category_correlations (area_questions : list string)
           (category_col : string) : result (list corr_row) :=
  match filter (is_member category_col) df_arg with
  | [] => Ok []
  | filtered_df =>
      if forallb (fun q => in_columns q && negb (String.eqb q category_col))
                 questions
      then
        match questions with
        | [] => Ok []
        | _ =>
            if forallb in_questions area_questions && all_distinct area_questions
            then
              Ok (flat_map
                    (fun question =>
                       if String.eqb question correlate_area then []
                       else if Nat.ltb 1 (List.length filtered_df)
                       then match pearson (pairs area_questions question filtered_df) with
                            | Some corr_val =>
                                [{| Category := category_col;
                                    Area := correlate_area;
                                    Question := question;
                                    Correlation := clamp corr_val |}]
                            | None => []
                            end
                       else [])
                    questions)
            else Ok []
        end
      else Raise ColumnNotFoundError
  end.

Fixpoint category_loop (area_questions : list string) (cats : list string)
  : result (list corr_row) :=
  match cats with
  | [] => Ok []
  | c :: cats' =>
      rows_ <- category_correlations area_questions c ;;
      rest <- category_loop area_questions cats' ;;
      Ok (rows_ ++ rest)%list
  end.

(** A cell of [df_overall]: the column [<area>_avg] holds the average of
    the area, the others are those of [df]. *)
Definition overall_cell (area_questions : list string) (col : string)
           (r : clean_row) : cell :=
  if String.eqb col (correlate_area ++ "_avg")
  then ENI.mean_horizontal area_questions (cells r)
  else get col (cells r).

(** The overall path (lines 1536-1605): [overall_corr_list].  The average
    is stored as [<area>_avg]; [avg_col_name] is [<area>], which
    [df_overall] has as a column only when it is one of the questions.
    The area's questions are taken to be distinct. *)
Definition overall_corr_list (area_questions : list string)
  : result (list corr_row) :=
  if Nat.ltb (List.length questions) 2 then Ok []
  else if forallb in_columns questions
  then
    if forallb in_questions area_questions
    then
      Ok (flat_map
            (fun question =>
               if in_questions correlate_area
               then if String.eqb question correlate_area then []
                    else if Nat.ltb 1 (List.length df_arg)
                    then match frame_corr
                                 (map (fun r =>
                                         (overall_cell area_questions correlate_area r,
                                          overall_cell area_questions question r))
                                      df_arg) with
                         | Some corr_val =>
                             [{| Category := "Overall";
                                 Area := correlate_area;
                                 Question := question;
                                 Correlation := corr_val |}]
                         | None => []
                         end
                    else []
               else [])
            questions)
    else Raise ColumnNotFoundError
  else Raise ColumnNotFoundError.

(** [category_cols_present] *)
Definition category_cols_present : list string :=
  filter in_columns (categories db).

(** The rows [_correlate] collects before it builds its result frame. *)
Definition correlate : result (list corr_row) :=
  match correlate_area_questions with
  | None => Ok []
  | Some [] => Ok []
  | Some area_questions =>
      match category_cols_present with
      | [] => overall_corr_list area_questions
      | cats => category_loop area_questions cats
      end
  end.

End Run.

End Correlate.

(** ** [open_text]: the open text responses (lines 1918-1987) *)

Module OpenText.
Local Open Scope string_scope.

(** A row of [question_df]; [question] holds the columns of the question,
    [None] for a null. *)
Record question_row : Type := {
  base_question : string;
  question : option (list string);
  question_type : string
}.

(** A row of the data, its cells cast to text. *)
Definition text_row : Type := list (string * option string).

Definition get_text (c : string) (r : text_row) : option string :=
  match find (fun kv => String.eqb c (fst kv)) r with
  | Some kv => snd kv
  | None => None
  end.

(** [not question_columns] fails for a list with an element. *)
Definition has_question_columns (row : question_row) : bool :=
  match question row with
  | Some (_ :: _) => true
  | _ => false
  end.

Section Run.

(** [str.strip_chars()], the library's trimming of white space. *)
Variable strip_chars : string -> string.
Variable columns : list string.
Variable main_df : list text_row.

(** [responses_series] (lines 1947-1956): the cells of the column named
    [base_question] that are not null and not blank. *)
Definition responses_series (base : string) : list string :=
  flat_map (fun r => match get_text base r with
                     | Some s => if String.eqb (strip_chars s) "" then [] else [s]
                     | None => []
                     end)
           main_df.

(** The loop over the open text questions (lines 1931-1970): the rows
    [base_question], [response] collected.  [select] raises when
    [base_question] is no column of the data. *)
Fixpoint open_text_rows (question_df : list question_row)
  : result (list (string * string)) :=
  match question_df with
  | [] => Ok []
  | row :: rest =>
      if String.eqb (question_type row) "open_text" && has_question_columns row
      then
        if existsb (String.eqb (base_question row)) columns
        then
          more <- open_text_rows rest ;;
          Ok (map (fun s => (base_question row, s))
                  (responses_series (base_question row)) ++ more)%list
        else Raise ColumnNotFoundError
      else open_text_rows rest
  end.

End Run.

End OpenText.

(** ** Sample data of the correlation and open text aggregators *)

Module MoreSamples.
Import Frame.
Local Open Scope string_scope.

(** Three respondents, two of them members of category "A", and an area
    of two questions. *)
Definition corr_columns : list string := ["A"; "Q1"; "Q2"].

Definition corr_db : database :=
  {| df := {| columns := corr_columns;
              rows := [[("A", Some 1); ("Q1", Some 4); ("Q2", Some 2)];
                       [("A", Some 1); ("Q1", Some 2); ("Q2", Some 5)];
                       [("A", Some 0); ("Q1", Some 3); ("Q2", Some 3)]] |};
     cfg := {| WEIGHT_COLUMN := None; NAN_VALUES := [];
               area_map := [("Area", ["Q1"; "Q2"])]; MINIMUM_COUNT := 1 |};
     variable_value_labels := [];
     categories := ["A"] |}.


(** A correlation that comes out negative whatever the data. *)
Definition negative_corr (_ : list (cell * cell)) : option f64 :=
  Some (Fin (- (1 # 2))).

Definition corr_row_Q1 : Correlate.corr_row :=
  {| Correlate.Category := "A"; Correlate.Area := "Area";
     Correlate.Question := "Q1"; Correlate.Correlation := Fin 0 |}.

Definition corr_row_Q2 : Correlate.corr_row :=
  {| Correlate.Category := "A"; Correlate.Area := "Area";
     Correlate.Question := "Q2"; Correlate.Correlation := Fin 0 |}.

(** An open text question and three answers, one blank and one null. *)
Definition text_questions : list OpenText.question_row :=
  [{| OpenText.base_question := "comment";
      OpenText.question := Some ["comment"];
      OpenText.question_type := "open_text" |};
   {| OpenText.base_question := "Q1";
      OpenText.question := Some ["Q1"];
      OpenText.question_type := "single_choice" |}].

Definition text_df : list OpenText.text_row :=
  [[("comment", Some "good"); ("Q1", Some "4")];
   [("comment", Some " "); ("Q1", Some "2")];
   [("comment", None); ("Q1", Some "3")]].

(** Trimming, on the answers of [text_df]. *)
Definition strip_blank (s : string) : string :=
  if String.eqb s " " then "" else s.

End MoreSamples.

(** * Facts about loops that may raise *)

Section ResultFacts.
Context {A B : Type}.

Lemma traverse_cons_inv (f : A -> result B) (x : A) (l : list A) (ys : list B) :
  traverse f (x :: l) = Ok ys ->
  exists y ys', ys = y :: ys' /\ f x = Ok y /\ traverse f l = Ok ys'.
Proof.
  cbn [traverse]. destruct (f x) as [y|e]; cbn [bind]; [|discriminate].
  destruct (traverse f l) as [ys'|e]; cbn [bind]; [|discriminate].
  intros [= <-]. exists y, ys'. repeat split.
Qed.

Lemma traverse_In (f : A -> result B) (l : list A) (ys : list B) (y : B) :
  traverse f l = Ok ys -> In y ys -> exists x, In x l /\ f x = Ok y.
Proof.
  revert ys. induction l as [|x l IH]; intros ys.
  - intros [= <-] [].
  - intros H Hin. apply traverse_cons_inv in H.
    destruct H as [y0 [ys' [-> [Hx Hl]]]]. destruct Hin as [<-|Hin].
    + exists x. split; [left; reflexivity | exact Hx].
    + destruct (IH ys' Hl Hin) as [x' [Hx' Hf]]. exists x'.
      split; [right; exact Hx' | exact Hf].
Qed.

(** A loop that returns has run its body on every element, in order. *)
Lemma traverse_map (f : A -> result B) (g : A -> B) (l : list A) (ys : list B) :
  (forall x y, In x l -> f x = Ok y -> y = g x) ->
  traverse f l = Ok ys -> ys = map g l.
Proof.
  revert ys. induction l as [|x l IH]; intros ys Hg.
  - intros [= <-]. reflexivity.
  - intros H. apply traverse_cons_inv in H.
    destruct H as [y0 [ys' [-> [Hx Hl]]]]. cbn [map]. f_equal.
    + apply Hg; [left; reflexivity | exact Hx].
    + apply IH; [|exact Hl]. intros x' y' Hin. apply Hg. right. exact Hin.
Qed.

Lemma traverse_map_fst {C : Type} (f : A -> result B) (h : B -> C) (k : A -> C)
      (l : list A) (ys : list B) :
  (forall x y, In x l -> f x = Ok y -> h y = k x) ->
  traverse f l = Ok ys -> map h ys = map k l.
Proof.
  revert ys. induction l as [|x l IH]; intros ys Hg.
  - intros [= <-]. reflexivity.
  - intros H. apply traverse_cons_inv in H.
    destruct H as [y0 [ys' [-> [Hx Hl]]]]. cbn [map]. f_equal.
    + apply Hg; [left; reflexivity | exact Hx].
    + apply IH; [|exact Hl]. intros x' y' Hin. apply Hg. right. exact Hin.
Qed.

Lemma traverse_nth_error (f : A -> result B) (l : list A) (ys : list B)
      (n : nat) (x : A) :
  traverse f l = Ok ys -> nth_error l n = Some x ->
  exists y, nth_error ys n = Some y /\ f x = Ok y.
Proof.
  revert ys n. induction l as [|a l IH]; intros ys n H Hn.
  - destruct n; discriminate.
  - apply traverse_cons_inv in H. destruct H as [y0 [ys' [-> [Ha Hl]]]].
    destruct n as [|n]; cbn [nth_error] in *.
    + injection Hn as <-. exists y0. split; [reflexivity | exact Ha].
    + apply (IH ys' n Hl Hn).
Qed.

End ResultFacts.

(** * The IPF solver *)

Section IPFFacts.
Import IPF.

Lemma key_eqb_refl (k : key) : key_eqb k k = true.
Proof. destruct k as [s|]; cbn [key_eqb]; [apply String.eqb_refl | reflexivity]. Qed.

Lemma key_eqb_eq (a b : key) : key_eqb a b = true -> a = b.
Proof.
  destruct a as [x|], b as [y|]; cbn [key_eqb]; try discriminate; [|reflexivity].
  intros H. apply String.eqb_eq in H. congruence.
Qed.

Lemma In_distinct {A : Type} (eqb : A -> A -> bool) (l : list A) (x : A) :
  In x (distinct eqb l) -> In x l.
Proof.
  induction l as [|a l IH]; cbn [distinct]; [tauto|].
  intros [->|H]; [left; reflexivity|].
  right. apply IH. apply filter_In in H. tauto.
Qed.


(** The rounding that changes nothing is a rounding. *)
Lemma exact_rounding : rounding exact.
Proof.
  split.
  - intros p q H. unfold exact, fle. apply Qle_bool_iff. exact H.
  - intros z _. reflexivity.
  - intros q Hlo _. exists q. split; [reflexivity|].
    assert (Hq : 0 <= q).
    { eapply Qle_trans; [|exact Hlo]. discriminate. }
    split; lra.
Qed.


Lemma nonneg_not_nan (a : f64) : nonneg a -> is_nan a = false.
Proof. destruct a; cbn [nonneg is_nan]; tauto. Qed.


Section Rounding.

Variable round : Q -> f64.
Hypothesis round_ok : rounding round.

Lemma round_zero : round 0 = Fin 0.
Proof. apply (round_integer round round_ok 0%Z). discriminate. Qed.


(** The sign of a result is kept. *)
Lemma round_nonneg (q : Q) : 0 <= q -> nonneg (round q).
Proof.
  intros H. pose proof (round_monotone round round_ok 0 q H) as Hm.
  rewrite round_zero in Hm. destruct (round q) as [y| | |]; cbn [fle nonneg] in *;
    try discriminate; try exact I.
  apply Qle_bool_iff. exact Hm.
Qed.

Lemma rounded_fin_nonneg (q : Q) : 0 <= q -> nonneg (rounded round (fin q)).
Proof.
  intros H. unfold fin, rounded. apply round_nonneg. rewrite Qred_correct. exact H.
Qed.


Lemma add_nonneg (a b : f64) : nonneg a -> nonneg b -> nonneg (add round a b).
Proof.
  unfold add.
  destruct a as [x| | |], b as [y| | |]; cbn [nonneg fadd rounded]; try tauto.
  intros Hx Hy. apply rounded_fin_nonneg. lra.
Qed.


Lemma sum_nonneg (l : list f64) : Forall nonneg l -> nonneg (sum round l).
Proof.
  induction l as [|a l IH]; intros H; cbn [sum fold_right].
  - cbn [nonneg]. discriminate.
  - inversion H; subst. apply add_nonneg; [assumption|]. apply IH. assumption.
Qed.





Lemma group_sum_nonneg (ks : list key) (vs : list f64) :
  Forall nonneg vs ->
  Forall (fun kv => nonneg (snd kv)) (group_sum round ks vs).
Proof.
  intros Hv. unfold group_sum. apply Forall_map. apply Forall_forall.
  intros k _. cbn [snd]. apply sum_nonneg.
  apply Forall_map. apply Forall_forall. intros [k' v'] Hin.
  apply filter_In in Hin. destruct Hin as [Hin _]. cbn [snd].
  apply in_combine_r in Hin. rewrite Forall_forall in Hv. apply Hv. exact Hin.
Qed.

Lemma group_sum_length (ks : list key) (vs : list f64) :
  List.length (group_sum round ks vs) = List.length (distinct key_eqb ks).
Proof. unfold group_sum. apply length_map. Qed.


Lemma drop_nans_id (l : list (key * f64)) :
  Forall (fun kv => nonneg (snd kv)) l -> drop_nans l = l.
Proof.
  induction l as [|a l IH]; intros H; [reflexivity|].
  inversion H as [|? ? Ha Hl]; subst. cbn [drop_nans filter].
  rewrite (nonneg_not_nan _ Ha). cbn [negb]. f_equal. apply IH. exact Hl.
Qed.

Section Invariant.

Variable group_order : list (key * f64) -> list (key * f64).
Hypothesis group_order_perm : forall l, Permutation (group_order l) l.
Variable target_df : list target_row.
Hypothesis target_nonneg : forall r, In r target_df -> 0 <= snd r.
Variable survey_df : list survey_row.





End Invariant.

End Rounding.

Section Shape.

Variable round : Q -> f64.
Variable group_order : list (key * f64) -> list (key * f64).
Variable target_df : list target_row.
Variable survey_df : list survey_row.

Lemma sweep_length (d : nat * nat) (w w' : list f64) :
  List.length w = List.length survey_df ->
  sweep round group_order target_df survey_df d w = Ok w' ->
  List.length w' = List.length survey_df.
Proof.
  intros Hl. unfold sweep.
  destruct (adj_df _ _ _) as [adj|e]; cbn [bind]; [|discriminate].
  intros [= <-]. rewrite length_map, length_combine. unfold column.
  rewrite length_map, Hl. apply Nat.min_id.
Qed.

Lemma sweeps_length (ds : list (nat * nat)) (w w' : list f64) :
  List.length w = List.length survey_df ->
  sweeps round group_order target_df survey_df ds w = Ok w' ->
  List.length w' = List.length survey_df.
Proof.
  revert w. induction ds as [|d ds IH]; intros w Hl; cbn [sweeps].
  - intros [= <-]. exact Hl.
  - destruct (sweep round group_order target_df survey_df d w) as [w1|e] eqn:E;
      cbn [bind]; [|discriminate].
    apply IH. apply (sweep_length d w w1 Hl E).
Qed.

Lemma ipf_loop_shape (dims : list (nat * nat)) (n it : nat) (w : list f64)
      (o : outcome) :
  List.length w = List.length survey_df ->
  ipf_loop round group_order target_df survey_df dims n it w = Ok o ->
  List.length (weight o) = List.length survey_df /\
  (it + (if converged o then 1 else 0) <= iterations o <= it + n)%nat /\
  (converged o = false -> iterations o = (it + n)%nat).
Proof.
  revert it w. induction n as [|n IH]; intros it w Hl; cbn [ipf_loop].
  - intros [= <-]. cbn [weight converged iterations].
    split; [exact Hl|]. split; [lia|]. intros _. lia.
  - destruct (sweeps round group_order target_df survey_df dims w) as [w1|e] eqn:E;
      cbn [bind]; [|discriminate].
    pose proof (sweeps_length dims w w1 Hl E) as Hl1.
    destruct (weight_diff round w1 w) as [d|e]; cbn [bind]; [|discriminate].
    destruct (flt d (tolerance round)).
    + intros [= <-]. cbn [weight converged iterations].
      split; [exact Hl1|]. split; [lia|]. discriminate.
    + intros Ho. destruct (IH (S it) w1 Hl1 Ho) as [H1 [H2 H3]].
      split; [exact H1|]. split; [destruct (converged o); lia|].
      intros Hc. rewrite (H3 Hc). lia.
Qed.

End Shape.

End IPFFacts.

(** ** Claims about the solver *)

Section IPFClaims.
Import IPF Samples.




(** C5: the code pairs targets and totals by row position.  With the survey
    listing category B first and the target table category A first, the
    B respondent is scaled by A's target and the A respondent by B's; the
    solver then reports convergence on weights whose totals are swapped.
    Every number of this run is a small integer, which Float64 holds
    exactly. *)
Theorem sweep_pairs_by_position :
  let target_df := [([cat_A], 10); ([cat_B], 30)] in
  let survey_df := [[cat_B]; [cat_A]] in
  let targets := group_sum exact (column 0 (map fst target_df))
                           (map (fun r => Fin (snd r)) target_df) in
  let totals := group_sum exact (column 0 survey_df) [Fin 1; Fin 1] in
  sweep exact first_appearance target_df survey_df (0, 0)%nat [Fin 1; Fin 1]
    = Ok [Fin 10; Fin 30] /\
  map (keyed_factor exact targets totals) (column 0 survey_df) = [Fin 30; Fin 10] /\
  weights_test exact first_appearance target_df survey_df [(0, 0)%nat]
    = Ok {| weight := [Fin 10; Fin 30]; converged := true; iterations := 2 |}.
Proof. vm_compute. repeat split. Qed.

End IPFClaims.

(** * The percentage aggregator *)

Section PercentageFacts.
Import Percentages.

Lemma fin_eq (a b : Q) : a == b -> fin a = fin b.
Proof. intros H. unfold fin. f_equal. apply Qred_complete. exact H. Qed.

Lemma fin_one (a : Q) : a == 1 -> fin a = Fin 1.
Proof. intros H. rewrite (fin_eq a 1 H). reflexivity. Qed.

Lemma fsum_fin (f : Q -> Q) (l : list Q) :
  l <> [] -> fsum (map (fun v => fin (f v)) l) = fin (qsum f l).
Proof.
  induction l as [|x l IH]; [congruence|]. intros _.
  destruct l as [|y l'].
  - cbn [map fsum fold_right qsum]. unfold fin at 1. cbn [fadd].
    apply fin_eq. rewrite Qred_correct. reflexivity.
  - change (fsum (map (fun v => fin (f v)) (x :: y :: l')))
      with (fadd (fin (f x)) (fsum (map (fun v => fin (f v)) (y :: l')))).
    rewrite IH by discriminate. unfold fin at 1 2. cbn [fadd].
    apply fin_eq. rewrite !Qred_correct. reflexivity.
Qed.

Lemma count_where_mass (p : respondent -> bool) (g : list respondent) :
  count_where p g == mass (fun _ => 1) p g.
Proof.
  unfold count_where. induction g as [|r g IH]; cbn [filter mass]; [reflexivity|].
  destruct (p r).
  - cbn [List.length]. rewrite Nat2Z.inj_succ, <- Z.add_1_l, inject_Z_plus.
    rewrite IH. reflexivity.
  - rewrite IH. ring.
Qed.

Lemma weight_where_mass (p : respondent -> bool) (g : list respondent) :
  weight_where p g == mass (fun r => fill_null 0 (wt r)) p g.
Proof.
  unfold weight_where. induction g as [|r g IH]; cbn [filter mass]; [reflexivity|].
  destruct (p r); [change (sumQ ?f (?x :: ?l)) with (f x + sumQ f l)|]; rewrite IH; ring.
Qed.

Lemma mass_ext (mu : respondent -> Q) (p q : respondent -> bool)
      (g : list respondent) :
  (forall r, In r g -> p r = q r) -> mass mu p g == mass mu q g.
Proof.
  induction g as [|r g IH]; intros H; cbn [mass]; [reflexivity|].
  rewrite (H r (or_introl eq_refl)), IH; [reflexivity|].
  intros r' Hr'. apply H. right. exact Hr'.
Qed.

Lemma Qeq_bool_sym (a b : Q) : Qeq_bool a b = Qeq_bool b a.
Proof.
  destruct (Qeq_bool a b) eqn:E1, (Qeq_bool b a) eqn:E2; try reflexivity.
  - apply Qeq_bool_eq in E1. symmetry in E1. apply Qeq_eq_bool in E1. congruence.
  - apply Qeq_bool_eq in E2. symmetry in E2. apply Qeq_eq_bool in E2. congruence.
Qed.

Lemma mem_Qeq (a b : Q) (l : list Q) : a == b -> mem a l = mem b l.
Proof.
  intros H. unfold mem. induction l as [|x l IH]; cbn [existsb]; [reflexivity|].
  rewrite IH. f_equal.
  destruct (Qeq_bool a x) eqn:E1, (Qeq_bool b x) eqn:E2; try reflexivity.
  - apply Qeq_bool_eq in E1. rewrite H in E1. apply Qeq_eq_bool in E1. congruence.
  - apply Qeq_bool_eq in E2. rewrite <- H in E2. apply Qeq_eq_bool in E2. congruence.
Qed.

(** Each row counts under at most one of the distinct values. *)
Lemma mass_partition (mu : respondent -> Q) (l : list Q) (g : list respondent) :
  distinct_values l ->
  qsum (fun v => mass mu (answer_is v) g) l == mass mu (answer_in l) g.
Proof.
  intros Hd. induction g as [|r g IH].
  - cbn [mass]. induction l as [|v l IHl]; cbn [qsum]; [reflexivity|].
    destruct Hd as [_ Hd]. rewrite (IHl Hd). ring.
  - cbn [mass]. rewrite <- IH.
    assert (Hsplit : forall f h : Q -> Q,
               qsum (fun v => f v + h v) l == qsum f l + qsum h l).
    { intros f h. clear. induction l as [|v l IHl]; cbn [qsum]; [ring|].
      rewrite IHl. ring. }
    rewrite Hsplit. apply Qplus_inj_r. clear IH Hsplit.
    unfold answer_is, answer_in. destruct (answer r) as [a|].
    + induction l as [|v l IHl]; cbn [qsum mem existsb]; [reflexivity|].
      destruct Hd as [Hv Hd]. specialize (IHl Hd). fold (mem a l).
      destruct (Qeq_bool a v) eqn:E; cbn [orb].
      * assert (Hal : mem a l = false).
        { rewrite (mem_Qeq a v l); [exact Hv|]. apply Qeq_bool_eq. exact E. }
        rewrite Hal in IHl. rewrite IHl. ring.
      * rewrite IHl. ring.
    + induction l as [|v l IHl]; cbn [qsum]; [reflexivity|].
      destruct Hd as [_ Hd]. rewrite (IHl Hd). ring.
Qed.

Lemma qsum_scale (f : Q -> Q) (c : Q) (l : list Q) :
  qsum (fun v => f v * c) l == qsum f l * c.
Proof. induction l as [|v l IH]; cbn [qsum]; [ring|]. rewrite IH. ring. Qed.

Lemma qsum_ext (f h : Q -> Q) (l : list Q) :
  (forall v, f v == h v) -> qsum f l == qsum h l.
Proof.
  intros H. induction l as [|v l IH]; cbn [qsum]; [reflexivity|].
  rewrite IH, H. reflexivity.
Qed.

Section Sum.

Variable nan_values_list : list Q.
Variable use_weights : bool.

Lemma denominator_mass (g : list respondent) :
  exists d, denominator nan_values_list use_weights g = Fin d /\
            d == mass (measure use_weights) (not_missing nan_values_list) g.
Proof.
  unfold denominator, Percentages.measure, total_weighted_count, total_count, fin.
  destruct use_weights; eexists; (split; [reflexivity|]).
  - rewrite Qred_correct. apply weight_where_mass.
  - apply count_where_mass.
Qed.

Lemma value_percentage_mass (v : Q) (g : list respondent) (d : Q) :
  denominator nan_values_list use_weights g = Fin d -> ~ d == 0 ->
  value_percentage nan_values_list use_weights v g
  = fin (mass (measure use_weights) (answer_is v) g / d).
Proof.
  unfold denominator, value_percentage, Percentages.measure, value_weighted, value_count.
  intros Hd Hnz.
  assert (Hb : Qeq_bool d 0 = false).
  { destruct (Qeq_bool d 0) eqn:E; [|reflexivity].
    apply Qeq_bool_eq in E. contradiction. }
  destruct use_weights; rewrite Hd.
  - unfold fin at 1. cbn [fdiv]. rewrite Hb. apply fin_eq.
    rewrite Qred_correct, weight_where_mass. reflexivity.
  - cbn [fdiv]. rewrite Hb. unfold fill_nan, fin at 1. cbn [is_nan].
    apply fin_eq. rewrite count_where_mass. reflexivity.
Qed.

Lemma denominator_nonzero (g : list respondent) :
  denominator nan_values_list use_weights g <> Fin 0 ->
  exists d, denominator nan_values_list use_weights g = Fin d /\ ~ d == 0 /\
            d == mass (measure use_weights) (not_missing nan_values_list) g.
Proof.
  intros Hnz. destruct (denominator_mass g) as [d [Hd Hm]].
  exists d. split; [exact Hd|]. split; [|exact Hm].
  intros Hz. apply Hnz. rewrite Hd. clear Hnz Hm. revert Hd.
  unfold denominator, total_weighted_count, total_count, fin.
  destruct use_weights; intros [= <-].
  - f_equal. change 0 with (Qred 0). apply Qred_complete.
    rewrite <- Hz, Qred_correct. reflexivity.
  - f_equal. unfold count_where, Qeq, inject_Z in *. cbn [Qnum Qden] in Hz.
    rewrite Z.mul_1_r in Hz. cbn in Hz. rewrite Hz. reflexivity.
Qed.

Lemma mem_true (a : Q) (l : list Q) :
  mem a l = true -> exists v, In v l /\ a == v.
Proof.
  unfold mem. intros H. apply existsb_exists in H. destruct H as [v [Hin Hv]].
  exists v. split; [exact Hin|]. apply Qeq_bool_eq. exact Hv.
Qed.

End Sum.

Lemma mem_filter (p : Q -> bool) (v : Q) (l : list Q) :
  mem v (filter p l) = true -> mem v l = true.
Proof.
  unfold mem. rewrite !existsb_exists. intros [x [Hin Hx]].
  apply filter_In in Hin. exists x. tauto.
Qed.

Lemma distinct_values_filter (p : Q -> bool) (l : list Q) :
  distinct_values l -> distinct_values (filter p l).
Proof.
  induction l as [|v l IH]; cbn [distinct_values filter]; [tauto|].
  intros [Hv Hl]. destruct (p v); cbn [distinct_values]; [|auto].
  split; [|auto]. destruct (mem v (filter p l)) eqn:E; [|reflexivity].
  apply mem_filter in E. congruence.
Qed.

(** The possible values of a group that is not skipped: at least one, no
    missing code among them, and pairwise different when the keys of the
    value labels are. *)
Lemma possible_values_sound (labels : list (Q * string))
      (nan_values_list values : list Q) :
  possible_values (Some labels) nan_values_list = Some values ->
  distinct_values (map fst labels) ->
  values <> [] /\ distinct_values values /\
  (forall v, In v values -> mem v nan_values_list = false).
Proof.
  intros Hpv Hd.
  assert (E : values = filter (fun v => negb (mem v nan_values_list)) (map fst labels)
              /\ values <> []).
  { unfold possible_values in Hpv. destruct labels as [|l0 labels]; [discriminate|].
    destruct nan_values_list as [|n0 nans].
    - assert (Hid : forall l : list Q, filter (fun v => negb (mem v [])) l = l).
      { induction l as [|x l IH]; [reflexivity|]. cbn [filter mem existsb negb].
        f_equal. exact IH. }
      rewrite Hid. cbn [map] in *. injection Hpv as <-. split; [reflexivity | discriminate].
    - destruct (filter (fun v => negb (mem v (n0 :: nans))) (map fst (l0 :: labels)))
        as [|x xs]; [discriminate|].
      injection Hpv as <-. split; [reflexivity | discriminate]. }
  destruct E as [-> Hne]. split; [exact Hne|]. split.
  - apply distinct_values_filter. exact Hd.
  - intros v Hv. apply filter_In in Hv. destruct Hv as [_ Hv].
    apply negb_true_iff. exact Hv.
Qed.

Lemma filter_none {A : Type} (p : A -> bool) (l : list A) :
  (forall x, In x l -> p x = false) -> filter p l = [].
Proof.
  induction l as [|x l IH]; intros H; [reflexivity|]. cbn [filter].
  rewrite (H x (or_introl eq_refl)). apply IH. intros y Hy. apply H. right. exact Hy.
Qed.

Lemma filter_all {A : Type} (p : A -> bool) (l : list A) :
  (forall x, In x l -> p x = true) -> filter p l = l.
Proof.
  induction l as [|x l IH]; intros H; [reflexivity|]. cbn [filter].
  rewrite (H x (or_introl eq_refl)). f_equal. apply IH.
  intros y Hy. apply H. right. exact Hy.
Qed.

(** On a frame in which every row is a member of the category the
    group-by has one group, and the cell reported is that of the members,
    whatever the order of the groups. *)
Lemma reported_all_members
      (group_order : list (option Z * list respondent) ->
                     list (option Z * list respondent))
      (metric : list respondent -> f64) (df : list respondent) :
  (forall l, Permutation (group_order l) l) ->
  df <> [] ->
  (forall r, In r df -> flag r = Some 1%Z) ->
  members df = df /\ reported group_order metric df = Some (metric df).
Proof.
  intros Hperm Hne Hall.
  assert (Hmem : members df = df).
  { unfold members. apply filter_all. intros r Hr. rewrite (Hall r Hr). reflexivity. }
  split; [exact Hmem|].
  assert (Hgroups : group_by_flag df = [(Some 1%Z, df)]).
  { unfold group_by_flag. destruct df as [|r0 df']; [congruence|].
    cbn [map distinct]. rewrite (Hall r0 (or_introl eq_refl)).
    rewrite (filter_none (fun y => negb (flag_eqb (Some 1%Z) y))).
    - cbn [map]. fold (members (r0 :: df')). rewrite Hmem. reflexivity.
    - intros f Hf. apply In_distinct in Hf. apply in_map_iff in Hf.
      destruct Hf as [r [<- Hr]]. rewrite (Hall r (or_intror Hr)). reflexivity. }
  unfold reported, grouped_agg_df. rewrite Hgroups.
  pose proof (Hperm [(Some 1%Z, df)]) as Hp. apply Permutation_sym in Hp.
  apply Permutation_length_1_inv in Hp. rewrite Hp. reflexivity.
Qed.

End PercentageFacts.

(** ** Claims about the percentage aggregator *)

Section PercentageClaims.
Import Percentages Samples.

(** C2: the group-by on the category column keeps the group of the rows
    whose flag is 0, under the category's label, next to the group of the
    members; the pivot reports the first of the two.  With a non-member
    first in the data, the count, the denominator and the percentage
    reported for the category are those of the non-members; with the groups
    handed out the other way round, they are those of the members. *)
Theorem percentages_report_non_members :
  let df := [respondent_out_1; respondent_in_2] in
  grouped_agg_df first_appearance df = [[respondent_out_1]; [respondent_in_2]] /\
  reported first_appearance (value_count 1) df = Some (Fin 1) /\
  value_count 1 (members df) = Fin 0 /\
  reported first_appearance (total_count []) df = Some (Fin 1) /\
  reported first_appearance (value_percentage [] false 2) df = Some (Fin 0) /\
  value_percentage [] false 2 (members df) = Fin 1 /\
  reported (@rev _) (value_count 1) df = Some (Fin 0).
Proof. vm_compute. repeat split. Qed.

(** C4: in the weighted path the missing percentage divides the weighted
    missing sum by the unweighted count of non-missing rows plus that sum.
    One answer and one missing code, both of weight 2: the code reports
    2/3, the weighted denominator gives 1/2. *)
Theorem weighted_nan_percentage_mixes_bases :
  let g := [respondent_answers_1; respondent_answers_99] in
  nan_percentage [99] true g = Fin (2 # 3) /\
  missing [99] true g = Fin 2 /\
  denominator [99] true g = Fin 2 /\
  total_count [99] g = Fin 1 /\
  fdiv (missing [99] true g) (fadd (denominator [99] true g) (missing [99] true g))
  = Fin (1 # 2).
Proof. vm_compute. repeat split. Qed.

(** C8, as amended: in a group that is not skipped (its value labels, with
    pairwise different keys, leave possible values), when the denominator
    of a column is not zero and every answer that is not a missing code is
    one of the possible values, the value percentages alone sum to 1.0; the
    missing percentage comes on top of that. *)
Theorem value_percentages_sum_to_one
  (labels : list (Q * string)) (nan_values_list : list Q) (use_weights : bool)
  (values : list Q) (g : list respondent) :
  possible_values (Some labels) nan_values_list = Some values ->
  distinct_values (map fst labels) ->
  (forall r a, In r g -> answer r = Some a ->
               mem a nan_values_list = false -> mem a values = true) ->
  denominator nan_values_list use_weights g <> Fin 0 ->
  fsum (value_percentages nan_values_list use_weights values g) = Fin 1 /\
  percentage_total nan_values_list use_weights values g
  = fadd (Fin 1) (nan_percentage nan_values_list use_weights g).
Proof.
  intros Hpv Hkeys Hans Hden.
  destruct (possible_values_sound labels nan_values_list values Hpv Hkeys)
    as [Hne [Hdis Hval]].
  destruct (denominator_nonzero nan_values_list use_weights g Hden)
    as [d [Hd [Hnz Hm]]].
  assert (Hsum : fsum (value_percentages nan_values_list use_weights values g)
                 = Fin 1).
  { unfold value_percentages.
    rewrite (map_ext _ (fun v => fin (mass (measure use_weights) (answer_is v) g / d)))
      by (intros v; apply value_percentage_mass; assumption).
    rewrite (fsum_fin (fun v => mass (measure use_weights) (answer_is v) g / d))
      by exact Hne.
    apply fin_one. unfold Qdiv. rewrite qsum_scale.
    rewrite (mass_partition _ values g Hdis).
    rewrite (mass_ext _ (answer_in values) (not_missing nan_values_list) g).
    - rewrite <- Hm. apply Qmult_inv_r. exact Hnz.
    - intros r Hr. unfold answer_in, not_missing.
      destruct (answer r) as [a|] eqn:Ea; [|reflexivity].
      destruct (mem a nan_values_list) eqn:En; cbn [negb].
      + destruct (mem a values) eqn:Ev; [|reflexivity].
        apply mem_true in Ev. destruct Ev as [v [Hin Hav]].
        rewrite (mem_Qeq a v nan_values_list Hav) in En.
        rewrite (Hval v Hin) in En. discriminate.
      + apply (Hans r a Hr Ea En). }
  split; [exact Hsum|]. unfold percentage_total. rewrite Hsum. reflexivity.
Qed.

Lemma value_percentages_sum_to_one_witness :
  fsum (value_percentages [99] false [1; 2]
          [respondent_in_2; respondent_answers_1; respondent_answers_99]) = Fin 1 /\
  percentage_total [99] false [1; 2]
    [respondent_in_2; respondent_answers_1; respondent_answers_99]
  = fadd (Fin 1) (nan_percentage [99] false
                    [respondent_in_2; respondent_answers_1; respondent_answers_99]).
Proof.
  apply (value_percentages_sum_to_one
           [(1, "yes"); (2, "no"); (99, "no answer")]%string [99] false [1; 2]
           [respondent_in_2; respondent_answers_1; respondent_answers_99]).
  - reflexivity.
  - vm_compute. auto.
  - intros r a [<-|[<-|[<-|[]]]] [= <-] H; try reflexivity; discriminate H.
  - vm_compute. discriminate.
Defined.

(** C8, as stated, fails: with one answer 1 and one missing code 99 the
    value percentage of 1 is 1.0 and the missing percentage 0.5; the group
    is not skipped, and the sum is 1.5. *)
Lemma percentage_total_exceeds_one :
  possible_values (Some [(1, "yes"%string); (99, "no answer"%string)]) [99]
  = Some [1] /\
  percentage_total [99] false [1] [respondent_answers_1; respondent_answers_99]
  = Fin (3 # 2) /\
  percentage_total [99] false [1] [respondent_answers_1; respondent_answers_99]
  <> Fin 1.
Proof. vm_compute. repeat split. discriminate. Qed.

End PercentageClaims.

(** * The ranking aggregator *)

Section SumFacts.
Context {A : Type}.

Lemma sumQ_nil (f : A -> Q) : sumQ f [] = 0.
Proof. reflexivity. Qed.

Lemma sumQ_cons (f : A -> Q) (x : A) (l : list A) :
  sumQ f (x :: l) = f x + sumQ f l.
Proof. reflexivity. Qed.

Lemma sumQ_app (f : A -> Q) (a b : list A) :
  sumQ f (a ++ b) == sumQ f a + sumQ f b.
Proof.
  induction a as [|x a IH]; [rewrite sumQ_nil; cbn [app]; ring|].
  rewrite <- app_comm_cons, !sumQ_cons, IH. ring.
Qed.

Lemma sumQ_plus (f g : A -> Q) (l : list A) :
  sumQ (fun x => f x + g x) l == sumQ f l + sumQ g l.
Proof.
  induction l as [|x l IH]; [rewrite !sumQ_nil; ring|]. rewrite !sumQ_cons, IH. ring.
Qed.

Lemma sumQ_filter (f : A -> Q) (p : A -> bool) (l : list A) :
  sumQ f (filter p l) == sumQ (fun x => if p x then f x else 0) l.
Proof.
  induction l as [|x l IH]; [reflexivity|]. cbn [filter]. rewrite sumQ_cons.
  destruct (p x); [rewrite sumQ_cons|]; rewrite IH; ring.
Qed.

Lemma sumQ_ext (f g : A -> Q) (l : list A) :
  (forall x, In x l -> f x == g x) -> sumQ f l == sumQ g l.
Proof.
  induction l as [|x l IH]; intros H; [reflexivity|]. rewrite !sumQ_cons.
  rewrite (H x (or_introl eq_refl)), IH; [reflexivity|].
  intros y Hy. apply H. right. exact Hy.
Qed.

Lemma sumQ_map {B : Type} (f : A -> Q) (g : B -> A) (l : list B) :
  sumQ f (map g l) = sumQ (fun x => f (g x)) l.
Proof.
  induction l as [|x l IH]; [reflexivity|]. cbn [map]. rewrite !sumQ_cons, IH.
  reflexivity.
Qed.

Lemma sumQ_ones (l : list A) :
  sumQ (fun _ => 1) l == inject_Z (Z.of_nat (List.length l)).
Proof.
  induction l as [|x l IH]; [reflexivity|]. rewrite sumQ_cons, IH.
  cbn [List.length]. rewrite Nat2Z.inj_succ, <- Z.add_1_l, inject_Z_plus. reflexivity.
Qed.

Lemma filter_and (p q : A -> bool) (l : list A) :
  filter p (filter q l) = filter (fun x => q x && p x) l.
Proof.
  induction l as [|x l IH]; [reflexivity|]. cbn [filter].
  destruct (q x); cbn [filter andb]; rewrite IH; reflexivity.
Qed.

End SumFacts.

Section SortFacts.
Import Ranking.

Lemma In_insert (i j : Z) (l : list Z) : In j (insert i l) <-> j = i \/ In j l.
Proof.
  induction l as [|x l IH]; cbn [insert].
  - cbn. intuition.
  - destruct (i <=? x)%Z; cbn [In]; [intuition|]. rewrite IH. intuition.
Qed.

Lemma In_sort (j : Z) (l : list Z) : In j (sort l) <-> In j l.
Proof.
  unfold sort. induction l as [|x l IH]; cbn [fold_right]; [tauto|].
  rewrite In_insert, IH. cbn [In]. intuition.
Qed.

Lemma In_distinct_Z (j : Z) (l : list Z) : In j (distinct Z.eqb l) <-> In j l.
Proof.
  induction l as [|x l IH]; cbn [distinct]; [tauto|]. cbn [In].
  rewrite filter_In, IH. destruct (Z.eqb_spec x j) as [->|Hne]; cbn [negb].
  - intuition.
  - intuition.
Qed.

Lemma In_item_values (i : Z) (m : list placement) :
  In i (item_values m) <-> exists p, In p m /\ ranked_item_value p = Some i.
Proof.
  unfold item_values. rewrite in_flat_map. split.
  - intros [p [Hp Hi]]. exists p. split; [exact Hp|].
    destruct (ranked_item_value p) as [i'|]; cbn in Hi; [|tauto].
    destruct Hi as [->|[]]. reflexivity.
  - intros [p [Hp Hi]]. exists p. split; [exact Hp|]. rewrite Hi. left. reflexivity.
Qed.

(** What [aggregate] returns when no cast fails. *)
Lemma aggregate_ok (uw : bool) (ranks : list (option Z)) (total : Q) (i : Z)
      (g : list placement) (row : ranked_item) :
  aggregate uw ranks total i g = Ok row ->
  item row = i /\
  total_rank_count row = Z.of_nat (List.length g) /\
  rank_count row
  = map (fun k => Z.of_nat (List.length (filter (has_rank k) g))) (rank_values ranks) /\
  total_score row = sumQ (if uw then weighted_rank_score else rank_score) g /\
  total_respondents row = total.
Proof.
  unfold aggregate.
  destruct (if uw then rank_weighted_sums ranks g else Ok []) as [weighted|e];
    cbn [bind]; [|discriminate].
  intros [= <-]. repeat split.
Qed.

(** The output has one row per item of the key list, found by its item. *)
Lemma row_of_traverse (uw : bool) (ranks : list (option Z)) (total : Q)
      (G : Z -> list placement) (i : Z) (l : list Z) :
  forall out,
    traverse (fun j => aggregate uw ranks total j (G j)) l = Ok out ->
    (In i l ->
     exists row, row_of i out = Some row /\
                 aggregate uw ranks total i (G i) = Ok row) /\
    (~ In i l -> row_of i out = None).
Proof.
  unfold row_of. induction l as [|x l IH]; intros out H.
  - injection H as <-. split; [intros [] | reflexivity].
  - apply traverse_cons_inv in H. destruct H as [y [ys [-> [Hx Hl]]]].
    destruct (IH ys Hl) as [IH1 IH2]. cbn [find In].
    destruct (aggregate_ok uw ranks total x (G x) y Hx) as [Hitem _].
    rewrite Hitem. destruct (Z.eqb_spec x i) as [->|Hne].
    + split; [|intuition]. intros _. exists y. split; [reflexivity | exact Hx].
    + split; intros Hin; [apply IH1 | apply IH2]; intuition.
Qed.

End SortFacts.

Section RankingFacts.
Import Ranking.

Variable nan_values_list : list Q.
Variable possible : list Q.
Variable use_weights : bool.
Variable ranks : list (option Z).

Local Abbreviation score := (Ranking.score use_weights).
Local Abbreviation mu := (Ranking.mu use_weights).
Local Abbreviation placed_score := (Ranking.placed_score use_weights).

(** A sum over the melted frame, taken respondent by respondent. *)
Lemma sumQ_melt_from (F : placement -> Q) (rows : list respondent) (j : nat)
      (ks : list (option Z)) :
  sumQ F (placements_from rows j ks) == sumQ (col_sum F j ks) rows.
Proof.
  revert j. induction ks as [|k ks IH]; intros j; cbn [placements_from].
  - rewrite sumQ_nil. induction rows as [|r rows IHr]; [reflexivity|].
    rewrite sumQ_cons, <- IHr. cbn [col_sum]. ring.
  - rewrite sumQ_app, IH. rewrite sumQ_map, <- sumQ_plus.
    apply sumQ_ext. intros r _. reflexivity.
Qed.

Variable it : Z.

Lemma col_sum_placed (j : nat) (ks : list (option Z)) (r : respondent) :
  col_sum (fun p => if has_item it p && rank_is_positive p then score p else 0)
          j ks r
  == sumQ (placed_score r) (placed_from it j ks r).
Proof.
  revert j. induction ks as [|k ks IH]; intros j; cbn [col_sum placed_from].
  - reflexivity.
  - rewrite IH. unfold has_item, rank_is_positive, place. cbn [ranked_item_value rank].
    destruct (item_at r j) as [i'|]; cbn [andb]; [|ring].
    destruct (Z.eqb i' it); cbn [andb]; [|ring].
    rewrite sumQ_cons. apply Qplus_inj_r.
    unfold Ranking.placed_score, Ranking.score, Ranking.mu, weighted_rank_score, rank_score.
    destruct k as [k'|];
      [|destruct use_weights; cbn [rank weight]; [destruct (wt r)|]; reflexivity].
    destruct (0 <? k')%Z; [|reflexivity].
    unfold Qdiv. destruct use_weights; cbn [rank weight]; [|ring].
    destruct (wt r); cbn [fill_null]; ring.
Qed.

Hypothesis it_possible : mem (inject_Z it) possible = true.
Hypothesis it_not_missing : mem (inject_Z it) nan_values_list = false.

Lemma has_item_eq (p : placement) :
  has_item it p = true -> ranked_item_value p = Some it.
Proof.
  unfold has_item. destruct (ranked_item_value p) as [i|]; [|discriminate].
  intros H. apply Z.eqb_eq in H. congruence.
Qed.

(** The group of [it] in [melted_df], read off [melt]. *)
Lemma group_of_item (rows : list respondent) :
  filter (has_item it) (kept nan_values_list possible ranks rows)
  = filter (fun p => has_item it p && rank_is_positive p) (placements ranks rows).
Proof.
  unfold kept, filtered. rewrite !filter_and. apply filter_ext. intros p.
  destruct (has_item it p) eqn:E.
  - apply has_item_eq in E. unfold item_possible, item_not_missing.
    rewrite E, it_possible, it_not_missing. cbn [negb].
    destruct (rank_is_positive p); reflexivity.
  - destruct (rank_is_positive p), (item_not_missing nan_values_list p),
      (item_possible possible p); reflexivity.
Qed.

Lemma total_respondents_mu (rows : list respondent) :
  total_respondents_count use_weights rows == sumQ mu rows.
Proof.
  unfold total_respondents_count, Ranking.mu. destruct use_weights; [reflexivity|].
  symmetry. apply sumQ_ones.
Qed.

(** An item every respondent places at rank 1, and only there, scores the
    respondent count. *)
Lemma first_place_score (rows : list respondent) :
  (forall r, In r rows -> placed ranks it r = [Some 1%Z]) ->
  sumQ score (filter (has_item it) (kept nan_values_list possible ranks rows))
  == total_respondents_count use_weights rows.
Proof.
  intros H. rewrite group_of_item, sumQ_filter. unfold placements.
  rewrite sumQ_melt_from, total_respondents_mu. apply sumQ_ext.
  intros r Hr. rewrite col_sum_placed. fold (placed ranks it r). rewrite (H r Hr).
  rewrite sumQ_cons, sumQ_nil. unfold Ranking.placed_score. cbn [Z.ltb Z.compare].
  change (inject_Z 1) with 1. field.
Qed.

Lemma placed_in_melt (rows : list respondent) (r : respondent) (k : option Z)
      (j : nat) (ks : list (option Z)) :
  In r rows -> In k (placed_from it j ks r) ->
  exists p, In p (placements_from rows j ks) /\ rank p = k /\
            ranked_item_value p = Some it.
Proof.
  intros Hr. revert j. induction ks as [|k0 ks IH]; intros j;
    cbn [placed_from placements_from].
  - intros [].
  - intros Hk.
    assert (Hrest : In k (placed_from it (S j) ks r) ->
                    exists p, In p (map (fun r => place r j k0) rows
                                    ++ placements_from rows (S j) ks) /\
                              rank p = k /\ ranked_item_value p = Some it).
    { intros Hin. destruct (IH (S j) Hin) as [p [Hp Hpk]].
      exists p. split; [apply in_or_app; right; exact Hp | exact Hpk]. }
    destruct (item_at r j) as [i'|] eqn:Ec; [|auto].
    destruct (Z.eqb_spec i' it) as [->|Hne]; [|auto].
    destruct Hk as [<-|Hk]; [|auto].
    exists (place r j k0). split.
    + apply in_or_app. left. apply in_map_iff.
      exists r. split; [reflexivity | exact Hr].
    + unfold place. cbn [rank ranked_item_value]. split; [reflexivity | exact Ec].
Qed.

Lemma melt_in_placed (rows : list respondent) (p : placement) (j : nat)
      (ks : list (option Z)) :
  In p (placements_from rows j ks) -> ranked_item_value p = Some it ->
  exists r, In r rows /\ In (rank p) (placed_from it j ks r).
Proof.
  revert j. induction ks as [|k0 ks IH]; intros j; cbn [placements_from placed_from].
  - intros [].
  - intros Hin Hit. apply in_app_or in Hin. destruct Hin as [Hin|Hin].
    + apply in_map_iff in Hin.
      destruct Hin as [r [<- Hr]]. cbn [ranked_item_value rank place] in *.
      exists r. split; [exact Hr|]. rewrite Hit, Z.eqb_refl. left. reflexivity.
    + destruct (IH (S j) Hin Hit) as [r [Hr Hk]]. exists r. split; [exact Hr|].
      destruct (item_at r j) as [i'|]; [|exact Hk].
      destruct (Z.eqb i' it); [right|]; exact Hk.
Qed.

Lemma first_place_in_melted (rows : list respondent) (r : respondent) :
  In r rows -> placed ranks it r = [Some 1%Z] ->
  exists p, In p (kept nan_values_list possible ranks rows) /\
            ranked_item_value p = Some it.
Proof.
  intros Hr Hp.
  destruct (placed_in_melt rows r (Some 1%Z) 0 ranks Hr) as [p [Hin [Hk Hi]]].
  { fold (placed ranks it r). rewrite Hp. left. reflexivity. }
  exists p. split; [|exact Hi]. unfold kept, filtered.
  rewrite !filter_In. unfold item_possible, item_not_missing, rank_is_positive.
  rewrite Hi, Hk, it_possible, it_not_missing. auto.
Qed.

End RankingFacts.

Section RankingRun.
Import Ranking.

(** An item nobody places has no placement in the melted frame. *)
Lemma never_placed_absent (nan_values_list possible : list Q)
      (ranks : list (option Z)) (it : Z) (rows : list respondent) :
  (forall r, In r rows -> placed ranks it r = []) ->
  ~ In it (item_values (kept nan_values_list possible ranks rows)).
Proof.
  intros H Hin. apply In_item_values in Hin. destruct Hin as [p [Hp Hi]].
  unfold kept, filtered in Hp. rewrite !filter_In in Hp.
  destruct Hp as [[[Hp _] _] _]. unfold placements in Hp.
  destruct (melt_in_placed it rows p 0 ranks Hp Hi) as [r [Hr Hk]].
  fold (placed ranks it r) in Hk. rewrite (H r Hr) in Hk. exact Hk.
Qed.

Lemma cast_int_ok (c : option Q) (i : option Z) :
  cast_int c = Ok i -> i = option_map trunc c.
Proof.
  unfold cast_int, cast_float. destruct c as [q|]; [|intros [= <-]; reflexivity].
  destruct (fits_int64 (trunc q)); cbn [bind]; [|discriminate].
  intros [= <-]. reflexivity.
Qed.

(** The melted frame, when its casts go through. *)
Lemma melt_column_ok (rows : list respondent) (j : nat) (k : option Z)
      (m : list placement) :
  melt_column rows j k = Ok m -> m = map (fun r => place r j k) rows.
Proof.
  unfold melt_column. apply traverse_map. intros r p _.
  unfold cast_rank. destruct k as [z|]; cbn [bind]; [|discriminate].
  destruct (cast_int (nth j (ranked r) None)) as [i|e] eqn:E; cbn [bind];
    [|discriminate].
  intros [= <-]. apply cast_int_ok in E. subst i. reflexivity.
Qed.

Lemma melt_from_ok (rows : list respondent) (ks : list (option Z)) :
  forall j m, melt_from rows j ks = Ok m -> m = placements_from rows j ks.
Proof.
  induction ks as [|k ks IH]; intros j m; cbn [melt_from placements_from].
  - intros [= <-]. reflexivity.
  - destruct (melt_column rows j k) as [c|e] eqn:Ec; cbn [bind]; [|discriminate].
    destruct (melt_from rows (S j) ks) as [rest|e] eqn:Er; cbn [bind]; [|discriminate].
    intros [= <-]. rewrite (melt_column_ok rows j k c Ec), (IH (S j) rest Er).
    reflexivity.
Qed.

Lemma melted_df_ok (nan_values_list possible : list Q) (ranks : list (option Z))
      (rows : list respondent) (m : list placement) :
  melted_df nan_values_list possible ranks rows = Ok m ->
  m = kept nan_values_list possible ranks rows.
Proof.
  unfold melted_df, melt, kept, placements.
  destruct (melt_from rows 0 ranks) as [m0|e] eqn:E; cbn [bind]; [|discriminate].
  intros [= <-]. rewrite (melt_from_ok rows ranks 0 m0 E). reflexivity.
Qed.

(** What [per_category_df] returns when it returns rows: none of its three
    exits was taken, and one row was aggregated for each item kept. *)
Lemma per_category_df_inv (nan_values_list possible : list Q) (uw : bool)
      (ranks : list (option Z)) (df : list respondent) (out : list ranked_item) :
  per_category_df nan_values_list possible uw ranks df = Ok (Some out) ->
  traverse (fun i =>
              aggregate uw ranks (total_respondents_count uw (category_rows df)) i
                (filter (has_item i)
                   (kept nan_values_list possible ranks (category_rows df))))
           (sort (distinct Z.eqb
                    (item_values
                       (kept nan_values_list possible ranks (category_rows df)))))
  = Ok out
  /\ category_rows df <> [] /\
  ~ total_respondents_count uw (category_rows df) == 0.
Proof.
  unfold per_category_df.
  destruct (category_rows df) as [|r rows] eqn:E; [discriminate|].
  destruct (Qeq_bool _ 0) eqn:Eb; [discriminate|].
  destruct (melted_df nan_values_list possible ranks (r :: rows)) as [m|e] eqn:Em;
    cbn [bind]; [|discriminate].
  apply melted_df_ok in Em. subst m.
  destruct (kept nan_values_list possible ranks (r :: rows)) as [|p m] eqn:Ek;
    [discriminate|].
  destruct (traverse _ _) as [out'|e] eqn:Et; cbn [bind]; [|discriminate].
  intros [= <-]. split; [reflexivity|]. split; [discriminate|].
  intros H. apply Qeq_eq_bool in H. congruence.
Qed.

End RankingRun.

(** ** Claims about the ranking aggregator *)

Section RankingClaims.
Import Ranking Samples.

(** C7, as amended: when the rows the loop keeps for a category are its
    members and the loop has an output for the category (it is not
    skipped, and no cast fails), an item that is a possible value, no
    missing code, and that every member places at rank 1, and only there,
    has a row whose total score is the (weighted) respondent count of the
    category; and an item that no member ranks has no row in the output,
    whatever the other items are. *)
Theorem ranking_first_and_never
  (nan_values_list possible : list Q) (use_weights : bool)
  (ranks : list (option Z)) (df : list respondent) (out : list ranked_item) :
  category_rows df = members df ->
  per_category_df nan_values_list possible use_weights ranks df = Ok (Some out) ->
  (forall first : Z,
     mem (inject_Z first) possible = true ->
     mem (inject_Z first) nan_values_list = false ->
     (forall r, In r (members df) -> placed ranks first r = [Some 1%Z]) ->
     exists row,
       row_of first out = Some row /\
       total_score row == total_respondents_count use_weights (members df) /\
       total_respondents row = total_respondents_count use_weights (members df)) /\
  (forall never : Z,
     (forall r, In r (members df) -> placed ranks never r = []) ->
     row_of never out = None).
Proof.
  intros Hcat Hout. apply per_category_df_inv in Hout.
  rewrite Hcat in Hout. destruct Hout as [Hout [Hne _]].
  set (total := total_respondents_count use_weights (members df)) in *.
  set (m := kept nan_values_list possible ranks (members df)) in *.
  split.
  - intros first Hposs Hnm Hfirst.
    assert (Hex : exists r0, In r0 (members df)).
    { destruct (members df) as [|r0 rows']; [congruence|].
      exists r0. left. reflexivity. }
    destruct Hex as [r0 Hr0].
    destruct (first_place_in_melted nan_values_list possible ranks first Hposs Hnm
                (members df) r0 Hr0 (Hfirst r0 Hr0)) as [p [Hp Hi]].
    destruct (row_of_traverse use_weights ranks total (fun i => filter (has_item i) m)
                first (sort (distinct Z.eqb (item_values m))) out Hout)
      as [Hfound _].
    destruct Hfound as [row [Hrow Hagg]].
    { apply In_sort, In_distinct_Z, In_item_values.
      exists p. split; [exact Hp | exact Hi]. }
    exists row. split; [exact Hrow|].
    destruct (aggregate_ok use_weights ranks total first _ row Hagg)
      as [_ [_ [_ [Hscore Htotal]]]].
    split; [|exact Htotal]. rewrite Hscore.
    apply (first_place_score nan_values_list possible use_weights ranks first
             Hposs Hnm (members df) Hfirst).
  - intros never Hnever.
    destruct (row_of_traverse use_weights ranks total (fun i => filter (has_item i) m)
                never (sort (distinct Z.eqb (item_values m))) out Hout)
      as [_ Hnone].
    apply Hnone. rewrite In_sort, In_distinct_Z.
    apply never_placed_absent. exact Hnever.
Qed.

Lemma ranking_first_and_never_witness :
  (forall first : Z,
     mem (inject_Z first) [7; 8; 9; 10] = true ->
     mem (inject_Z first) [99] = false ->
     (forall r, In r (members ranking_df) ->
                placed ranking_slots first r = [Some 1%Z]) ->
     exists row,
       row_of first ranking_output = Some row /\
       total_score row == total_respondents_count true (members ranking_df) /\
       total_respondents row = total_respondents_count true (members ranking_df)) /\
  (forall never : Z,
     (forall r, In r (members ranking_df) -> placed ranking_slots never r = []) ->
     row_of never ranking_output = None).
Proof.
  apply (ranking_first_and_never [99] [7; 8; 9; 10] true ranking_slots
           ranking_df ranking_output).
  - reflexivity.
  - vm_compute. reflexivity.
Defined.

(** C7, as stated, fails: item 10 is a possible value that nobody ranks,
    and the category's output has rows for 7, 8 and 9 only; no score and no
    count is reported for 10. *)
Lemma ranking_unranked_item_not_reported :
  possible_values (Some ranking_labels) [99] = Ok (Some [7; 8; 9; 10]) /\
  (forall r, In r ranking_df -> placed ranking_slots 10 r = []) /\
  exists out,
    per_category_df [99] [7; 8; 9; 10] false ranking_slots ranking_df
    = Ok (Some out) /\
    map item out = [7; 8; 9]%Z /\
    row_of 10 out = None.
Proof.
  split; [reflexivity|]. split.
  - intros r [<-|[<-|[]]]; reflexivity.
  - eexists. split; [vm_compute; reflexivity|]. split; reflexivity.
Qed.

End RankingClaims.

(** * The index aggregator *)

Section IndexClaims.
Import Frame Index Samples.
Local Open Scope string_scope.

(** What decides the suppression in the code: the number of rows of the
    category, nulls included, plus the number of missing codes. *)
Lemma individual_index_suppressed (db : database) (weights : bool)
      (scale : option (Q * Q)) (info : string -> option (list Q))
      (wc : option string) (q : string) (rs : list clean_row) :
  individual_index db weights scale info wc q rs = None <->
  (Z.of_nat (List.length rs) + fill_null 0%Z (nan_count q rs)
   < MINIMUM_COUNT (cfg db))%Z.
Proof.
  unfold individual_index, Count_Individual, melted. rewrite !length_map.
  destruct (Z.ltb_spec (Z.of_nat (List.length rs) + fill_null 0%Z (nan_count q rs))
                       (MINIMUM_COUNT (cfg db))) as [H|H].
  - tauto.
  - split; [discriminate | lia].
Qed.

(** C6: the count behind the suppression is taken after [fill_null(0)], so
    a null cell counts as a response.  With answers 4, 5 and a null and a
    floor of 3, two responses are on record and the index should be absent;
    the code reports 3.0, the mean of 4, 5 and 0, next to an area index of
    4.5.  With answers 4, 5 and the missing code 99 and a floor of 4, the
    missing code is counted twice, and the code reports 3.0 again. *)
Theorem index_counts_nulls_as_responses :
  let no_labels := fun _ : string => @None (list Q) in
  let with_null := survey 3 [Some 4; Some 5; None] in
  let with_code := survey 4 [Some 4; Some 5; Some 99] in
  (reported_index with_null false None no_labels "cat" "Q1" = Ok (Some (Fin 3)) /\
   (non_missing_count with_null "Q1" "cat" + missing_count with_null "Q1" "cat" = 2)%Z /\
   MINIMUM_COUNT (cfg with_null) = 3%Z) /\
  (reported_index with_code false None no_labels "cat" "Q1" = Ok (Some (Fin 3)) /\
   (non_missing_count with_code "Q1" "cat" + missing_count with_code "Q1" "cat" = 3)%Z /\
   MINIMUM_COUNT (cfg with_code) = 4%Z) /\
  category_index with_null false None no_labels "cat"
  = Ok (Some [{| area := "Area"; question := "Q1";
                 Individual_Index := Some (Fin 3);
                 Area_Index := Some (Fin (9 # 2)) |}]).
Proof. vm_compute. repeat split. Qed.

(** The scenario of the specification: answers 2, 3, 4, 5 give 3.5 under a
    floor of 2 and nothing under a floor of 5. *)
Example index_end_to_end :
  reported_index (survey 2 [Some 2; Some 3; Some 4; Some 5]) false None
                 (fun _ => None) "cat" "Q1" = Ok (Some (Fin (7 # 2))) /\
  reported_index (survey 5 [Some 2; Some 3; Some 4; Some 5]) false None
                 (fun _ => None) "cat" "Q1" = Ok None.
Proof. vm_compute. split; reflexivity. Qed.

End IndexClaims.

(** * The ENI classifier *)

Section ENIFacts.
Import Frame ENI.
Local Open Scope string_scope.

Lemma Qle_bool_false (a b : Q) : Qle_bool a b = false <-> b < a.
Proof.
  split; intros H.
  - apply Qnot_le_lt. intros Hle. apply Qle_bool_iff in Hle. congruence.
  - destruct (Qle_bool a b) eqn:E; [|reflexivity].
    apply Qle_bool_iff in E. exfalso. apply (Qlt_not_le _ _ H E).
Qed.

(** The classes the code assigns to an average that is not null. *)
Lemma ENI_Category_cases (x : Q) :
  (ENI_Category (Some x) = "2" <-> 3 <= x /\ x <= 419 # 100) /\
  (ENI_Category (Some x) = "3" <-> 42 # 10 <= x) /\
  (ENI_Category (Some x) = "1" <-> x < 3 \/ (419 # 100 < x /\ x < 42 # 10)).
Proof.
  unfold ENI_Category, when. cbn [option_map fill_null].
  destruct (Qle_bool 3 x) eqn:E3; destruct (Qle_bool x (419 # 100)) eqn:E419;
    destruct (Qle_bool (42 # 10) x) eqn:E42; cbn [andb];
    rewrite ?Qle_bool_iff, ?Qle_bool_false in *;
    repeat split; try discriminate; try tauto; try lra;
    intros; try (exfalso; lra).
Qed.

Lemma ENI_Category_null : ENI_Category None = "1".
Proof. reflexivity. Qed.

Lemma mean_horizontal_null (questions : list string) (r : row) :
  (forall q, In q questions -> get q r = None) ->
  mean_horizontal questions r = None.
Proof.
  intros H. unfold mean_horizontal.
  assert (E : flat_map (fun q => match get q r with
                                 | Some x => [x]
                                 | None => []
                                 end) questions = []).
  { induction questions as [|q qs IH]; [reflexivity|]. cbn [flat_map].
    rewrite (H q (or_introl eq_refl)). cbn [app]. apply IH.
    intros q' Hq'. apply H. right. exact Hq'. }
  rewrite E. reflexivity.
Qed.


Lemma category_count_le (cls : string) (Values : list cell) :
  (category_count cls Values <= List.length Values)%nat.
Proof. unfold category_count. apply filter_length_le. Qed.

(** The cell the pivot shows for one of the three classes is the share of
    the class among the respondents of the category. *)
Lemma ENI_Proportion_share (cls : string) (Values : list cell) :
  cls = "1" \/ cls = "2" \/ cls = "3" ->
  ENI_Proportion cls Values
  == inject_Z (Z.of_nat (category_count cls Values))
     / inject_Z (Z.of_nat (List.length Values)).
Proof.
  intros Hcls. unfold ENI_Proportion, pivot_cell, eni_proportions_df.
  cbn [filter].
  destruct (Nat.eqb (category_count "1" Values) 0) eqn:E1;
    destruct (Nat.eqb (category_count "2" Values) 0) eqn:E2;
    destruct (Nat.eqb (category_count "3" Values) 0) eqn:E3;
    cbn [negb map];
    destruct Hcls as [-> | [-> | ->]]; cbn [find fst snd];
    repeat match goal with
           | |- context [String.eqb ?a ?b] =>
               let v := eval vm_compute in (String.eqb a b) in
               change (String.eqb a b) with v; cbn iota
           end;
    try reflexivity;
    match goal with
    | H : Nat.eqb ?c 0 = true |- _ == inject_Z (Z.of_nat ?c) / _ =>
        apply Nat.eqb_eq in H; rewrite H; reflexivity
    end.
Qed.

(** One respondent more in the total and none more in the class: the
    share of the class does not grow, and it shrinks when the class is not
    empty. *)
Lemma share_shrinks (c n : nat) :
  (c <= n)%nat ->
  inject_Z (Z.of_nat c) / inject_Z (Z.of_nat (S n))
  <= inject_Z (Z.of_nat c) / inject_Z (Z.of_nat n) /\
  ((0 < c)%nat ->
   inject_Z (Z.of_nat c) / inject_Z (Z.of_nat (S n))
   < inject_Z (Z.of_nat c) / inject_Z (Z.of_nat n)).
Proof.
  intros Hcn.
  destruct n as [|n'].
  - assert (c = 0%nat) by lia. subst c. split; [|lia].
    unfold Qdiv. rewrite !Qmult_0_l. apply Qle_refl.
  - set (n := S n') in *.
    assert (Hn : 0 < inject_Z (Z.of_nat n)).
    { change 0 with (inject_Z 0). rewrite <- Zlt_Qlt. lia. }
    assert (Hn1 : 0 < inject_Z (Z.of_nat (S n))).
    { change 0 with (inject_Z 0). rewrite <- Zlt_Qlt. lia. }
    assert (Hlt : inject_Z (Z.of_nat n) < inject_Z (Z.of_nat (S n))).
    { rewrite <- Zlt_Qlt. lia. }
    assert (Hinv : / inject_Z (Z.of_nat (S n)) < / inject_Z (Z.of_nat n)).
    { apply -> Qinv_lt_contravar; assumption. }
    unfold Qdiv. destruct c as [|c'].
    + split; [|lia]. cbn [Z.of_nat]. rewrite !Qmult_0_l. apply Qle_refl.
    + assert (Hpos : 0 < inject_Z (Z.of_nat (S c'))).
      { change 0 with (inject_Z 0). rewrite <- Zlt_Qlt. lia. }
      assert (Hstrict : inject_Z (Z.of_nat (S c')) * / inject_Z (Z.of_nat (S n))
                        < inject_Z (Z.of_nat (S c')) * / inject_Z (Z.of_nat n)).
      { apply Qmult_lt_l; assumption. }
      split; [apply Qlt_le_weak; exact Hstrict | intros _; exact Hstrict].
Qed.



(** The counts of a class among the averages of a category are counts of
    its members. *)
Lemma category_values_length (db : database) (questions : list string) (c : string) :
  List.length (category_values db questions c) = List.length (members db c).
Proof. unfold category_values, members. apply length_map. Qed.

Lemma category_count_members (db : database) (questions : list string)
      (cls c : string) :
  category_count cls (category_values db questions c)
  = class_count questions cls (members db c).
Proof.
  unfold category_count, category_values, class_count, members.
  induction (filter (is_member c) (df_clean db)) as [|r rs IH]; [reflexivity|].
  cbn [map filter].
  destruct (String.eqb (ENI_Category (mean_horizontal questions (cells r))) cls);
    cbn [List.length]; rewrite IH; reflexivity.
Qed.

(** Members without an answer are all of class "1", and of no other. *)
Lemma class_count_answered (questions : list string) (cls : string)
      (rs : list clean_row) :
  class_count questions cls rs
  = (class_count questions cls (filter (has_answer questions) rs)
     + (if String.eqb "1" cls
        then List.length rs - List.length (filter (has_answer questions) rs)
        else 0))%nat.
Proof.
  unfold class_count.
  induction rs as [|r rs IH]; [destruct (String.eqb "1" cls); reflexivity|].
  pose proof (filter_length_le (has_answer questions) rs) as Hle.
  cbn [filter]. destruct (has_answer questions r) eqn:Eh.
  - cbn [filter].
    destruct (String.eqb (ENI_Category (mean_horizontal questions (cells r))) cls);
      cbn [List.length]; rewrite IH; destruct (String.eqb "1" cls); lia.
  - unfold has_answer in Eh.
    destruct (mean_horizontal questions (cells r)) as [x|]; [discriminate|].
    rewrite ENI_Category_null.
    destruct (String.eqb "1" cls); cbn [List.length]; rewrite IH; lia.
Qed.

Lemma answered_lt (questions : list string) (rs : list clean_row) (r : clean_row) :
  In r rs -> mean_horizontal questions (cells r) = None ->
  (List.length (filter (has_answer questions) rs) < List.length rs)%nat.
Proof.
  intros Hin Hnull. induction rs as [|a rs IH]; [destruct Hin|].
  pose proof (filter_length_le (has_answer questions) rs) as Hle.
  cbn [filter List.length]. destruct Hin as [->|Hin].
  - unfold has_answer at 1. rewrite Hnull. lia.
  - specialize (IH Hin). destruct (has_answer questions a); cbn [List.length]; lia.
Qed.

Section Loop.

Variable db : database.
Variable weights : bool.

Local Abbreviation rows_of questions cats :=
  (map (fun c => (c, eni_proportions_df (category_values db questions c)))
       (filter (has_members db) cats)).

(** The loop over the categories, when it returns: a row for every
    category with members, a warning for every other one. *)
Lemma category_loop_inv (questions cats : list string) :
  forall log results,
    category_loop db weights questions cats = Ok (log, results) ->
    results = rows_of questions cats /\
    (List.length log + List.length (filter (has_members db) cats)
     = List.length cats)%nat.
Proof.
  induction cats as [|c cats IH]; intros log results; cbn [category_loop].
  - intros [= <- <-]. split; reflexivity.
  - cbn [filter].
    destruct (has_column c (df db)) eqn:Hc; cbn [negb].
    + destruct (filter (is_member c) (df_clean db)) as [|r rs] eqn:Ef.
      * assert (Hm : has_members db c = false).
        { unfold has_members. rewrite Hc, Ef. reflexivity. }
        rewrite Hm.
        destruct (category_loop db weights questions cats) as [[log' res']|e];
          cbn [bind fst snd]; [|discriminate].
        intros [= <- <-]. destruct (IH log' res' eq_refl) as [-> Hlen].
        split; [reflexivity|]. cbn [List.length]. lia.
      * assert (Hm : has_members db c = true).
        { unfold has_members. rewrite Hc, Ef. reflexivity. }
        rewrite Hm.
        destruct (select_columns db weights questions c) as [[]|e];
          cbn [bind]; [|discriminate].
        destruct (category_loop db weights questions cats) as [[log' res']|e];
          cbn [bind fst snd]; [|discriminate].
        intros [= <- <-]. destruct (IH log' res' eq_refl) as [-> Hlen].
        split; [|cbn [List.length]; lia].
        cbn [map]. unfold category_values. rewrite Ef. reflexivity.
    + assert (Hm : has_members db c = false).
      { unfold has_members. rewrite Hc. reflexivity. }
      rewrite Hm.
      destruct (category_loop db weights questions cats) as [[log' res']|e];
        cbn [bind fst snd]; [|discriminate].
      intros [= <- <-]. destruct (IH log' res' eq_refl) as [-> Hlen].
      split; [reflexivity|]. cbn [List.length]. lia.
Qed.

(** The loop returns when every [select] goes through. *)
Lemma category_loop_ok (questions cats : list string) :
  (forall c, In c cats -> has_members db c = true ->
             select_columns db weights questions c = Ok tt) ->
  exists log, category_loop db weights questions cats
              = Ok (log, rows_of questions cats) /\
              (List.length log + List.length (filter (has_members db) cats)
               = List.length cats)%nat.
Proof.
  intros Hsel.
  assert (Hex : exists out, category_loop db weights questions cats = Ok out).
  { induction cats as [|c cats IH]; cbn [category_loop]; [eexists; reflexivity|].
    destruct IH as [out E].
    { intros c' Hin. apply Hsel. right. exact Hin. }
    rewrite E. destruct (has_column c (df db)) eqn:Hc; cbn [negb bind].
    - destruct (filter (is_member c) (df_clean db)) as [|r rs] eqn:Ef;
        cbn [bind]; [eexists; reflexivity|].
      rewrite (Hsel c (or_introl eq_refl)).
      + cbn [bind]. eexists. reflexivity.
      + unfold has_members. rewrite Hc, Ef. reflexivity.
    - eexists. reflexivity. }
  destruct Hex as [[log results] E]. exists log.
  destruct (category_loop_inv questions cats log results E) as [-> Hlen].
  split; [exact E | exact Hlen].
Qed.

End Loop.

Lemma pivot_categories (results : list (string * list (string * Q))) :
  map fst (table (pivot results)) = map fst results.
Proof.
  unfold pivot. cbn [table]. rewrite map_map. reflexivity.
Qed.

(** Reading a row of the pivot at a class. *)
Lemma find_class (f : string -> Q) (cls : string) (cols : list string) :
  option_map snd
    (find (fun cv => String.eqb cls (fst cv)) (combine cols (map f cols)))
  = if is_in cls cols then Some (f cls) else None.
Proof.
  unfold is_in. induction cols as [|c cols IH]; [reflexivity|].
  cbn [map combine find existsb fst].
  destruct (String.eqb cls c) eqn:E.
  - apply String.eqb_eq in E. subst c. reflexivity.
  - cbn [orb]. exact IH.
Qed.

(** The cell of the pivot for a category that got a row: the proportion of
    the class among the averages of the category, when the class is a
    column. *)
Lemma eni_cell_pivot (props : string -> list (string * Q)) (cats : list string)
      (c cls : string) :
  In c cats ->
  eni_cell (pivot (map (fun c => (c, props c)) cats)) c cls
  = if is_in cls (classes (pivot (map (fun c => (c, props c)) cats)))
    then Some (pivot_cell cls (props c))
    else None.
Proof.
  intros Hin. unfold eni_cell.
  set (frame := pivot (map (fun c => (c, props c)) cats)).
  assert (Hfind : find (fun kv => String.eqb c (fst kv)) (table frame)
                  = Some (c, map (fun cls => pivot_cell cls (props c)) (classes frame))).
  { unfold frame, pivot. cbn [table classes].
    set (cols := distinct String.eqb _). clearbody cols. clear frame.
    induction cats as [|a cats IH]; [destruct Hin|].
    cbn [map find fst snd].
    destruct (String.eqb c a) eqn:E.
    - apply String.eqb_eq in E. subst a. reflexivity.
    - apply IH. destruct Hin as [->|Hin]; [|exact Hin].
      rewrite String.eqb_refl in E. discriminate. }
  rewrite Hfind. cbn [snd]. apply find_class.
Qed.

(** A class that occurs in a category is a column of the pivot. *)
Lemma In_distinct_string (l : list string) (x : string) :
  In x l -> In x (distinct String.eqb l).
Proof.
  induction l as [|a l IH]; [tauto|]. cbn [distinct].
  intros [->|H]; [left; reflexivity|].
  destruct (String.eqb a x) eqn:E.
  - left. apply String.eqb_eq. exact E.
  - right. apply filter_In. split; [apply IH; exact H|]. rewrite E. reflexivity.
Qed.

Lemma is_in_In (s : string) (l : list string) : is_in s l = true <-> In s l.
Proof.
  unfold is_in. rewrite existsb_exists. split.
  - intros [x [Hx E]]. apply String.eqb_eq in E. subst x. exact Hx.
  - intros H. exists s. split; [exact H | apply String.eqb_refl].
Qed.

Lemma class_in_pivot (props : string -> list (string * Q)) (cats : list string)
      (c cls : string) :
  In c cats -> In cls (map fst (props c)) ->
  is_in cls (classes (pivot (map (fun c => (c, props c)) cats))) = true.
Proof.
  intros Hc Hcls. apply is_in_In. unfold pivot. cbn [classes].
  apply In_distinct_string. apply in_flat_map.
  exists (c, props c). split; [|exact Hcls].
  apply in_map_iff. exists c. split; [reflexivity | exact Hc].
Qed.

(** A class with a respondent is a row of the proportions. *)
Lemma class_in_proportions (cls : string) (Values : list cell) :
  cls = "1" \/ cls = "2" \/ cls = "3" ->
  (0 < category_count cls Values)%nat ->
  In cls (map fst (eni_proportions_df Values)).
Proof.
  intros Hcls Hpos. unfold eni_proportions_df. rewrite map_map. cbn [fst].
  rewrite map_id. apply filter_In. split.
  - cbn [In]. destruct Hcls as [-> | [-> | ->]]; tauto.
  - destruct (Nat.eqb_spec (category_count cls Values) 0) as [E|E]; [lia | reflexivity].
Qed.

(** [eni] once the questions of the area are found. *)
Lemma eni_with_questions (db : database) (area : string) (weights : bool)
      (percentage_df : percentage_frame)
      (group_order : list group_key -> list group_key) (questions : list string) :
  questions_present db area = Ok questions ->
  questions <> [] ->
  eni db area weights percentage_df group_order
  = (out <- category_loop db weights questions (categories db) ;;
     match snd out with
     | [] => Ok (fst out, None)
     | results_list =>
         percentages <- _eni_percentage group_order (categories db) percentage_df ;;
         Ok (fst out, Some (pivot results_list))
     end).
Proof.
  intros Hq Hne. unfold eni. rewrite Hq. cbn [bind].
  destruct questions as [|q0 qs]; [congruence | reflexivity].
Qed.

(** [eni] on an area with questions, when every [select] goes through and
    [percentage_df] can be regrouped: a pivot with a row for every category
    with members, when there is one. *)
Lemma eni_returns_pivot (db : database) (area : string) (weights : bool)
      (percentage_df : percentage_frame)
      (group_order : list group_key -> list group_key)
      (regrouped : list regrouped_row) (questions : list string) :
  questions_present db area = Ok questions ->
  questions <> [] ->
  selects_ok db weights questions ->
  _eni_percentage group_order (categories db) percentage_df = Ok regrouped ->
  filter (has_members db) (categories db) <> [] ->
  exists log,
    eni db area weights percentage_df group_order
    = Ok (log,
          Some (pivot (map (fun c => (c, eni_proportions_df
                                           (category_values db questions c)))
                           (filter (has_members db) (categories db))))) /\
    (List.length log + List.length (filter (has_members db) (categories db))
     = List.length (categories db))%nat.
Proof.
  intros Hq Hne Hsel Hpct Hcats.
  rewrite (eni_with_questions db area weights percentage_df group_order
                               questions Hq Hne).
  destruct (category_loop_ok db weights questions (categories db) Hsel)
    as [log [Eloop Hlen]].
  rewrite Eloop. cbn [bind snd fst]. exists log. split; [|exact Hlen].
  destruct (filter (has_members db) (categories db)) as [|c0 cats]; [congruence|].
  cbn [map]. rewrite Hpct. reflexivity.
Qed.

(** The frame [eni] returns, when it returns one for an area with
    questions. *)
Lemma eni_inv (db : database) (area : string) (weights : bool)
      (percentage_df : percentage_frame)
      (group_order : list group_key -> list group_key)
      (questions : list string) (log : list diagnostic) (frame : eni_frame) :
  questions_present db area = Ok questions ->
  questions <> [] ->
  eni db area weights percentage_df group_order = Ok (log, Some frame) ->
  frame = pivot (map (fun c => (c, eni_proportions_df
                                     (category_values db questions c)))
                     (filter (has_members db) (categories db))).
Proof.
  intros Hq Hne.
  rewrite (eni_with_questions db area weights percentage_df group_order
                               questions Hq Hne).
  destruct (category_loop db weights questions (categories db))
    as [[log' results]|e] eqn:Eloop; cbn [bind fst snd]; [|discriminate].
  destruct (category_loop_inv db weights questions (categories db) log' results Eloop)
    as [-> _].
  destruct (map _ (filter (has_members db) (categories db))) as [|x l] eqn:Em;
    [discriminate|].
  destruct (_eni_percentage group_order (categories db) percentage_df);
    cbn [bind]; [|discriminate].
  intros [= _ <-]. reflexivity.
Qed.

End ENIFacts.

(** ** Claims about the ENI classifier *)

Section ENIClaims.
Import Frame ENI Samples.
Local Open Scope string_scope.

(** The averages named in the specification: 3.0, 4.2 and 2.9. *)
Example eni_spec_averages :
  map ENI_Category [Some 3; Some (42 # 10); Some (29 # 10)] = ["2"; "3"; "1"].
Proof. reflexivity. Qed.

(** C3: class "2" ends at 4.19, not below 4.2.  An average of 4.195, or of
    88/21 (seventeen answers 4 and four answers 5 over 21 questions), lies
    in [3.0, 4.2) and gets class "1"; one step down (all 4) is class "2" and
    one step up (sixteen 4, five 5) class "3". *)
Theorem eni_gap_below_4_2 :
  ENI_Category (Some (4195 # 1000)) = "1" /\
  (3 <= 4195 # 1000 /\ 4195 # 1000 < 42 # 10) /\
  (exists avg,
     mean_horizontal wide_area (wide_row (repeat 4 17 ++ repeat 5 4)) = Some avg /\
     avg == 88 # 21 /\ 3 <= avg /\ avg < 42 # 10 /\
     ENI_Category (Some avg) = "1") /\
  ENI_Category (mean_horizontal wide_area (wide_row (repeat 4 21))) = "2" /\
  ENI_Category (mean_horizontal wide_area (wide_row (repeat 4 16 ++ repeat 5 5))) = "3".
Proof.
  split; [reflexivity|]. split; [split; [discriminate | reflexivity]|].
  split; [|split; reflexivity].
  eexists. split; [vm_compute; reflexivity|].
  repeat split; discriminate.
Qed.

(** C9: an area name that is not a key of [area_map] makes [eni] raise a
    [TypeError] before any category is looked at, whatever [percentages]
    has left behind. *)
Theorem eni_raises_on_unknown_area :
  area_questions (survey 1 [Some 3; Some 5]) "Ledelse" = None /\
  forall (percentage_df : percentage_frame)
         (group_order : list group_key -> list group_key),
    eni (survey 1 [Some 3; Some 5]) "Ledelse" false percentage_df group_order
    = Raise TypeError.
Proof. split; [reflexivity|]. intros percentage_df group_order. reflexivity. Qed.

(** C10: a member of a category whose cells are null in every question of
    the area (an answer never given, or a missing code that [replace]
    turned into a null) has a null average and class "1", and is kept in
    the frame [eni] returns.  The cell of class "1" in the row of the
    category is the number of members of class "1", this one and every
    other one without an answer included, over the number of all members;
    the cells of classes "2" and "3" are the numbers of members of these
    classes over the number of all members, so they are no greater than
    the shares among the members with an answer, and smaller when not 0. *)
Theorem eni_null_average_is_class_1
  (db : database) (area : string) (weights : bool)
  (percentage_df : percentage_frame)
  (group_order : list group_key -> list group_key)
  (questions : list string) (log : list diagnostic) (frame : eni_frame)
  (category_column : string) (r : clean_row) :
  questions_present db area = Ok questions ->
  questions <> [] ->
  eni db area weights percentage_df group_order = Ok (log, Some frame) ->
  In category_column (categories db) ->
  has_column category_column (df db) = true ->
  In r (members db category_column) ->
  (forall q, In q questions -> get q (cells r) = None) ->
  ENI_Category (mean_horizontal questions (cells r)) = "1" /\
  (List.length (filter (has_answer questions) (members db category_column))
   < List.length (members db category_column))%nat /\
  (exists share_1,
     eni_cell frame category_column "1" = Some share_1 /\
     share_1
     == inject_Z (Z.of_nat
                    (class_count questions "1"
                       (filter (has_answer questions) (members db category_column))
                     + (List.length (members db category_column)
                        - List.length (filter (has_answer questions)
                                              (members db category_column)))))
        / inject_Z (Z.of_nat (List.length (members db category_column)))) /\
  forall cls share,
    cls = "2" \/ cls = "3" ->
    eni_cell frame category_column cls = Some share ->
    share
    == inject_Z (Z.of_nat
                   (class_count questions cls
                      (filter (has_answer questions) (members db category_column))))
       / inject_Z (Z.of_nat (List.length (members db category_column))) /\
    share
    <= inject_Z (Z.of_nat
                   (class_count questions cls
                      (filter (has_answer questions) (members db category_column))))
       / inject_Z (Z.of_nat
                     (List.length (filter (has_answer questions)
                                          (members db category_column)))) /\
    ((0 < class_count questions cls
            (filter (has_answer questions) (members db category_column)))%nat ->
     share
     < inject_Z (Z.of_nat
                   (class_count questions cls
                      (filter (has_answer questions) (members db category_column))))
       / inject_Z (Z.of_nat
                     (List.length (filter (has_answer questions)
                                          (members db category_column))))).
Proof.
  intros Hq Hne Hrun Hcat Hcol Hr Hnull.
  pose proof (mean_horizontal_null questions (cells r) Hnull) as Hmean.
  apply (eni_inv db area weights percentage_df group_order questions log frame Hq Hne)
    in Hrun.
  set (rs := members db category_column) in *.
  set (answered := filter (has_answer questions) rs).
  pose proof (answered_lt questions rs r Hr Hmean) as Hlt. fold answered in Hlt.
  assert (Hmem : has_members db category_column = true).
  { unfold has_members. rewrite Hcol. cbn [andb]. fold (members db category_column).
    fold rs. destruct rs as [|a l]; [destruct Hr | reflexivity]. }
  assert (Hcin : In category_column (filter (has_members db) (categories db))).
  { apply filter_In. split; assumption. }
  set (props := fun c => eni_proportions_df (category_values db questions c)) in *.
  set (cats := filter (has_members db) (categories db)) in *.
  change (frame = pivot (map (fun c => (c, props c)) cats)) in Hrun.
  subst frame. set (frame := pivot (map (fun c => (c, props c)) cats)).
  (* the cells of the row *)
  assert (Hcell : forall cls, is_in cls (classes frame) = true ->
                    cls = "1" \/ cls = "2" \/ cls = "3" ->
                    exists share,
                      eni_cell frame category_column cls = Some share /\
                      share == inject_Z (Z.of_nat (class_count questions cls rs))
                               / inject_Z (Z.of_nat (List.length rs))).
  { intros cls Hin Hcls. exists (pivot_cell cls (props category_column)). split.
    - unfold frame. rewrite (eni_cell_pivot props cats category_column cls Hcin).
      fold frame. rewrite Hin. reflexivity.
    - unfold props. fold (ENI_Proportion cls (category_values db questions category_column)).
      rewrite (ENI_Proportion_share cls _ Hcls).
      rewrite category_count_members, category_values_length. reflexivity. }
  assert (Hone : class_count questions "1" rs
                 = (class_count questions "1" answered
                    + (List.length rs - List.length answered))%nat).
  { rewrite (class_count_answered questions "1" rs). reflexivity. }
  assert (Hin1 : is_in "1" (classes frame) = true).
  { unfold frame. apply (class_in_pivot props cats category_column "1" Hcin).
    unfold props. apply class_in_proportions; [tauto|].
    rewrite category_count_members. fold rs. rewrite Hone. lia. }
  destruct (Hcell "1" Hin1) as [share_1 [Ecell1 Eshare1]]; [tauto|].
  split; [rewrite Hmean; reflexivity|].
  split; [exact Hlt|].
  split; [exists share_1; split; [exact Ecell1 | rewrite Eshare1, Hone; reflexivity]|].
  intros cls share Hcls Ecell.
  assert (Hcls3 : cls = "1" \/ cls = "2" \/ cls = "3") by tauto.
  assert (Hin : is_in cls (classes frame) = true).
  { unfold frame in Ecell.
    rewrite (eni_cell_pivot props cats category_column cls Hcin) in Ecell.
    fold frame in Ecell. destruct (is_in cls (classes frame)); [reflexivity | discriminate]. }
  destruct (Hcell cls Hin Hcls3) as [share' [Ecell' Eshare']].
  rewrite Ecell in Ecell'. injection Ecell' as <-.
  assert (Hsame : class_count questions cls rs = class_count questions cls answered).
  { rewrite (class_count_answered questions cls rs). fold answered.
    destruct Hcls as [-> | ->]; cbn [String.eqb Ascii.eqb Bool.eqb]; lia. }
  rewrite Hsame in Eshare'.
  assert (Hle : (class_count questions cls answered <= List.length answered)%nat).
  { unfold class_count. apply filter_length_le. }
  split; [exact Eshare'|].
  set (k := class_count questions cls answered) in *.
  set (n := List.length answered) in *.
  set (m := List.length rs) in *.
  assert (Hm : 0 < inject_Z (Z.of_nat m)).
  { change 0 with (inject_Z 0). rewrite <- Zlt_Qlt. lia. }
  destruct n as [|n'].
  - assert (k = 0%nat) by lia. rewrite Eshare'.
    replace k with 0%nat by lia. split; [|lia].
    unfold Qdiv. rewrite !Qmult_0_l. apply Qle_refl.
  - set (n := S n') in *.
    assert (Hn : 0 < inject_Z (Z.of_nat n)).
    { change 0 with (inject_Z 0). rewrite <- Zlt_Qlt. lia. }
    assert (Hnm : inject_Z (Z.of_nat n) < inject_Z (Z.of_nat m)).
    { rewrite <- Zlt_Qlt. lia. }
    assert (Hinv : / inject_Z (Z.of_nat m) < / inject_Z (Z.of_nat n)).
    { apply -> Qinv_lt_contravar; assumption. }
    rewrite Eshare'. unfold Qdiv. destruct k as [|k'].
    + split; [|lia]. cbn [Z.of_nat]. rewrite !Qmult_0_l. apply Qle_refl.
    + assert (Hk : 0 < inject_Z (Z.of_nat (S k'))).
      { change 0 with (inject_Z 0). rewrite <- Zlt_Qlt. lia. }
      assert (Hstrict : inject_Z (Z.of_nat (S k')) * / inject_Z (Z.of_nat m)
                        < inject_Z (Z.of_nat (S k')) * / inject_Z (Z.of_nat n)).
      { apply Qmult_lt_l; assumption. }
      split; [apply Qlt_le_weak; exact Hstrict | intros _; exact Hstrict].
Qed.

Lemma eni_null_average_is_class_1_witness :
  let db := survey 1 [Some 3; Some 5; Some 2; Some 99] in
  let r := clean db [("cat", Some 1); ("Q1", Some 99)] in
  let frame := {| classes := ["1"; "2"; "3"];
                  table := [("cat", [2 # 4; 1 # 4; 1 # 4])] |} in
  ENI_Category (mean_horizontal ["Q1"] (cells r)) = "1" /\
  (List.length (filter (has_answer ["Q1"]) (members db "cat"))
   < List.length (members db "cat"))%nat /\
  (exists share_1,
     eni_cell frame "cat" "1" = Some share_1 /\
     share_1
     == inject_Z (Z.of_nat
                    (class_count ["Q1"] "1"
                       (filter (has_answer ["Q1"]) (members db "cat"))
                     + (List.length (members db "cat")
                        - List.length (filter (has_answer ["Q1"])
                                              (members db "cat")))))
        / inject_Z (Z.of_nat (List.length (members db "cat")))) /\
  forall cls share,
    cls = "2" \/ cls = "3" ->
    eni_cell frame "cat" cls = Some share ->
    share
    == inject_Z (Z.of_nat
                   (class_count ["Q1"] cls
                      (filter (has_answer ["Q1"]) (members db "cat"))))
       / inject_Z (Z.of_nat (List.length (members db "cat"))) /\
    share
    <= inject_Z (Z.of_nat
                   (class_count ["Q1"] cls
                      (filter (has_answer ["Q1"]) (members db "cat"))))
       / inject_Z (Z.of_nat
                     (List.length (filter (has_answer ["Q1"])
                                          (members db "cat")))) /\
    ((0 < class_count ["Q1"] cls
            (filter (has_answer ["Q1"]) (members db "cat")))%nat ->
     share
     < inject_Z (Z.of_nat
                   (class_count ["Q1"] cls
                      (filter (has_answer ["Q1"]) (members db "cat"))))
       / inject_Z (Z.of_nat
                     (List.length (filter (has_answer ["Q1"])
                                          (members db "cat"))))).
Proof.
  apply (eni_null_average_is_class_1
           (survey 1 [Some 3; Some 5; Some 2; Some 99]) "Area" false
           sample_percentage_df first_appearance
           ["Q1"] []
           {| classes := ["1"; "2"; "3"];
              table := [("cat", [2 # 4; 1 # 4; 1 # 4])] |}
           "cat"
           (clean (survey 1 [Some 3; Some 5; Some 2; Some 99])
                  [("cat", Some 1); ("Q1", Some 99)])).
  - reflexivity.
  - discriminate.
  - vm_compute. reflexivity.
  - left. reflexivity.
  - reflexivity.
  - right. right. right. left. reflexivity.
  - intros q [<-|[]]. reflexivity.
Defined.

(** The whole run on such a category: of four members, one without any
    answer; classes "1", "2", "3" get 2/4, 1/4, 1/4. *)
Example eni_counts_null_average :
  eni (survey 1 [Some 3; Some 5; Some 2; Some 99]) "Area" false
      sample_percentage_df first_appearance
  = Ok ([], Some {| classes := ["1"; "2"; "3"];
                    table := [("cat", [2 # 4; 1 # 4; 1 # 4])] |}).
Proof. vm_compute. reflexivity. Qed.

End ENIClaims.

(** * Further properties of the IPF solver *)

Section IPFExtraTheorems.
Import IPF Samples.

(** The solver never removes or adds a row: whenever it returns, the weight
    column has one entry per respondent, whatever the targets, the order
    of the groups and the rounding. *)
Theorem weights_test_keeps_rows
  (round : Q -> f64)
  (group_order : list (key * f64) -> list (key * f64))
  (target_df : list target_row) (survey_df : list survey_row)
  (dims : list (nat * nat)) (o : outcome) :
  weights_test round group_order target_df survey_df dims = Ok o ->
  List.length (weight o) = List.length survey_df.
Proof.
  intros Ho.
  apply (ipf_loop_shape round group_order target_df survey_df dims
           max_iterations 0 (map (fun _ => Fin 1) survey_df) o).
  - apply length_map.
  - exact Ho.
Qed.

Lemma weights_test_keeps_rows_witness :
  List.length
    (weight {| weight := [Fin 10; Fin 30]; converged := true; iterations := 2 |})
  = List.length [[cat_B]; [cat_A]].
Proof.
  apply (weights_test_keeps_rows exact first_appearance
           [([cat_A], 10); ([cat_B], 30)] [[cat_B]; [cat_A]] [(0, 0)%nat]).
  vm_compute. reflexivity.
Defined.

(** The iteration count the solver reports lies between 1 and
    [max_iterations], and non-convergence is only ever reported after all
    [max_iterations] iterations have been run. *)
Theorem weights_test_iterations
  (round : Q -> f64)
  (group_order : list (key * f64) -> list (key * f64))
  (target_df : list target_row) (survey_df : list survey_row)
  (dims : list (nat * nat)) (o : outcome) :
  weights_test round group_order target_df survey_df dims = Ok o ->
  (1 <= iterations o <= max_iterations)%nat /\
  (converged o = false -> iterations o = max_iterations).
Proof.
  intros Ho.
  destruct (ipf_loop_shape round group_order target_df survey_df dims
              max_iterations 0 (map (fun _ => Fin 1) survey_df) o
              (length_map _ _) Ho) as [_ [H2 H3]].
  split; [|exact H3].
  destruct (converged o) eqn:Ec.
  - cbn in H2. lia.
  - rewrite (H3 eq_refl). unfold max_iterations. lia.
Qed.

Lemma weights_test_iterations_witness :
  (1 <= 2 <= max_iterations)%nat /\ (true = false -> 2%nat = max_iterations).
Proof.
  apply (weights_test_iterations exact first_appearance
           [([cat_A], 10); ([cat_B], 30)] [[cat_B]; [cat_A]] [(0, 0)%nat]
           {| weight := [Fin 10; Fin 30]; converged := true; iterations := 2 |}).
  vm_compute. reflexivity.
Defined.

End IPFExtraTheorems.

Section IPFEdgeFacts.
Import IPF Samples.

Variable round : Q -> f64.
Variable group_order : list (key * f64) -> list (key * f64).
Hypothesis group_order_perm : forall l, Permutation (group_order l) l.
Variable target_df : list target_row.

Lemma group_order_nil : group_order [] = [].
Proof. apply Permutation_nil. apply Permutation_sym. apply group_order_perm. Qed.

Lemma sweeps_empty_survey (ds : list (nat * nat)) :
  sweeps round group_order target_df [] ds [] = Ok [] \/
  sweeps round group_order target_df [] ds [] = Raise ShapeError.
Proof.
  induction ds as [|d ds IH]; cbn [sweeps]; [left; reflexivity|].
  unfold sweep. cbn [column map group_sum distinct combine filter].
  rewrite group_order_nil. cbn [drop_nans filter]. unfold adj_df.
  destruct (Nat.eqb _ _); cbn [bind combine map]; [exact IH | right; reflexivity].
Qed.

Hypothesis round_ok : rounding round.
Variable survey_df : list survey_row.

Local Abbreviation ones := (initial_weights survey_df).

Lemma ones_nonneg : Forall nonneg ones.
Proof.
  unfold initial_weights. apply Forall_map. apply Forall_forall. intros ? _.
  cbn [nonneg]. discriminate.
Qed.

(** The totals the first sweep of a dimension starts from. *)
Lemma first_totals_nonneg (j : nat) :
  Forall (fun kv => nonneg (snd kv))
         (group_order (group_sum round (column j survey_df) ones)).
Proof.
  eapply Permutation_Forall; [apply Permutation_sym, group_order_perm|].
  apply (group_sum_nonneg round round_ok). apply ones_nonneg.
Qed.







End IPFEdgeFacts.

Section IPFEdgeTheorems.
Import IPF Samples.

(** On a survey without respondents the solver never returns: building
    [adj_df] raises when a dimension has target categories, and otherwise
    the comparison of the (missing) largest weight change with the
    tolerance does. *)
Theorem weights_test_empty_survey
  (round : Q -> f64)
  (group_order : list (key * f64) -> list (key * f64))
  (target_df : list target_row) (dims : list (nat * nat)) :
  (forall l, Permutation (group_order l) l) ->
  weights_test round group_order target_df [] dims = Raise ShapeError \/
  weights_test round group_order target_df [] dims = Raise TypeError.
Proof.
  intros Hperm. unfold weights_test. change max_iterations with (S 999).
  cbn [map ipf_loop].
  destruct (sweeps_empty_survey round group_order Hperm target_df dims) as [E|E];
    rewrite E; cbn [bind]; [right | left]; reflexivity.
Qed.

Lemma weights_test_empty_survey_witness :
  weights_test exact first_appearance [([cat_A], 10)] [] [(0, 0)%nat]
  = Raise ShapeError \/
  weights_test exact first_appearance [([cat_A], 10)] [] [(0, 0)%nat]
  = Raise TypeError.
Proof.
  apply (weights_test_empty_survey exact first_appearance [([cat_A], 10)]
                                   [(0, 0)%nat]).
  intros l. apply Permutation_refl.
Defined.



(** A survey column that does not have as many categories as the target
    table has for its dimension stops the solver in its first sweep: the
    frame of factors cannot be built, and no weight is attached. *)
Theorem weights_test_category_mismatch
  (round : Q -> f64)
  (group_order : list (key * f64) -> list (key * f64))
  (target_df : list target_row) (survey_df : list survey_row)
  (d : nat * nat) (dims : list (nat * nat)) :
  rounding round ->
  (forall l, Permutation (group_order l) l) ->
  List.length (target_marginals round group_order target_df (snd d))
  <> List.length (distinct key_eqb (column (fst d) survey_df)) ->
  weights_test round group_order target_df survey_df (d :: dims) = Raise ShapeError.
Proof.
  intros Hround Hperm Hlen. unfold weights_test. change max_iterations with (S 999).
  cbn [ipf_loop sweeps]. fold (initial_weights survey_df). unfold sweep.
  rewrite (drop_nans_id _
             (first_totals_nonneg round group_order Hperm Hround survey_df (fst d))).
  unfold adj_df.
  rewrite (Permutation_length (Hperm _)), group_sum_length.
  destruct (Nat.eqb_spec (List.length (distinct key_eqb (column (fst d) survey_df)))
              (List.length (target_marginals round group_order target_df (snd d))))
    as [E|E]; [congruence | reflexivity].
Qed.

Lemma weights_test_category_mismatch_witness :
  weights_test exact first_appearance [([cat_A], 10); ([cat_B], 30)]
    [[cat_A]; [cat_A]] [(0, 0)%nat] = Raise ShapeError.
Proof.
  apply (weights_test_category_mismatch exact first_appearance
           [([cat_A], 10); ([cat_B], 30)] [[cat_A]; [cat_A]] (0, 0)%nat []).
  - exact exact_rounding.
  - intros l. apply Permutation_refl.
  - vm_compute. discriminate.
Defined.

End IPFEdgeTheorems.

(** * Further properties of the percentage aggregator *)

Section PercentageExtraFacts.
Import Percentages.

Lemma Qcompare_zero (c : Q) : c == 0 -> (c ?= 0) = Eq.
Proof. intros H. apply Qeq_alt. exact H. Qed.

(** A guarded quotient of a part by its whole is a number between 0 and
    1. *)
Lemma guarded_ratio_bounded (c d : Q) :
  0 <= c -> c <= d ->
  exists p, fill_nan (Fin 0) (fdiv (Fin c) (Fin d)) = Fin p /\ 0 <= p /\ p <= 1.
Proof.
  intros Hc Hcd. cbn [fdiv].
  destruct (Qeq_bool d 0) eqn:E.
  - apply Qeq_bool_eq in E.
    assert (Hc0 : c == 0) by (apply Qle_antisym; [rewrite <- E; exact Hcd | exact Hc]).
    rewrite (Qcompare_zero c Hc0). cbn [inf_of_sign fill_nan is_nan].
    exists 0. split; [reflexivity|]. split; [apply Qle_refl | discriminate].
  - assert (Hd : 0 < d).
    { apply Qle_lt_or_eq in Hc. destruct (Qlt_le_dec 0 d) as [H|H]; [exact H|].
      exfalso. assert (d == 0).
      { apply Qle_antisym; [exact H|]. apply (Qle_trans _ c); [|exact Hcd].
        destruct Hc as [Hc|Hc]; [apply Qlt_le_weak; exact Hc | rewrite <- Hc; apply Qle_refl]. }
      apply Qeq_eq_bool in H0. congruence. }
    exists (Qred (c / d)). split; [reflexivity|]. rewrite Qred_correct. split.
    + apply Qle_shift_div_l; [exact Hd|]. rewrite Qmult_0_l. exact Hc.
    + apply Qle_shift_div_r; [exact Hd|]. rewrite Qmult_1_l. exact Hcd.
Qed.

Lemma filter_length_mono {A : Type} (p q : A -> bool) (l : list A) :
  (forall x, In x l -> p x = true -> q x = true) ->
  (List.length (filter p l) <= List.length (filter q l))%nat.
Proof.
  induction l as [|x l IH]; intros H; [apply le_n|]. cbn [filter].
  assert (IH' : (List.length (filter p l) <= List.length (filter q l))%nat).
  { apply IH. intros y Hy. apply H. right. exact Hy. }
  destruct (p x) eqn:Ep.
  - rewrite (H x (or_introl eq_refl) Ep). cbn [List.length]. lia.
  - destruct (q x); cbn [List.length]; lia.
Qed.

Lemma count_where_nonneg (p : respondent -> bool) (g : list respondent) :
  0 <= count_where p g.
Proof.
  unfold count_where. change 0 with (inject_Z 0). rewrite <- Zle_Qle. lia.
Qed.

Lemma count_where_mono (p q : respondent -> bool) (g : list respondent) :
  (forall r, In r g -> p r = true -> q r = true) ->
  count_where p g <= count_where q g.
Proof.
  intros H. unfold count_where. rewrite <- Zle_Qle.
  apply inj_le. apply filter_length_mono. exact H.
Qed.

(** A row that answers a value that is no missing code is a non-missing
    row. *)
Lemma answer_is_not_missing (nan_values_list : list Q) (v : Q) (r : respondent) :
  mem v nan_values_list = false ->
  answer_is v r = true -> not_missing nan_values_list r = true.
Proof.
  unfold answer_is, not_missing. intros Hv. destruct (answer r) as [a|]; [|discriminate].
  intros Ha. apply Qeq_bool_eq in Ha. rewrite (mem_Qeq a v _ Ha), Hv. reflexivity.
Qed.

End PercentageExtraFacts.

Section PercentageExtras.
Import Percentages Samples.

(** In the unweighted path every percentage the aggregator computes for a
    value that is no missing code, and every missing percentage, is a
    number between 0 and 1: never NaN and never infinite, whatever the
    rows of the group, an empty denominator included. *)
Theorem unweighted_percentages_bounded
  (nan_values_list : list Q) (v : Q) (g : list respondent) :
  mem v nan_values_list = false ->
  (exists p, value_percentage nan_values_list false v g = Fin p /\ 0 <= p /\ p <= 1) /\
  (exists m, nan_percentage nan_values_list false g = Fin m /\ 0 <= m /\ m <= 1).
Proof.
  intros Hv. split.
  - unfold value_percentage, value_count, total_count.
    apply guarded_ratio_bounded; [apply count_where_nonneg|].
    apply count_where_mono. intros r _. apply answer_is_not_missing. exact Hv.
  - unfold nan_percentage, total_count.
    assert (Hgen : forall m, 0 <= m ->
              exists p, fill_nan (Fin 0)
                          (fdiv (Fin m)
                             (fadd (Fin (count_where (not_missing nan_values_list) g))
                                   (Fin m))) = Fin p /\ 0 <= p /\ p <= 1).
    { intros m Hm. cbn [fadd]. unfold fin.
      apply guarded_ratio_bounded; [exact Hm|]. rewrite Qred_correct.
      pose proof (count_where_nonneg (not_missing nan_values_list) g) as Ht.
      rewrite <- (Qplus_0_l m) at 1. apply Qplus_le_compat; [exact Ht | apply Qle_refl]. }
    unfold nan_count. destruct nan_values_list as [|n0 ns].
    + apply Hgen. apply Qle_refl.
    + apply Hgen. apply count_where_nonneg.
Qed.

Lemma unweighted_percentages_bounded_witness :
  (exists p, value_percentage [99] false 1
               [respondent_answers_1; respondent_answers_99] = Fin p /\
             0 <= p /\ p <= 1) /\
  (exists m, nan_percentage [99] false
               [respondent_answers_1; respondent_answers_99] = Fin m /\
             0 <= m /\ m <= 1).
Proof.
  apply (unweighted_percentages_bounded [99] 1
           [respondent_answers_1; respondent_answers_99]).
  reflexivity.
Defined.

(** The weighted path has no such guard on its value percentages: for a
    group without a non-missing answer the weighted percentage of every
    value is NaN (0.0 / 0.0), where the unweighted path reports 0. *)
Theorem weighted_percentage_nan_without_answers
  (nan_values_list : list Q) (v : Q) (g : list respondent) :
  mem v nan_values_list = false ->
  (forall r, In r g -> not_missing nan_values_list r = false) ->
  value_percentage nan_values_list true v g = NaN /\
  value_percentage nan_values_list false v g = Fin 0.
Proof.
  intros Hv Hall.
  assert (Hnm : filter (not_missing nan_values_list) g = []).
  { apply filter_none. exact Hall. }
  assert (Hans : filter (answer_is v) g = []).
  { apply filter_none. intros r Hr.
    destruct (answer_is v r) eqn:E; [|reflexivity].
    pose proof (answer_is_not_missing nan_values_list v r Hv E) as H.
    rewrite (Hall r Hr) in H. discriminate. }
  unfold value_percentage, value_weighted, total_weighted_count, value_count,
    total_count, weight_where, count_where.
  rewrite Hnm, Hans. split; reflexivity.
Qed.

Lemma weighted_percentage_nan_without_answers_witness :
  value_percentage [99] true 1 [respondent_answers_99] = NaN /\
  value_percentage [99] false 1 [respondent_answers_99] = Fin 0.
Proof.
  apply (weighted_percentage_nan_without_answers [99] 1 [respondent_answers_99]).
  - reflexivity.
  - intros r [<-|[]]. reflexivity.
Defined.

Lemma reported_all_members_witness :
  members [respondent_in_2; respondent_answers_1]
  = [respondent_in_2; respondent_answers_1] /\
  reported (@rev _) (value_count 1) [respondent_in_2; respondent_answers_1]
  = Some (value_count 1 [respondent_in_2; respondent_answers_1]).
Proof.
  apply (reported_all_members (@rev _) (value_count 1)
           [respondent_in_2; respondent_answers_1]).
  - intros l. apply Permutation_sym. apply Permutation_rev.
  - discriminate.
  - intros r [<-|[<-|[]]]; reflexivity.
Defined.

(** A category column that is null for every respondent leaves no row for
    the category: nothing is reported for it. *)
Theorem reported_nothing_without_flags
  (group_order : list (option Z * list respondent) ->
                 list (option Z * list respondent))
  (metric : list respondent -> f64) (df : list respondent) :
  (forall l, Permutation (group_order l) l) ->
  (forall r, In r df -> flag r = None) ->
  grouped_agg_df group_order df = [] /\ reported group_order metric df = None.
Proof.
  intros Hperm Hall.
  assert (Hg : grouped_agg_df group_order df = []).
  { unfold grouped_agg_df.
    rewrite filter_none; [reflexivity|].
    intros [f g] Hin. cbn [fst].
    apply (Permutation_in _ (Hperm _)) in Hin.
    unfold group_by_flag in Hin. apply in_map_iff in Hin.
    destruct Hin as [f' [[= <- _] Hf']].
    apply In_distinct in Hf'. apply in_map_iff in Hf'.
    destruct Hf' as [r [<- Hr]]. rewrite (Hall r Hr). reflexivity. }
  split; [exact Hg|]. unfold reported. rewrite Hg. reflexivity.
Qed.

Lemma reported_nothing_without_flags_witness :
  grouped_agg_df first_appearance
    [{| flag := None; answer := Some 1; wt := Some 1 |}] = [] /\
  reported first_appearance (value_count 1)
    [{| flag := None; answer := Some 1; wt := Some 1 |}] = None.
Proof.
  apply (reported_nothing_without_flags first_appearance (value_count 1)
           [{| flag := None; answer := Some 1; wt := Some 1 |}]).
  - intros l. apply Permutation_refl.
  - intros r [<-|[]]. reflexivity.
Defined.

End PercentageExtras.

(** * Further properties of the ranking aggregator *)

Section RankingExtraFacts.
Import Ranking.

Lemma insert_strongly_sorted (i : Z) (l : list Z) :
  StronglySorted Z.lt l -> ~ In i l -> StronglySorted Z.lt (insert i l).
Proof.
  induction l as [|j t IH]; intros Hs Hni; cbn [insert].
  - constructor; constructor.
  - inversion Hs as [|? ? Ht Hall]; subst.
    destruct (Z.leb_spec i j) as [Hle|Hlt].
    + assert (Hij : (i < j)%Z).
      { assert (i <> j) by (intros ->; apply Hni; left; reflexivity). lia. }
      constructor; [exact Hs|]. constructor; [exact Hij|].
      rewrite Forall_forall in *. intros x Hx. specialize (Hall x Hx). lia.
    + constructor.
      * apply IH; [exact Ht|]. intros Hin. apply Hni. right. exact Hin.
      * rewrite Forall_forall in *. intros x Hx. apply In_insert in Hx.
        destruct Hx as [->|Hx]; [exact Hlt | apply Hall; exact Hx].
Qed.

Lemma sort_strongly_sorted (l : list Z) :
  NoDup l -> StronglySorted Z.lt (sort l).
Proof.
  unfold sort. induction l as [|x l IH]; intros Hnd; cbn [fold_right].
  - constructor.
  - inversion Hnd as [|? ? Hx Hl]; subst.
    apply insert_strongly_sorted; [apply IH; exact Hl|].
    intros Hin. apply Hx. apply In_sort. exact Hin.
Qed.

Lemma NoDup_distinct_Z (l : list Z) : NoDup (distinct Z.eqb l).
Proof.
  induction l as [|x l IH]; cbn [distinct]; constructor.
  - intros Hin. apply filter_In in Hin. destruct Hin as [_ Hne].
    rewrite Z.eqb_refl in Hne. discriminate.
  - apply NoDup_filter. exact IH.
Qed.

Lemma map_item_traverse (uw : bool) (ranks : list (option Z)) (total : Q)
      (G : Z -> list placement) (l : list Z) (out : list ranked_item) :
  traverse (fun i => aggregate uw ranks total i (G i)) l = Ok out ->
  map item out = l.
Proof.
  intros H. transitivity (map (fun i : Z => i) l); [|apply map_id].
  apply (traverse_map_fst (fun i => aggregate uw ranks total i (G i))
                          item (fun i => i) l out); [|exact H].
  intros i row _ Hagg. apply (aggregate_ok uw ranks total i (G i) row Hagg).
Qed.

Lemma placements_from_rank (rows : list respondent) (p : placement) (j : nat)
      (ks : list (option Z)) :
  In p (placements_from rows j ks) -> In (rank p) ks.
Proof.
  revert j. induction ks as [|k ks IH]; intros j; cbn [placements_from]; [tauto|].
  intros Hin. apply in_app_or in Hin. destruct Hin as [Hin|Hin].
  - apply in_map_iff in Hin.
    destruct Hin as [r [<- _]]. left. reflexivity.
  - right. apply (IH (S j)). exact Hin.
Qed.

Lemma zsum_plus {A : Type} (f g : A -> Z) (l : list A) :
  zsum (map (fun x => (f x + g x)%Z) l) = (zsum (map f l) + zsum (map g l))%Z.
Proof.
  unfold zsum. induction l as [|x l IH]; cbn [map fold_right]; [reflexivity|].
  rewrite IH. lia.
Qed.

Lemma zsum_indicator (k0 : Z) (ks : list Z) :
  NoDup ks -> In k0 ks ->
  zsum (map (fun k => if Z.eqb k0 k then 1%Z else 0%Z) ks) = 1%Z.
Proof.
  unfold zsum. induction ks as [|k ks IH]; intros Hnd Hin; [destruct Hin|].
  inversion Hnd as [|? ? Hk Hks]; subst. cbn [map fold_right].
  destruct (Z.eqb_spec k0 k) as [->|Hne].
  - assert (E : fold_right Z.add 0%Z (map (fun k' => if Z.eqb k k' then 1%Z else 0%Z) ks)
                = 0%Z).
    { clear IH Hnd Hin Hks. induction ks as [|k' ks IH]; [reflexivity|].
      cbn [map fold_right]. destruct (Z.eqb_spec k k') as [->|_].
      - exfalso. apply Hk. left. reflexivity.
      - rewrite IH; [reflexivity|]. intros H. apply Hk. right. exact H. }
    rewrite E. reflexivity.
  - destruct Hin as [Hin|Hin]; [congruence|]. rewrite (IH Hks Hin). reflexivity.
Qed.

(** The rank counts of a group add up to its size when every placement of
    the group has one of the ranks counted. *)
Lemma rank_counts_sum (ks : list Z) (g : list placement) :
  NoDup ks ->
  (forall p, In p g -> exists k, rank p = Some k /\ In k ks) ->
  zsum (map (fun k => Z.of_nat (List.length (filter (has_rank k) g))) ks)
  = Z.of_nat (List.length g).
Proof.
  intros Hnd. induction g as [|p g IH]; intros Hall.
  - cbn [filter List.length]. clear. unfold zsum.
    induction ks as [|k ks IHk]; [reflexivity|]. cbn [map fold_right].
    rewrite IHk. reflexivity.
  - destruct (Hall p (or_introl eq_refl)) as [k0 [Hk0 Hin]].
    rewrite (map_ext _ (fun k => ((if Z.eqb k0 k then 1 else 0)
                                  + Z.of_nat (List.length (filter (has_rank k) g)))%Z)).
    + rewrite zsum_plus, (zsum_indicator k0 ks Hnd Hin), IH.
      * cbn [List.length]. lia.
      * intros q Hq. apply Hall. right. exact Hq.
    + intros k. cbn [filter]. unfold has_rank at 1. rewrite Hk0.
      destruct (Z.eqb k0 k); cbn [List.length]; lia.
Qed.

Lemma rank_values_spec (ranks : list (option Z)) (k : Z) :
  In k (rank_values ranks) <-> (1 <= k <= Z.of_nat (List.length ranks))%Z.
Proof.
  unfold rank_values, max_rank. rewrite in_map_iff. split.
  - intros [n [<- Hn]]. apply in_seq in Hn. lia.
  - intros Hk. exists (Z.to_nat k). split; [lia|]. apply in_seq. lia.
Qed.

Lemma rank_values_NoDup (ranks : list (option Z)) : NoDup (rank_values ranks).
Proof.
  unfold rank_values. apply Finite.Injective_map_NoDup; [|apply seq_NoDup].
  intros a b H. lia.
Qed.

Lemma trunc_small (q : Q) : 0 <= q -> q < 1 -> trunc q = 0%Z.
Proof.
  unfold trunc, Qle, Qlt. cbn [Qnum Qden]. intros H0 H1.
  apply Z.quot_small. lia.
Qed.

End RankingExtraFacts.


Section RankingExtras.
Import Ranking Samples.

(** The rows of a category's ranking output come in strictly increasing
    order of the ranked item: sorted, and no item twice. *)
Theorem per_category_df_sorted
  (nan_values_list possible : list Q) (use_weights : bool)
  (ranks : list (option Z)) (df : list respondent) (out : list ranked_item) :
  per_category_df nan_values_list possible use_weights ranks df = Ok (Some out) ->
  StronglySorted Z.lt (map item out).
Proof.
  intros Ho. apply per_category_df_inv in Ho. destruct Ho as [Ho _].
  rewrite (map_item_traverse _ _ _ _ _ _ Ho).
  apply sort_strongly_sorted. apply NoDup_distinct_Z.
Qed.

Lemma per_category_df_sorted_witness :
  StronglySorted Z.lt (map item ranking_output_unweighted).
Proof.
  apply (per_category_df_sorted [99] [7; 8; 9; 10] false ranking_slots ranking_df).
  vm_compute. reflexivity.
Defined.

(** Every item the ranking output reports is one of the possible values,
    is no missing code, and was placed at least once at a positive rank by
    a respondent of the category. *)
Theorem per_category_df_items
  (nan_values_list possible : list Q) (use_weights : bool)
  (ranks : list (option Z)) (df : list respondent) (out : list ranked_item)
  (row : ranked_item) :
  per_category_df nan_values_list possible use_weights ranks df = Ok (Some out) ->
  In row out ->
  mem (inject_Z (item row)) possible = true /\
  mem (inject_Z (item row)) nan_values_list = false /\
  (1 <= total_rank_count row)%Z.
Proof.
  intros Ho Hrow. apply per_category_df_inv in Ho. destruct Ho as [Ho _].
  destruct (traverse_In _ _ _ row Ho Hrow) as [i [Hi Hagg]].
  destruct (aggregate_ok _ _ _ _ _ _ Hagg) as [Hitem [Hcount _]].
  rewrite Hitem, Hcount.
  apply In_sort, In_distinct_Z, In_item_values in Hi.
  destruct Hi as [p [Hp Hpi]].
  assert (Hg : In p (filter (has_item i)
                       (kept nan_values_list possible ranks (category_rows df)))).
  { apply filter_In. split; [exact Hp|]. unfold has_item. rewrite Hpi.
    apply Z.eqb_refl. }
  unfold kept, filtered in Hp. rewrite !filter_In in Hp.
  destruct Hp as [[[_ _] Hnm] Hposs].
  unfold item_possible in Hposs. unfold item_not_missing in Hnm.
  rewrite Hpi in Hposs, Hnm. apply negb_true_iff in Hnm.
  split; [exact Hposs|]. split; [exact Hnm|].
  destruct (filter (has_item i) _) as [|x l]; [destruct Hg|].
  cbn [List.length]. lia.
Qed.

Lemma per_category_df_items_witness :
  mem (inject_Z 8) [7; 8; 9; 10] = true /\
  mem (inject_Z 8) [99] = false /\
  Z.le 1 1.
Proof.
  apply (per_category_df_items [99] [7; 8; 9; 10] false ranking_slots ranking_df
           ranking_output_unweighted
           {| item := 8; total_rank_count := 1;
              rank_count := [0; 1]%Z; rank_weighted := [];
              rank_percentage := [0 / 2; 1 / 2];
              total_score := 1 / 2 + 0;
              total_respondents := 2 |}).
  - vm_compute. reflexivity.
  - right. left. reflexivity.
Defined.

(** When the ranks read off the ranking columns all lie within 1 and the
    number of ranking columns, the rank counts of every reported item add up
    to the number of its placements: no placement is left out of the
    per-rank columns. *)
Theorem per_category_df_rank_counts
  (nan_values_list possible : list Q) (use_weights : bool)
  (ranks : list (option Z)) (df : list respondent) (out : list ranked_item)
  (row : ranked_item) :
  (forall k, In (Some k) ranks -> (0 < k)%Z ->
             (k <= Z.of_nat (List.length ranks))%Z) ->
  per_category_df nan_values_list possible use_weights ranks df = Ok (Some out) ->
  In row out ->
  zsum (rank_count row) = total_rank_count row.
Proof.
  intros Hranks Ho Hrow. apply per_category_df_inv in Ho. destruct Ho as [Ho _].
  destruct (traverse_In _ _ _ row Ho Hrow) as [i [_ Hagg]].
  destruct (aggregate_ok _ _ _ _ _ _ Hagg) as [_ [Hcount [Hcounts _]]].
  rewrite Hcount, Hcounts.
  apply rank_counts_sum; [apply rank_values_NoDup|].
  intros p Hp. apply filter_In in Hp. destruct Hp as [Hp _].
  unfold kept, filtered in Hp. rewrite !filter_In in Hp.
  destruct Hp as [[[Hmelt Hpos] _] _].
  unfold placements in Hmelt. apply placements_from_rank in Hmelt.
  unfold rank_is_positive in Hpos. destruct (rank p) as [k|]; [|discriminate].
  apply Z.ltb_lt in Hpos. exists k. split; [reflexivity|].
  apply rank_values_spec. specialize (Hranks k Hmelt Hpos). lia.
Qed.

Lemma per_category_df_rank_counts_witness :
  zsum [0; 1]%Z = 1%Z.
Proof.
  apply (per_category_df_rank_counts [99] [7; 8; 9; 10] false ranking_slots
           ranking_df ranking_output_unweighted
           {| item := 8; total_rank_count := 1;
              rank_count := [0; 1]%Z; rank_weighted := [];
              rank_percentage := [0 / 2; 1 / 2];
              total_score := 1 / 2 + 0;
              total_respondents := 2 |}).
  - intros k [[= <-]|[[= <-]|[]]] _; vm_compute; discriminate.
  - vm_compute. reflexivity.
  - right. left. reflexivity.
Defined.

(** The weighted sum of a rank is cast to an integer before the weighted
    percentage is taken: when the weights of the placements of an item at a
    rank add up to less than 1, the weighted sum reported for that rank is 0
    and so is its percentage. *)
Theorem weighted_rank_sum_truncated
  (ranks : list (option Z)) (total : Q) (i : Z) (g : list placement) (n : nat)
  (row : ranked_item) :
  (n < List.length ranks)%nat ->
  0 <= sumQ (fun p => fill_null 0 (weight p))
            (filter (has_rank (Z.of_nat (S n))) g) ->
  sumQ (fun p => fill_null 0 (weight p))
       (filter (has_rank (Z.of_nat (S n))) g) < 1 ->
  aggregate true ranks total i g = Ok row ->
  nth_error (rank_weighted row) n = Some 0%Z /\
  exists share,
    nth_error (rank_percentage row) n = Some share /\
    share == 0.
Proof.
  intros Hn H0 H1.
  assert (Hk : nth_error (rank_values ranks) n = Some (Z.of_nat (S n))).
  { unfold rank_values, max_rank. rewrite nth_error_map, nth_error_seq.
    destruct (Nat.ltb_spec n (List.length ranks)); [reflexivity | lia]. }
  unfold aggregate.
  destruct (rank_weighted_sums ranks g) as [weighted|e] eqn:Ew; cbn [bind];
    [|discriminate].
  intros [= <-]. cbn [rank_weighted rank_percentage].
  unfold rank_weighted_sums in Ew.
  destruct (traverse_nth_error _ _ _ n _ Ew Hk) as [y [Hy Hcast]].
  unfold cast_float in Hcast. rewrite (trunc_small _ H0 H1) in Hcast.
  cbn in Hcast. injection Hcast as <-.
  split; [exact Hy|].
  destruct (Qlt_le_dec 0 total) as [Ht|Ht].
  - rewrite nth_error_map, Hy. cbn [option_map]. eexists. split; [reflexivity|].
    unfold Qdiv. apply Qmult_0_l.
  - rewrite nth_error_map, Hk. cbn [option_map]. eexists.
    split; reflexivity.
Qed.

Lemma weighted_rank_sum_truncated_witness :
  nth_error [0; 0]%Z 1 = Some 0%Z /\
  exists share,
    nth_error [0 / (5 # 2); 0 / (5 # 2)] 1 = Some share /\ share == 0.
Proof.
  apply (weighted_rank_sum_truncated ranking_slots (5 # 2) 9
           [{| weight := Some (1 # 2); rank := Some 2%Z;
               ranked_item_value := Some 9%Z |}] 1
           {| item := 9; total_rank_count := 1;
              rank_count := [0; 1]%Z; rank_weighted := [0; 0]%Z;
              rank_percentage := [0 / (5 # 2); 0 / (5 # 2)];
              total_score := 1 / 2 * (1 # 2) + 0;
              total_respondents := 5 # 2 |}).
  - vm_compute. lia.
  - vm_compute. discriminate.
  - vm_compute. reflexivity.
  - vm_compute. reflexivity.
Defined.

End RankingExtras.

(** * Further properties of the cleaning step and the index aggregator *)

Section FrameExtraFacts.
Import Frame.

Lemma get_app_map (f : string -> cell) (cols : list string) (r : row) (c : string) :
  get c (map (fun col => (col, f col)) cols ++ r)
  = if existsb (String.eqb c) cols then f c else get c r.
Proof.
  unfold get. induction cols as [|x cols IH]; [reflexivity|].
  cbn [map app find existsb fst]. destruct (String.eqb_spec c x) as [->|Hne].
  - reflexivity.
  - cbn [orb]. exact IH.
Qed.

Lemma existsb_eqb_In (c : string) (l : list string) :
  existsb (String.eqb c) l = true <-> In c l.
Proof.
  rewrite existsb_exists. split.
  - intros [x [Hx E]]. apply String.eqb_eq in E. subst. exact Hx.
  - intros H. exists c. split; [exact H | apply String.eqb_refl].
Qed.

Lemma mem_nil (x : Q) : mem x [] = false.
Proof. reflexivity. Qed.

(** Without missing codes no column is coded. *)
Lemma coded_columns_nil (db : database) :
  nan_values_list (cfg db) = [] -> coded_columns db = [].
Proof.
  intros E. unfold coded_columns. apply filter_none. intros col _.
  destruct (find _ (variable_value_labels db)) as [kv|]; [|reflexivity].
  rewrite E. induction (map fst (snd kv)) as [|v l IH]; [reflexivity|].
  cbn [existsb]. rewrite mem_nil. exact IH.
Qed.

(** The cells of a cleaned row. *)
Lemma clean_get (db : database) (r : row) (c : string) :
  get c (cells (clean db r))
  = if existsb (String.eqb c) (coded_columns db)
    then replace (cfg db) (get c r) else get c r.
Proof.
  unfold clean. destruct (nan_values_list (cfg db)) as [|n ns] eqn:E.
  - rewrite (coded_columns_nil db E). reflexivity.
  - cbn [cells]. apply (get_app_map (fun col => replace (cfg db) (get col r))).
Qed.

Lemma replace_keeps (c : config) (x : Q) :
  mem x (nan_values_list c) = false -> replace c (Some x) = Some x.
Proof.
  unfold replace, nan_values_list, mem. intros H.
  destruct (find _ (NAN_VALUES c)) as [kv|] eqn:E; [|reflexivity].
  apply find_some in E. destruct E as [Hin Hx].
  assert (Ht : existsb (Qeq_bool x) (map fst (NAN_VALUES c)) = true).
  { apply existsb_exists. exists (fst kv). split; [|exact Hx].
    apply in_map. exact Hin. }
  congruence.
Qed.

(** The flag of a coded column in a cleaned row. *)
Lemma clean_flag (db : database) (r : row) (c : string) :
  In c (coded_columns db) ->
  find (fun kv => String.eqb c (fst kv)) (was_nan_value_code (clean db r))
  = Some (c, is_nan_code (cfg db) (get c r)).
Proof.
  intros Hc. unfold clean. destruct (nan_values_list (cfg db)) as [|n ns] eqn:E.
  - rewrite (coded_columns_nil db E) in Hc. destruct Hc.
  - cbn [was_nan_value_code]. unfold is_nan_code. rewrite E.
    induction (coded_columns db) as [|x cols IH]; [destruct Hc|].
    cbn [map find fst]. destruct (String.eqb_spec c x) as [->|Hne]; [reflexivity|].
    apply IH. destruct Hc as [Hc|Hc]; [congruence | exact Hc].
Qed.

End FrameExtraFacts.

Section FrameExtras.
Import Frame Samples.
Local Open Scope string_scope.

(** Cleaning never touches an answer: a cell that is null, or holds a
    value that is no missing code, reads the same after cleaning, in every
    column. *)
Theorem clean_keeps_answers (db : database) (r : row) (c : string) (v : cell) :
  get c r = v ->
  match v with
  | Some x => mem x (nan_values_list (cfg db)) = false
  | None => True
  end ->
  get c (cells (clean db r)) = v.
Proof.
  intros Hv Hm. rewrite clean_get, Hv. destruct v as [x|].
  - rewrite (replace_keeps _ x Hm). destruct (existsb _ _); reflexivity.
  - destruct (existsb _ _); reflexivity.
Qed.

Lemma clean_keeps_answers_witness :
  get "Q1" (cells (clean (survey 1 []) [("cat", Some 1); ("Q1", Some 4)])) = Some 4.
Proof.
  apply (clean_keeps_answers (survey 1 []) [("cat", Some 1); ("Q1", Some 4)]
           "Q1" (Some 4)).
  - reflexivity.
  - reflexivity.
Defined.

(** In a column that has a missing code among its value labels, a cell
    that holds a missing code is flagged, and is replaced by what
    [NAN_VALUES] gives for that code. *)
Theorem clean_replaces_missing_codes
  (db : database) (r : row) (c : string) (x : Q) :
  In c (coded_columns db) ->
  get c r = Some x ->
  mem x (nan_values_list (cfg db)) = true ->
  find (fun kv => String.eqb c (fst kv)) (was_nan_value_code (clean db r))
  = Some (c, Some true) /\
  exists code replacement,
    In (code, replacement) (NAN_VALUES (cfg db)) /\ x == code /\
    get c (cells (clean db r)) = replacement.
Proof.
  intros Hc Hx Hm. split.
  - rewrite (clean_flag db r c Hc), Hx. unfold is_nan_code. cbn [option_map].
    rewrite Hm. reflexivity.
  - rewrite clean_get, Hx. rewrite (proj2 (existsb_eqb_In c _) Hc).
    unfold replace.
    destruct (find (fun kv => Qeq_bool x (fst kv)) (NAN_VALUES (cfg db)))
      as [[code rep]|] eqn:E.
    + apply find_some in E. destruct E as [Hin Heq]. cbn [fst snd] in *.
      exists code, rep. split; [exact Hin|]. split; [|reflexivity].
      apply Qeq_bool_eq. exact Heq.
    + exfalso. unfold mem, nan_values_list in Hm. apply existsb_exists in Hm.
      destruct Hm as [k [Hk Hxk]]. apply in_map_iff in Hk.
      destruct Hk as [kv [<- Hkv]].
      pose proof (find_none _ _ E kv Hkv) as Hnone. cbn beta in Hnone. congruence.
Qed.

Lemma clean_replaces_missing_codes_witness :
  find (fun kv => String.eqb "Q1" (fst kv))
       (was_nan_value_code
          (clean (survey 1 []) [("cat", Some 1); ("Q1", Some 99)]))
  = Some ("Q1", Some true) /\
  exists code replacement,
    In (code, replacement) (NAN_VALUES (cfg (survey 1 []))) /\ 99 == code /\
    get "Q1" (cells (clean (survey 1 []) [("cat", Some 1); ("Q1", Some 99)]))
    = replacement.
Proof.
  apply (clean_replaces_missing_codes (survey 1 [])
           [("cat", Some 1); ("Q1", Some 99)] "Q1" 99).
  - left. reflexivity.
  - reflexivity.
  - reflexivity.
Defined.

End FrameExtras.

Section IndexExtraFacts.
Import Frame Index.

Lemma filter_map_comm {A B : Type} (f : A -> B) (p : B -> bool) (l : list A) :
  filter p (map f l) = map f (filter (fun x => p (f x)) l).
Proof.
  induction l as [|x l IH]; [reflexivity|]. cbn [map filter].
  destruct (p (f x)); cbn [map]; rewrite IH; reflexivity.
Qed.

Lemma not_In_existsb (c : string) (l : list string) :
  ~ In c l -> existsb (String.eqb c) l = false.
Proof.
  intros H. destruct (existsb (String.eqb c) l) eqn:E; [|reflexivity].
  apply existsb_eqb_In in E. contradiction.
Qed.

Lemma members_clean (db : database) (c : string) :
  ~ In c (coded_columns db) ->
  filter (is_member c) (df_clean db)
  = map (clean db) (filter (raw_member c) (rows (df db))).
Proof.
  intros Hc. unfold df_clean. rewrite filter_map_comm. f_equal.
  apply filter_ext. intros r. unfold is_member, raw_member.
  rewrite clean_get, (not_In_existsb c _ Hc). reflexivity.
Qed.

Lemma qmin_le (a b : Q) : qmin a b <= a /\ qmin a b <= b.
Proof.
  unfold qmin. destruct (Qle_bool a b) eqn:E.
  - apply Qle_bool_iff in E. split; [apply Qle_refl | exact E].
  - apply Qle_bool_false in E. split; [apply Qlt_le_weak; exact E | apply Qle_refl].
Qed.

Lemma qmax_ge (a b : Q) : a <= qmax a b /\ b <= qmax a b.
Proof.
  unfold qmax. destruct (Qle_bool a b) eqn:E.
  - apply Qle_bool_iff in E. split; [exact E | apply Qle_refl].
  - apply Qle_bool_false in E. split; [apply Qle_refl | apply Qlt_le_weak; exact E].
Qed.

Lemma fold_qmin_le (l : list Q) (x : Q) :
  fold_left qmin l x <= x /\ (forall v, In v l -> fold_left qmin l x <= v).
Proof.
  revert x. induction l as [|y l IH]; intros x; cbn [fold_left].
  - split; [apply Qle_refl | intros v []].
  - destruct (IH (qmin x y)) as [H1 H2]. destruct (qmin_le x y) as [Hx Hy]. split.
    + apply (Qle_trans _ _ _ H1 Hx).
    + intros v [<-|Hv]; [apply (Qle_trans _ _ _ H1 Hy) | apply H2; exact Hv].
Qed.

Lemma fold_qmax_ge (l : list Q) (x : Q) :
  x <= fold_left qmax l x /\ (forall v, In v l -> v <= fold_left qmax l x).
Proof.
  revert x. induction l as [|y l IH]; intros x; cbn [fold_left].
  - split; [apply Qle_refl | intros v []].
  - destruct (IH (qmax x y)) as [H1 H2]. destruct (qmax_ge x y) as [Hx Hy]. split.
    + apply (Qle_trans _ _ _ Hx H1).
    + intros v [<-|Hv]; [apply (Qle_trans _ _ _ Hy H1) | apply H2; exact Hv].
Qed.

End IndexExtraFacts.

Section IndexExtraSums.

Lemma sumQ_scale {A : Type} (f : A -> Q) (c : Q) (l : list A) :
  sumQ (fun x => f x * c) l == sumQ f l * c.
Proof.
  induction l as [|x l IH]; [rewrite !sumQ_nil; ring|].
  rewrite !sumQ_cons, IH. ring.
Qed.


Lemma fin_zero (a : Q) : a == 0 -> fin a = Fin 0.
Proof. intros H. rewrite (fin_eq a 0 H). reflexivity. Qed.

End IndexExtraSums.

Section IndexExtras.
Import Frame Index Samples.
Local Open Scope string_scope.

(** For a question with a missing code among its labels, and a category
    column without one, the [Nan_Count] that enters the suppression test is
    the number of members of the category whose answer is a missing
    code. *)
Theorem nan_count_counts_missing (db : database) (q category_column : string) :
  In q (coded_columns db) ->
  ~ In category_column (coded_columns db) ->
  filter (is_member category_column) (df_clean db) <> [] ->
  nan_count q (filter (is_member category_column) (df_clean db))
  = Some (missing_count db q category_column).
Proof.
  intros Hq Hc. rewrite (members_clean db category_column Hc).
  unfold missing_count. fold (raw_member category_column).
  set (ms := filter (raw_member category_column) (rows (df db))).
  intros Hne. unfold nan_count.
  destruct (map (clean db) ms) as [|r0 rest] eqn:E; [congruence|].
  assert (Hr0 : exists r, r0 = clean db r).
  { destruct ms as [|r ms']; [discriminate|]. cbn [map] in E.
    injection E as <- _. exists r. reflexivity. }
  destruct Hr0 as [r ->].
  assert (Hex : existsb (fun kv => String.eqb q (fst kv))
                        (was_nan_value_code (clean db r)) = true).
  { apply existsb_exists. exists (q, is_nan_code (cfg db) (get q r)). split.
    - apply (find_some _ _ (clean_flag db r q Hq)).
    - apply String.eqb_refl. }
  rewrite Hex, <- E, filter_map_comm, length_map. f_equal. f_equal. f_equal.
  apply filter_ext. intros r'. rewrite (clean_flag db r' q Hq).
  unfold is_nan_code. destruct (get q r') as [x|]; cbn [option_map]; [|reflexivity].
  destruct (mem x (nan_values_list (cfg db))); reflexivity.
Qed.

Lemma nan_count_counts_missing_witness :
  nan_count "Q1"
    (filter (is_member "cat") (df_clean (survey 1 [Some 4; Some 99; Some 99])))
  = Some (missing_count (survey 1 [Some 4; Some 99; Some 99]) "Q1" "cat").
Proof.
  apply (nan_count_counts_missing (survey 1 [Some 4; Some 99; Some 99]) "Q1" "cat").
  - left. reflexivity.
  - intros [H|[]]. discriminate H.
  - discriminate.
Defined.

(** The range a question is rescaled from brackets every value label of
    the question that is no missing code. *)
Theorem meta_range_brackets_labels
  (db : database) (info : string -> option (list Q)) (q : string)
  (keys : list Q) (v : Q) :
  info q = Some keys ->
  In v keys ->
  mem v (nan_values_list (cfg db)) = false ->
  exists lo hi, meta_range db info q = Some (lo, hi) /\ lo <= v /\ v <= hi.
Proof.
  intros Hinfo Hv Hm. unfold meta_range. rewrite Hinfo.
  assert (Hin : In v (filter (fun v => negb (mem v (nan_values_list (cfg db)))) keys)).
  { apply filter_In. split; [exact Hv|]. rewrite Hm. reflexivity. }
  destruct (filter _ keys) as [|x t]; [destruct Hin|].
  eexists. eexists. split; [reflexivity|].
  destruct (fold_qmin_le t x) as [Hx Ht]. destruct (fold_qmax_ge t x) as [Hx' Ht'].
  destruct Hin as [<-|Hin]; split; auto.
Qed.

Lemma meta_range_brackets_labels_witness :
  exists lo hi,
    meta_range (survey 1 []) (fun _ => Some [1; 2; 3; 4; 5; 99]) "Q1" = Some (lo, hi) /\
    lo <= 3 /\ 3 <= hi.
Proof.
  apply (meta_range_brackets_labels (survey 1 [])
           (fun _ => Some [1; 2; 3; 4; 5; 99]) "Q1" [1; 2; 3; 4; 5; 99] 3).
  - reflexivity.
  - right. right. left. reflexivity.
  - reflexivity.
Defined.





End IndexExtras.

(** * Further properties of the ENI classifier *)

Section ENIExtraFacts.
Import Frame ENI.
Local Open Scope string_scope.



Variable db : database.

(** With weights asked for and no weight column configured, the first
    category with members stops the loop. *)
Lemma category_loop_unbound (questions cats : list string) :
  WEIGHT_COLUMN (cfg db) = None ->
  (exists c, In c cats /\ has_members db c = true) ->
  category_loop db true questions cats = Raise UnboundLocalError.
Proof.
  intros Hw. induction cats as [|c cats IH]; intros [c0 [Hin Hm]]; [destruct Hin|].
  cbn [category_loop].
  assert (Hrest : has_members db c = false ->
                  category_loop db true questions cats = Raise UnboundLocalError).
  { intros Hc. apply IH. exists c0. split; [|exact Hm].
    destruct Hin as [->|Hin]; [congruence | exact Hin]. }
  unfold has_members in Hrest.
  destruct (has_column c (df db)); cbn [negb andb] in *.
  - destruct (filter (is_member c) (df_clean db)) as [|r rs].
    + rewrite (Hrest eq_refl). reflexivity.
    + unfold select_columns. rewrite Hw. reflexivity.
  - rewrite (Hrest eq_refl). reflexivity.
Qed.

(** A category that [percentage_df] has no column for stops the
    regrouping. *)
Lemma eni_percentage_missing (group_order : list group_key -> list group_key)
      (cats : list string) (percentage_df : percentage_frame) (c : string) :
  In c cats -> is_in c (percentage_columns percentage_df) = false ->
  _eni_percentage group_order cats percentage_df = Raise ColumnNotFoundError.
Proof.
  intros Hin Hc. unfold _eni_percentage.
  destruct (forallb _ _) eqn:E; [|reflexivity].
  rewrite forallb_forall in E.
  rewrite (E c) in Hc; [discriminate|].
  apply in_or_app. right. exact Hin.
Qed.

End ENIExtraFacts.

Section ENIExtras.
Import Frame ENI Samples.
Local Open Scope string_scope.



(** For an area of the area map with a question in the data, when the
    [select] of every category with members goes through and
    [percentage_df] can be regrouped, [eni] without weights raises
    nothing.  It returns the pivot with one row, in order, for each
    category column that is in the data and has a member, or nothing when
    there is no such category; every other category gets one warning. *)
Theorem eni_unweighted_outcome (db : database) (area : string)
        (percentage_df : percentage_frame)
        (group_order : list group_key -> list group_key)
        (regrouped : list regrouped_row) (questions : list string) :
  questions_present db area = Ok questions ->
  questions <> [] ->
  selects_ok db false questions ->
  _eni_percentage group_order (categories db) percentage_df = Ok regrouped ->
  exists log out,
    eni db area false percentage_df group_order = Ok (log, out) /\
    (List.length log
     + List.length (filter (has_members db) (categories db))
     = List.length (categories db))%nat /\
    match out with
    | Some frame => map fst (table frame) = filter (has_members db) (categories db) /\
                    filter (has_members db) (categories db) <> []
    | None => filter (has_members db) (categories db) = []
    end.
Proof.
  intros Hq Hne Hw Hpct.
  destruct (filter (has_members db) (categories db)) as [|c0 cats] eqn:Ecats.
  - rewrite (eni_with_questions db area false percentage_df group_order
                                 questions Hq Hne).
    destruct (category_loop_ok db false questions (categories db) Hw)
      as [log [Eloop Hlen]].
    rewrite Eloop, Ecats. cbn [bind snd fst map]. rewrite Ecats in Hlen.
    exists log, None. split; [reflexivity|]. split; [exact Hlen | reflexivity].
  - destruct (eni_returns_pivot db area false percentage_df group_order regrouped
                                questions Hq Hne Hw Hpct) as [log [Erun Hlen]].
    { rewrite Ecats. discriminate. }
    rewrite Ecats in Erun, Hlen. eexists log, _. split; [exact Erun|].
    split; [exact Hlen|]. split; [|discriminate].
    rewrite pivot_categories, map_map. cbn [fst]. apply map_id.
Qed.

Lemma eni_unweighted_outcome_witness :
  exists log out,
    eni (with_categories ["Q1"; "cat"] (survey 1 [Some 3; Some 5])) "Area" false
        sample_percentage_df_2 first_appearance
    = Ok (log, out) /\
    Nat.add (List.length log)
      (List.length
         (filter (has_members (with_categories ["Q1"; "cat"]
                                 (survey 1 [Some 3; Some 5])))
                 ["Q1"; "cat"]))
    = 2%nat /\
    match out with
    | Some frame =>
        map fst (table frame)
        = filter (has_members (with_categories ["Q1"; "cat"]
                                 (survey 1 [Some 3; Some 5])))
                 ["Q1"; "cat"] /\
        filter (has_members (with_categories ["Q1"; "cat"]
                               (survey 1 [Some 3; Some 5])))
               ["Q1"; "cat"] <> []
    | None =>
        filter (has_members (with_categories ["Q1"; "cat"]
                               (survey 1 [Some 3; Some 5])))
               ["Q1"; "cat"] = []
    end.
Proof.
  apply (eni_unweighted_outcome
           (with_categories ["Q1"; "cat"] (survey 1 [Some 3; Some 5]))
           "Area" sample_percentage_df_2 first_appearance
           (map (fun s => {| regrouped_question := Some "Q1";
                             grouped_answer_value := "5";
                             regrouped_metric_type := Some "percentage";
                             category_sums := s;
                             label := "Engasjerte" |})
                [[("Q1", Fin 0); ("cat", Fin (1 # 2))]])
           ["Q1"]).
  - reflexivity.
  - discriminate.
  - intros c [<-|[<-|[]]] Hm; [discriminate Hm | reflexivity].
  - vm_compute. reflexivity.
Defined.

(** A configured category that [percentage_df] has no column for makes
    [eni] raise once its pivot is built, also when the loop has skipped
    that category with a warning: the regrouping of [percentage_df] sums
    every configured category. *)
Theorem eni_raises_without_percentage_column
  (db : database) (area : string) (weights : bool)
  (percentage_df : percentage_frame)
  (group_order : list group_key -> list group_key)
  (questions : list string) (category_column : string) :
  questions_present db area = Ok questions ->
  questions <> [] ->
  selects_ok db weights questions ->
  filter (has_members db) (categories db) <> [] ->
  In category_column (categories db) ->
  is_in category_column (percentage_columns percentage_df) = false ->
  eni db area weights percentage_df group_order = Raise ColumnNotFoundError.
Proof.
  intros Hq Hne Hw Hcats Hin Hcol.
  rewrite (eni_with_questions db area weights percentage_df group_order
                               questions Hq Hne).
  destruct (category_loop_ok db weights questions (categories db) Hw)
    as [log [Eloop _]].
  rewrite Eloop. cbn [bind snd fst].
  destruct (filter (has_members db) (categories db)) as [|c0 cats]; [congruence|].
  cbn [map].
  rewrite (eni_percentage_missing group_order (categories db) percentage_df
                                  category_column Hin Hcol).
  reflexivity.
Qed.

Lemma eni_raises_without_percentage_column_witness :
  eni (with_categories ["ghost"; "cat"] (survey 1 [Some 3; Some 5])) "Area" false
      sample_percentage_df first_appearance
  = Raise ColumnNotFoundError.
Proof.
  apply (eni_raises_without_percentage_column
           (with_categories ["ghost"; "cat"] (survey 1 [Some 3; Some 5]))
           "Area" false sample_percentage_df first_appearance ["Q1"] "ghost").
  - reflexivity.
  - discriminate.
  - intros c [<-|[<-|[]]] Hm; [discriminate Hm | reflexivity].
  - vm_compute. discriminate.
  - left. reflexivity.
  - reflexivity.
Defined.

(** With [weights=True] and no weight column configured, [eni] raises an
    [UnboundLocalError] as soon as one category column of the data has a
    member: the name [weight_column] was never bound. *)
Theorem eni_weights_without_column (db : database) (area : string)
        (percentage_df : percentage_frame)
        (group_order : list group_key -> list group_key)
        (questions : list string) (category_column : string) :
  questions_present db area = Ok questions ->
  questions <> [] ->
  WEIGHT_COLUMN (cfg db) = None ->
  In category_column (categories db) ->
  has_members db category_column = true ->
  eni db area true percentage_df group_order = Raise UnboundLocalError.
Proof.
  intros Hq Hne Hw Hin Hm. unfold eni. rewrite Hq. cbn [bind].
  destruct questions as [|q0 qs]; [congruence|].
  rewrite (category_loop_unbound db (q0 :: qs) (categories db) Hw); [reflexivity|].
  exists category_column. split; assumption.
Qed.

Lemma eni_weights_without_column_witness :
  eni (survey 1 [Some 3; Some 5]) "Area" true sample_percentage_df first_appearance
  = Raise UnboundLocalError.
Proof.
  apply (eni_weights_without_column (survey 1 [Some 3; Some 5]) "Area"
                                    sample_percentage_df first_appearance
                                    ["Q1"] "cat").
  - reflexivity.
  - discriminate.
  - reflexivity.
  - left. reflexivity.
  - reflexivity.
Defined.

End ENIExtras.

(** * The long form of the percentage results *)

Section MetricNameFacts.
Import MetricNames.
Local Open Scope string_scope.

Lemma split_not_nil (s : string) : split s <> [].
Proof.
  induction s as [|c s IH]; cbn [split]; [discriminate|].
  destruct (Ascii.eqb c "_"%char); [discriminate|].
  destruct (split s); discriminate.
Qed.

Lemma split_app (a b : string) :
  split (a ++ String "_"%char b) = (split a ++ split b)%list.
Proof.
  induction a as [|c a IH].
  - reflexivity.
  - change (String c a ++ String "_"%char b) with (String c (a ++ String "_"%char b)).
    cbn [split]. rewrite IH. destruct (Ascii.eqb c "_"%char); [reflexivity|].
    destruct (split a) as [|h t] eqn:E; [exfalso; apply (split_not_nil a E)|].
    reflexivity.
Qed.

Lemma split_token (v : string) : no_underscore v = true -> split v = [v].
Proof.
  induction v as [|c v IH]; cbn [no_underscore split]; [reflexivity|].
  intros H. apply andb_true_iff in H. destruct H as [Hc Hv].
  apply negb_true_iff in Hc. rewrite Hc, (IH Hv). reflexivity.
Qed.

Lemma join_split (s : string) : join (split s) = s.
Proof.
  induction s as [|c s IH]; [reflexivity|]. cbn [split].
  destruct (Ascii.eqb_spec c "_"%char) as [->|Hne].
  - destruct (split s) as [|h t] eqn:E; [exfalso; apply (split_not_nil s E)|].
    cbn [join] in *. rewrite IH. reflexivity.
  - destruct (split s) as [|h t] eqn:E; [exfalso; apply (split_not_nil s E)|].
    destruct t as [|h' t'].
    + cbn [join] in *. rewrite IH. reflexivity.
    + cbn [join] in *. rewrite <- IH. reflexivity.
Qed.

(** No piece of a split name holds an underscore. *)
Lemma split_tokens (s t : string) : In t (split s) -> no_underscore t = true.
Proof.
  revert t. induction s as [|c s IH]; intros t; cbn [split].
  - intros [<-|[]]. reflexivity.
  - destruct (Ascii.eqb c "_"%char) eqn:Ec.
    + intros [<-|H]; [reflexivity | apply IH; exact H].
    + destruct (split s) as [|h l] eqn:E; [exfalso; apply (split_not_nil s E)|].
      intros [<-|H].
      * cbn [no_underscore]. rewrite Ec. cbn [negb andb].
        apply IH. left. reflexivity.
      * apply IH. right. exact H.
Qed.

Lemma metric_type_raw_token (s t : string) :
  metric_type_raw s = Some t -> no_underscore t = true.
Proof.
  unfold metric_type_raw, get_from_end. intros H.
  apply nth_error_In in H. apply in_rev in H. apply (split_tokens s t H).
Qed.

(** The pieces of a metric column name built from a column, an answer
    value and a suffix. *)
Lemma split_metric_name (col v m : string) :
  no_underscore v = true -> no_underscore m = true ->
  split (col ++ String "_"%char (v ++ String "_"%char m)) = (split col ++ [v; m])%list.
Proof.
  intros Hv Hm. rewrite split_app, split_app, (split_token v Hv), (split_token m Hm).
  reflexivity.
Qed.

End MetricNameFacts.

Section MetricNameExtras.
Import MetricNames.
Local Open Scope string_scope.

(** A metric column named [<col>_<value>_<suffix>], with a suffix count,
    percentage or weighted and a value without an underscore, is read back
    as question [<col>], answer value [<value>] and metric type [<suffix>],
    whatever underscores the column name itself holds.  So the missing
    percentage [<col>_nan_percentage] becomes the percentage of the answer
    value "nan", [<col>_total_count] the count of the answer value "total",
    and [<col>_total_weighted_count] the count of the answer value
    "weighted" of a question named [<col>_total]. *)
Theorem metric_name_round_trip (col v m : string) :
  no_underscore v = true ->
  In m ["count"; "percentage"; "weighted"] ->
  question (col ++ String "_"%char (v ++ String "_"%char m)) = Some col /\
  answer_value (col ++ String "_"%char (v ++ String "_"%char m)) = Some v /\
  metric_type (col ++ String "_"%char (v ++ String "_"%char m)) = Some m.
Proof.
  intros Hv Hm.
  assert (Hmu : no_underscore m = true).
  { destruct Hm as [<-|[<-|[<-|[]]]]; reflexivity. }
  assert (Hmt : metric_type (col ++ String "_"%char (v ++ String "_"%char m)) = Some m).
  { unfold metric_type, metric_type_raw, get_from_end.
    rewrite (split_metric_name col v m Hv Hmu), rev_app_distr. cbn [rev app nth_error].
    destruct Hm as [<-|[<-|[<-|[]]]]; reflexivity. }
  assert (Hin : forall l, (forall x, In x ["count"; "percentage"; "weighted"] -> In x l) ->
                          is_in (Some m) l = true).
  { intros l Hl. cbn [is_in]. apply existsb_exists. exists m.
    split; [apply Hl; exact Hm | apply String.eqb_refl]. }
  split; [|split; [|exact Hmt]].
  - unfold question. rewrite Hmt, Hin.
    + f_equal. unfold original_column_raw.
      rewrite (split_metric_name col v m Hv Hmu), length_app. cbn [List.length].
      replace (List.length (split col) + 2 - 2)%nat with (List.length (split col)) by lia.
      rewrite firstn_app, firstn_all, Nat.sub_diag. cbn [firstn].
      rewrite app_nil_r. apply join_split.
    + intros x Hx. cbn in *. tauto.
  - unfold answer_value. rewrite Hmt, Hin by (intros x Hx; exact Hx).
    unfold answer_value_raw, get_from_end.
    rewrite (split_metric_name col v m Hv Hmu), rev_app_distr. reflexivity.
Qed.

Lemma metric_name_round_trip_witness :
  question ("Q1_a" ++ String "_"%char ("nan" ++ String "_"%char "percentage")) = Some "Q1_a" /\
  answer_value ("Q1_a" ++ String "_"%char ("nan" ++ String "_"%char "percentage")) = Some "nan" /\
  metric_type ("Q1_a" ++ String "_"%char ("nan" ++ String "_"%char "percentage"))
  = Some "percentage".
Proof.
  apply (metric_name_round_trip "Q1_a" "nan" "percentage").
  - reflexivity.
  - right. left. reflexivity.
Defined.

(** The metric type of a row of the long form is count, percentage,
    weighted or total_denominator, or null: the branches of the chain for
    total_count, nan_count, nan_percentage and nan_weighted are never
    taken, since what is compared with these names is the last piece of a
    name split at its underscores. *)
Theorem metric_type_values (aggregated_metric : string) :
  metric_type aggregated_metric = None \/
  metric_type aggregated_metric = Some "count" \/
  metric_type aggregated_metric = Some "percentage" \/
  metric_type aggregated_metric = Some "weighted" \/
  metric_type aggregated_metric = Some "total_denominator".
Proof.
  unfold metric_type.
  destruct (metric_type_raw aggregated_metric) as [t|] eqn:Eraw.
  - pose proof (metric_type_raw_token aggregated_metric t Eraw) as Ht.
    cbn [is_in existsb is_lit].
    destruct (String.eqb_spec t "count") as [->|H1]; [cbn [orb]; tauto|].
    destruct (String.eqb_spec t "percentage") as [->|H2]; [cbn [orb]; tauto|].
    destruct (String.eqb_spec t "weighted") as [->|H3]; [cbn [orb]; tauto|].
    cbn [orb andb].
    destruct (String.eqb aggregated_metric "total_denominator_denom"); [tauto|].
    destruct (String.eqb_spec t "nan_count") as [->|H4]; [discriminate Ht|].
    destruct (String.eqb_spec t "nan_percentage") as [->|H5]; [discriminate Ht|].
    destruct (String.eqb_spec t "nan_weighted") as [->|H6]; [discriminate Ht|].
    tauto.
  - cbn [is_in is_lit andb].
    destruct (String.eqb aggregated_metric "total_denominator_denom"); tauto.
Qed.

End MetricNameExtras.

(** * The overall index *)

Section OverallFacts.
Import Frame IndexOverall.


Variable db : database.

Lemma df_long_weights (wc : string) (w : cell) :
  (forall r, In r (df_clean db) -> get wc (cells r) = w) ->
  df_long db (Some wc) = map (fun wv => (w, snd wv)) (df_long db None).
Proof.
  intros Hw. unfold df_long.
  induction (Index.questions_present db) as [|q qs IH]; [reflexivity|].
  cbn [flat_map]. rewrite map_app, IH. f_equal.
  clear IH. induction (df_clean db) as [|r rs IHr]; [reflexivity|].
  cbn [flat_map]. rewrite map_app, IHr.
  - f_equal. rewrite (Hw r (or_introl eq_refl)).
    destruct (get q (cells r)); reflexivity.
  - intros r' Hr'. apply Hw. right. exact Hr'.
Qed.

Lemma df_long_nil_questions (wc : option string) :
  Index.questions_present db = [] -> df_long db wc = [].
Proof. intros E. unfold df_long. rewrite E. reflexivity. Qed.

Lemma overall_index_weighted (round5 : f64 -> f64) (wc : string) :
  WEIGHT_COLUMN (cfg db) = Some wc ->
  has_column wc (df db) = true ->
  df_long db (Some wc) <> [] ->
  overall_index db true round5
  = Ok (Some (round5 (overall_index_expr true (df_long db (Some wc))))).
Proof.
  intros Hwc Hcol Hne. unfold overall_index.
  destruct (Index.questions_present db) as [|q0 qs] eqn:Eq.
  { exfalso. apply Hne. apply df_long_nil_questions. exact Eq. }
  rewrite Hwc, Hcol. cbn [bind].
  destruct (df_long db (Some wc)) as [|x l]; [congruence | reflexivity].
Qed.


End OverallFacts.

Section OverallExtras.
Import Frame IndexOverall Samples.
Local Open Scope string_scope.

(** When the weight column is null for every respondent, the weighted
    overall index is the rounding of 0, whatever was answered: a null
    weight counts as 0 in the weighted sum and as 1 in the sum of
    weights.  The weight column and the questions are distinct names, as
    [select] asks. *)
Theorem overall_index_null_weights
  (db : database) (round5 : f64 -> f64) (wc : string) :
  WEIGHT_COLUMN (cfg db) = Some wc ->
  has_column wc (df db) = true ->
  NoDup (wc :: Index.questions_present db) ->
  (forall r, In r (df_clean db) -> get wc (cells r) = None) ->
  df_long db None <> [] ->
  overall_index db true round5 = Ok (Some (round5 (Fin 0))).
Proof.
  intros Hwc Hcol _ Hnull Hne.
  assert (Hlen : List.length (df_long db None) <> 0%nat).
  { destruct (df_long db None); [congruence | discriminate]. }
  rewrite (overall_index_weighted db round5 wc Hwc Hcol).
  2:{ rewrite (df_long_weights db wc None Hnull). intros E.
      apply map_eq_nil in E. contradiction. }
  f_equal. f_equal. f_equal.
  rewrite (df_long_weights db wc None Hnull).
  unfold overall_index_expr. rewrite !sumQ_map. cbn [fst snd fill_null].
  rewrite (fin_zero (sumQ (fun x => snd x * 0) (df_long db None))).
  2:{ rewrite (sumQ_scale (fun x => snd x) 0). ring. }
  assert (HD : sumQ (fun _ : cell * Q => 1) (df_long db None)
               == inject_Z (Z.of_nat (List.length (df_long db None)))).
  { apply sumQ_ones. }
  assert (Hn : 0 < inject_Z (Z.of_nat (List.length (df_long db None)))).
  { change 0 with (inject_Z 0). rewrite <- Zlt_Qlt. lia. }
  unfold fin at 1. cbn [fdiv].
  destruct (Qeq_bool _ 0) eqn:E.
  - apply Qeq_bool_eq in E. rewrite Qred_correct, HD in E. lra.
  - apply fin_zero. unfold Qdiv. ring.
Qed.

Lemma overall_index_null_weights_witness :
  overall_index
    {| df := {| columns := ["w"; "Q1"];
                rows := [[("w", None); ("Q1", Some 4)]; [("w", None); ("Q1", Some 5)]] |};
       cfg := {| WEIGHT_COLUMN := Some "w"; NAN_VALUES := [];
                 area_map := [("Area", ["Q1"])]; MINIMUM_COUNT := 1 |};
       variable_value_labels := [];
       categories := [] |}
    true (fun x => x)
  = Ok (Some (Fin 0)).
Proof.
  apply (overall_index_null_weights
           {| df := {| columns := ["w"; "Q1"];
                       rows := [[("w", None); ("Q1", Some 4)];
                                [("w", None); ("Q1", Some 5)]] |};
              cfg := {| WEIGHT_COLUMN := Some "w"; NAN_VALUES := [];
                        area_map := [("Area", ["Q1"])]; MINIMUM_COUNT := 1 |};
              variable_value_labels := [];
              categories := [] |}
           (fun x => x) "w").
  - reflexivity.
  - reflexivity.
  - repeat constructor; cbn; intuition discriminate.
  - intros r [<-|[<-|[]]]; reflexivity.
  - discriminate.
Defined.



End OverallExtras.

(** * The correlation aggregator *)

Section CorrelateFacts.
Import Frame Correlate.
Local Open Scope string_scope.

Variable db : database.
Variable pearson : list (cell * cell) -> option f64.
Variable frame_corr : list (cell * cell) -> option f64.
Variable df_columns : list string.
Variable df_arg : list clean_row.
Variable correlate_area : string.
Variable questions : list string.

Local Abbreviation cat_corr :=
  (category_correlations pearson df_columns df_arg correlate_area questions).
Local Abbreviation cat_loop :=
  (category_loop pearson df_columns df_arg correlate_area questions).

Lemma clamp_ge_zero (c : f64) : ge_zero (clamp c) = true.
Proof.
  unfold clamp. destruct (ge_zero c) eqn:E; [exact E | reflexivity].
Qed.

Local Abbreviation row_ok cats r :=
  (ge_zero (Correlation r) = true
   /\ Area r = correlate_area
   /\ In (Category r) cats
   /\ In (Question r) questions
   /\ Question r <> correlate_area).

Lemma category_correlations_rows (aq : list string) (c : string)
      (rows_ : list corr_row) (r : corr_row) :
  cat_corr aq c = Ok rows_ -> In r rows_ -> row_ok [c] r.
Proof.
  unfold category_correlations.
  destruct (filter (is_member c) df_arg) as [|m ms] eqn:Ef.
  { intros [= <-] []. }
  destruct (forallb _ questions); [|discriminate].
  destruct questions as [|q0 qs] eqn:Eq.
  { intros [= <-] []. }
  rewrite <- Eq.
  destruct (forallb _ aq && all_distinct aq).
  2:{ intros [= <-] []. }
  intros [= <-] Hin. apply in_flat_map in Hin. destruct Hin as [q [Hq Hin]].
  destruct (String.eqb q correlate_area) eqn:Eqa; [destruct Hin|].
  destruct (Nat.ltb 1 _); [|destruct Hin].
  destruct (pearson _) as [v|]; [|destruct Hin].
  destruct Hin as [<-|[]]. cbn.
  repeat split.
  - apply clamp_ge_zero.
  - left. reflexivity.
  - exact Hq.
  - apply String.eqb_neq. exact Eqa.
Qed.

Lemma row_ok_incl (cats cats' : list string) (r : corr_row) :
  incl cats cats' -> row_ok cats r -> row_ok cats' r.
Proof.
  intros Hi (H1 & H2 & H3 & H4 & H5). repeat split; auto.
Qed.

Lemma category_loop_rows (aq : list string) (cats : list string) :
  forall rows_ r, cat_loop aq cats = Ok rows_ -> In r rows_ -> row_ok cats r.
Proof.
  induction cats as [|c cats' IH]; intros rows_ r.
  - intros [= <-] [].
  - cbn [category_loop].
    destruct (cat_corr aq c) as [here|e] eqn:Ec; [|discriminate].
    cbn [bind].
    destruct (cat_loop aq cats') as [rest|e] eqn:El; [|discriminate].
    cbn [bind]. intros [= <-] Hin. apply in_app_or in Hin.
    destruct Hin as [Hin|Hin].
    + apply (row_ok_incl [c]).
      * intros x [<-|[]]. left. reflexivity.
      * exact (category_correlations_rows aq c here r Ec Hin).
    + apply (row_ok_incl cats').
      * intros x Hx. right. exact Hx.
      * exact (IH rest r eq_refl Hin).
Qed.


End CorrelateFacts.

Section CorrelateExtras.
Import Frame Correlate MoreSamples.
Local Open Scope string_scope.

(** [_correlate], category path: when some category column is in the
    data, every row collected carries a correlation that is neither
    negative nor NaN, for the area asked for, for one of the category
    columns present and for one of the questions, which is not named as
    the area.  The questions are distinct and none is named "Category". *)
Theorem correlate_rows_clamped
  (db : database) (pearson frame_corr : list (cell * cell) -> option f64)
  (df_columns : list string) (df_arg : list clean_row)
  (correlate_area : string) (questions : list string)
  (rows_ : list corr_row) (r : corr_row) :
  NoDup questions ->
  ~ In "Category" questions ->
  category_cols_present db df_columns <> [] ->
  correlate db pearson frame_corr df_columns df_arg correlate_area questions
  = Ok rows_ ->
  In r rows_ ->
  ge_zero (Correlation r) = true
  /\ Area r = correlate_area
  /\ In (Category r) (category_cols_present db df_columns)
  /\ In (Question r) questions
  /\ Question r <> correlate_area.
Proof.
  intros _ _ Hcats. unfold correlate.
  destruct (correlate_area_questions db correlate_area) as [[|a aq]|].
  - intros [= <-] [].
  - destruct (category_cols_present db df_columns) as [|c cats] eqn:Ec;
      [congruence|].
    intros Hrun Hin.
    exact (category_loop_rows pearson df_columns df_arg correlate_area questions
                              (a :: aq) (c :: cats) rows_ r Hrun Hin).
  - intros [= <-] [].
Qed.

Lemma correlate_rows_clamped_witness :
  ge_zero (Correlation corr_row_Q1) = true
  /\ Area corr_row_Q1 = "Area"
  /\ In (Category corr_row_Q1) (category_cols_present corr_db corr_columns)
  /\ In (Question corr_row_Q1) ["Q1"; "Q2"]
  /\ Question corr_row_Q1 <> "Area".
Proof.
  apply (correlate_rows_clamped corr_db negative_corr negative_corr corr_columns
                                (df_clean corr_db) "Area" ["Q1"; "Q2"]
                                [corr_row_Q1; corr_row_Q2] corr_row_Q1).
  - repeat constructor; cbn; intuition discriminate.
  - cbn; intuition discriminate.
  - vm_compute. discriminate.
  - vm_compute. reflexivity.
  - left. reflexivity.
Defined.



End CorrelateExtras.

(** * The open text responses *)

Section OpenTextFacts.
Import OpenText.
Local Open Scope string_scope.

Variable strip_chars : string -> string.
Variable columns : list string.
Variable main_df : list text_row.

Local Abbreviation run := (open_text_rows strip_chars columns main_df).
Local Abbreviation responses := (responses_series strip_chars main_df).

(** A question the loop extracts from. *)
Local Abbreviation extracted row :=
  (question_type row = "open_text" /\ has_question_columns row = true).

Lemma extracted_dec (row : question_row) :
  String.eqb (question_type row) "open_text" && has_question_columns row = true
  <-> extracted row.
Proof.
  rewrite andb_true_iff, String.eqb_eq. reflexivity.
Qed.

Lemma in_responses_series (base s : string) :
  In s (responses base)
  <-> strip_chars s <> ""
      /\ exists r, In r main_df /\ get_text base r = Some s.
Proof.
  unfold responses_series. rewrite in_flat_map. split.
  - intros [r [Hr Hin]].
    destruct (get_text base r) as [t|] eqn:Eg; [|destruct Hin].
    destruct (String.eqb (strip_chars t) "") eqn:Es; [destruct Hin|].
    destruct Hin as [<-|[]]. split.
    + apply String.eqb_neq. exact Es.
    + exists r. split; [exact Hr | exact Eg].
  - intros [Hs [r [Hr Eg]]]. exists r. split; [exact Hr|].
    rewrite Eg. apply String.eqb_neq in Hs. rewrite Hs. left. reflexivity.
Qed.

Lemma open_text_rows_in (question_df : list question_row) :
  forall rows_ b s,
    run question_df = Ok rows_ ->
    (In (b, s) rows_
     <-> (exists row, In row question_df /\ extracted row /\ base_question row = b)
         /\ In s (responses b)).
Proof.
  induction question_df as [|row rest IH]; intros rows_ b s.
  - intros [= <-]. split; [intros [] | intros [[row [[] _]] _]].
  - cbn [open_text_rows].
    destruct (String.eqb (question_type row) "open_text" && has_question_columns row)
      eqn:Ex.
    + destruct (existsb _ columns); [|discriminate].
      destruct (run rest) as [more|e] eqn:Er; [|discriminate].
      cbn [bind]. intros [= <-]. rewrite in_app_iff, in_map_iff.
      rewrite (IH more b s eq_refl). apply extracted_dec in Ex. split.
      * intros [[t [[= <- <-] Ht]] | [[row' [Hin Hrow']] Hs]].
        -- split; [|exact Ht]. exists row. split; [left; reflexivity|].
           split; [exact Ex | reflexivity].
        -- split; [|exact Hs]. exists row'. split; [right; exact Hin | exact Hrow'].
      * intros [[row' [[<-|Hin] [Hex Hb]]] Hs].
        -- left. exists s. rewrite Hb. split; [reflexivity | exact Hs].
        -- right. split; [|exact Hs]. exists row'. split; [exact Hin|].
           split; [exact Hex | exact Hb].
    + intros Hrun. rewrite (IH rows_ b s Hrun). split.
      * intros [[row' [Hin Hrow']] Hs]. split; [|exact Hs].
        exists row'. split; [right; exact Hin | exact Hrow'].
      * intros [[row' [[<-|Hin] [Hex Hb]]] Hs].
        -- apply extracted_dec in Hex. congruence.
        -- split; [|exact Hs]. exists row'. split; [exact Hin|].
           split; [exact Hex | exact Hb].
Qed.

Lemma open_text_rows_columns (question_df : list question_row) :
  forall rows_, run question_df = Ok rows_ ->
    forall row, In row question_df -> extracted row ->
                In (base_question row) columns.
Proof.
  induction question_df as [|row rest IH]; intros rows_ Hrun row' Hin Hex;
    [destruct Hin|].
  cbn [open_text_rows] in Hrun.
  destruct (String.eqb (question_type row) "open_text" && has_question_columns row)
    eqn:Ex.
  - destruct (existsb _ columns) eqn:Ec; [|discriminate].
    destruct (run rest) as [more|e] eqn:Er; [|discriminate].
    destruct Hin as [<-|Hin].
    + apply existsb_exists in Ec. destruct Ec as [c [Hc Ecb]].
      apply String.eqb_eq in Ecb. rewrite Ecb. exact Hc.
    + exact (IH more eq_refl row' Hin Hex).
  - destruct Hin as [<-|Hin].
    + apply extracted_dec in Hex. congruence.
    + exact (IH rows_ Hrun row' Hin Hex).
Qed.

Lemma open_text_rows_total (question_df : list question_row) :
  (forall row, In row question_df -> extracted row ->
               In (base_question row) columns) ->
  exists rows_, run question_df = Ok rows_.
Proof.
  induction question_df as [|row rest IH]; intros Hcols.
  - exists []. reflexivity.
  - destruct IH as [more Hmore].
    { intros row' Hin. apply Hcols. right. exact Hin. }
    cbn [open_text_rows].
    destruct (String.eqb (question_type row) "open_text" && has_question_columns row)
      eqn:Ex.
    + assert (Ec : existsb (String.eqb (base_question row)) columns = true).
      { apply existsb_exists. exists (base_question row). split.
        - apply Hcols; [left; reflexivity | apply extracted_dec; exact Ex].
        - apply String.eqb_refl. }
      rewrite Ec, Hmore. cbn [bind]. eexists. reflexivity.
    + exists more. exact Hmore.
Qed.

Lemma open_text_rows_raise (question_df : list question_row) (e : exn) :
  run question_df = Raise e -> e = ColumnNotFoundError.
Proof.
  induction question_df as [|row rest IH]; cbn [open_text_rows]; [discriminate|].
  destruct (String.eqb (question_type row) "open_text" && has_question_columns row).
  - destruct (existsb _ columns); [|intros [= <-]; reflexivity].
    destruct (run rest) as [more|e']; [discriminate|].
    cbn [bind]. intros [= <-]. apply IH. reflexivity.
  - exact IH.
Qed.

End OpenTextFacts.

Section OpenTextExtras.
Import OpenText MoreSamples.
Local Open Scope string_scope.

(** [open_text] extracts exactly the answers that are not null and not
    blank, each under the base question whose column holds it: a pair is
    in the result if and only if its base question is that of an open
    text question with columns, and its response is a cell of that
    question's column that is not null and not blank after trimming. *)
Theorem open_text_extracts_non_blank
  (strip_chars : string -> string) (columns : list string)
  (main_df : list text_row) (question_df : list question_row)
  (rows_ : list (string * string)) (b s : string) :
  open_text_rows strip_chars columns main_df question_df = Ok rows_ ->
  (In (b, s) rows_
   <-> (exists row, In row question_df
                    /\ question_type row = "open_text"
                    /\ has_question_columns row = true
                    /\ base_question row = b)
       /\ strip_chars s <> ""
       /\ exists r, In r main_df /\ get_text b r = Some s).
Proof.
  intros Hrun.
  rewrite (open_text_rows_in strip_chars columns main_df question_df rows_ b s Hrun).
  rewrite in_responses_series. split.
  - intros [[row [Hin [[Ht Hq] Hb]]] H]. split; [|exact H].
    exists row. repeat split; assumption.
  - intros [[row [Hin [Ht [Hq Hb]]]] H]. split; [|exact H].
    exists row. repeat split; assumption.
Qed.

Lemma open_text_extracts_non_blank_witness :
  In ("comment", "good") [("comment", "good")]
  <-> (exists row, In row text_questions
                   /\ question_type row = "open_text"
                   /\ has_question_columns row = true
                   /\ base_question row = "comment")
      /\ strip_blank "good" <> ""
      /\ exists r, In r text_df /\ get_text "comment" r = Some "good".
Proof.
  apply (open_text_extracts_non_blank strip_blank ["comment"; "Q1"] text_df
                                      text_questions [("comment", "good")]
                                      "comment" "good").
  reflexivity.
Defined.

(** [open_text] returns if and only if every open text question with
    columns has its base question among the columns of the data; it
    raises nothing but the library's error for a column not found. *)
Theorem open_text_returns_iff_columns
  (strip_chars : string -> string) (columns : list string)
  (main_df : list text_row) (question_df : list question_row) :
  ((exists rows_, open_text_rows strip_chars columns main_df question_df = Ok rows_)
   <-> (forall row, In row question_df ->
                    question_type row = "open_text" ->
                    has_question_columns row = true ->
                    In (base_question row) columns))
  /\ (forall e, open_text_rows strip_chars columns main_df question_df = Raise e ->
                e = ColumnNotFoundError).
Proof.
  split; [split|].
  - intros [rows_ Hrun] row Hin Ht Hq.
    exact (open_text_rows_columns strip_chars columns main_df question_df rows_ Hrun
                                  row Hin (conj Ht Hq)).
  - intros H. apply open_text_rows_total. intros row Hin [Ht Hq]. exact (H row Hin Ht Hq).
  - intros e. apply open_text_rows_raise.
Qed.

End OpenTextExtras.
